(** * vconv: batch video conversion (convert.js)

    A shallow embedding of the conversion script and of the properties
    stated about it.  The repository holds the sequential, logging script
    in two editions that differ only in their message texts and in the
    preset table: the English one with five presets and the Russian one
    with three.  Both are covered by the [Variant] parameter below.  An
    earlier edition that starts all conversions at once and waits for them
    with [Promise.allSettled] is modelled apart, in [Concurrent]; the
    properties stated about the script are about the sequential one.

    Layout:
    - [Js]    the parts of the JavaScript runtime the script relies on:
              values, the conversions between numbers and strings,
              [toFixed], [parseFloat], [parseInt], [Math.floor];
    - [Path]  Node's [path] module (POSIX flavour);
    - the script itself: presets, [getFileStats], [formatBytes],
      [formatBitrate], [logInfo], [convertVideos] and the entry point;
    - a reference world to run the script in;
    - the earlier edition ([Concurrent]);
    - the properties stated about the script, and further properties of
      the same functions and of the earlier edition.

    Modelling choices:
    - numbers are IEEE binary64 values ([PrimFloat.float]), so NaN, the
      infinities and the signed zeros behave as they do in the engine;
      the two counters and the loop index, which only count the elements of
      an array, are natural numbers;
    - a string is the sequence of bytes of its UTF-8 text;
    - [async] functions are run to completion one after the other, as the
      script awaits every call; the file system, the clock and the media
      engine answer through the fields of [Env], and every answer may
      depend on all that happened before; an engine that never answers is
      not part of the model;
    - every effect of the script is recorded as an [Event], in order. *)

From Stdlib Require Import ZArith NArith List String Ascii Floats Lia Bool DecimalString.
Import ListNotations.
Open Scope string_scope.
Open Scope Z_scope.

(** ** The JavaScript runtime *)

Module Js.

(** The values that reach the script from the probe: a number, a string, or
    a missing property. *)
Inductive JsValue :=
| JsUndefined
| JsNumber (x : float)
| JsString (s : string).

(** A string is kept as the bytes of its UTF-8 text. *)
Definition code (c : ascii) : Z := Z.of_N (N_of_ascii c).
Definition isDigit (c : ascii) : bool := (48 <=? code c) && (code c <=? 57).
Definition digitVal (c : ascii) : Z := code c - 48.

(** The decimal digits of a natural number, and how many they are. *)
Definition decimal (n : Z) : string := NilEmpty.string_of_uint (N.to_uint (Z.to_N n)).
Definition ndigits (n : Z) : Z := Z.of_nat (String.length (decimal n)).

Fixpoint zeros (n : nat) : string :=
  match n with O => "" | S n' => String "0" (zeros n') end.

(** [s.slice(from, to)] for [0 <= from <= to]. *)
Definition slice (s : string) (from to : Z) : string :=
  substring (Z.to_nat from) (Z.to_nat (to - from)) s.

(** *** Numbers to text

    A finite number is the exact ratio [p / q] of two integers; all
    roundings below are decided on that ratio.  [scale10 p q t] is
    [p / q * 10 ^ t]. *)
Definition scale10 (p q t : Z) : Z * Z :=
  if 0 <=? t then (p * 10 ^ t, q) else (p, q * 10 ^ (- t)).

(** The number nearest to [p / q], ties to even: the division of the
    IEEE format carried out on the two integers. *)
Definition ofRatio (neg : bool) (p q : Z) : float :=
  match p, q with
  | Zpos p', Zpos q' =>
      SF2Prim (SFdiv prec emax (S754_finite neg p' 0) (S754_finite false q' 0))
  | _, _ => if neg then neg_zero else zero
  end.

(** The number nearest to [m * 10 ^ t]. *)
Definition ofDecimal (neg : bool) (m t : Z) : float :=
  let '(p, q) := scale10 m 1 t in ofRatio neg p q.

(** The ratio that the finite number [m * 2 ^ e] is. *)
Definition ratioOf (m : positive) (e : Z) : Z * Z :=
  if 0 <=? e then (Zpos m * 2 ^ e, 1) else (Zpos m, 2 ^ (- e)).

(** The decimal exponent [n] of a positive ratio:
    [10 ^ (n - 1) <= p / q < 10 ^ n]. *)
Definition exp10 (p q : Z) : Z :=
  if q <=? p then ndigits (p / q)
  else let D := ndigits (q / p) in
       if p * 10 ^ (D - 1) =? q then 2 - D else 1 - D.

(** [Number::toString] asks for integers [n], [k] and [s] with [k] digits
    in [s], as few as possible, such that [s * 10 ^ (n - k)] is read back as
    the number; among several [s] the one nearest to the number is taken,
    the even one on a tie.  [candidate] answers for one [k]: the two
    [k]-digit neighbours of the number are tried. *)
Definition candidate (x : spec_float) (p q n0 k : Z) : option (Z * Z) :=
  let '(num, den) := scale10 p q (k - n0) in
  let lo := num / den in
  let r := num mod den in
  let hi := lo + 1 in
  let rounds s := SFeqb (Prim2SF (ofDecimal false s (n0 - k))) x in
  let pick s := if s =? 10 ^ k then (s / 10, n0 + 1) else (s, n0) in
  if r =? 0 then Some (lo, n0)
  else match rounds lo, rounds hi with
       | true, true =>
           Some (pick (match 2 * r ?= den with
                       | Lt => lo
                       | Gt => hi
                       | Eq => if Z.even lo then lo else hi
                       end))
       | true, false => Some (lo, n0)
       | false, true => Some (pick hi)
       | false, false => None
       end.

Fixpoint firstSome {A B} (f : A -> option B) (l : list A) : option B :=
  match l with
  | [] => None
  | a :: l' => match f a with Some b => Some b | None => firstSome f l' end
  end.

(** Seventeen digits tell any two numbers apart, so the search ends. *)
Definition shortest (x : spec_float) (p q : Z) : Z * Z :=
  let n0 := exp10 p q in
  match firstSome (fun k => candidate x p q n0 (Z.of_nat k)) (seq 1 17) with
  | Some r => r
  | None => (fst (scale10 p q (17 - n0)) / snd (scale10 p q (17 - n0)), n0)
  end.

(** The layout of the digits [s] with decimal exponent [n]: plain digits,
    digits with a point, a leading ["0."], or the exponent form. *)
Definition formatDigits (s n : Z) : string :=
  let ds := decimal s in
  let k := ndigits s in
  if (k <=? n) && (n <=? 21) then ds ++ zeros (Z.to_nat (n - k))
  else if (0 <? n) && (n <=? 21) then slice ds 0 n ++ "." ++ slice ds n k
  else if (-6 <? n) && (n <=? 0) then "0." ++ zeros (Z.to_nat (- n)) ++ ds
  else
    let e := n - 1 in
    let es := (if 0 <=? e then "+" else "-") ++ decimal (Z.abs e) in
    if k =? 1 then ds ++ "e" ++ es
    else slice ds 0 1 ++ "." ++ slice ds 1 k ++ "e" ++ es.

(** [Number::toString(x)] with radix 10. *)
Definition NumberToString (x : float) : string :=
  match Prim2SF x with
  | S754_nan => "NaN"
  | S754_zero _ => "0"
  | S754_infinity s => if s then "-Infinity" else "Infinity"
  | S754_finite s m e =>
      let '(p, q) := ratioOf m e in
      let '(d, n) := shortest (S754_finite false m e) p q in
      (if s then "-" else "") ++ formatDigits d n
  end.

(** The digits of [n] with a point before the last [f] of them. *)
Definition fixedDigits (n f : Z) : string :=
  let m := decimal n in
  if f =? 0 then m
  else
    let k := ndigits n in
    let m' := if k <=? f then zeros (Z.to_nat (f + 1 - k)) ++ m else m in
    let k' := Z.max k (f + 1) in
    slice m' 0 (k' - f) ++ "." ++ slice m' (k' - f) k'.

(** [Number.prototype.toFixed]: [n] is the integer for which
    [n / 10 ^ f - x] is nearest to zero, the larger one on a tie; numbers
    from [10 ^ 21] on are printed by [Number::toString]. *)
Definition toFixed (x : float) (f : Z) : string :=
  match Prim2SF x with
  | S754_nan => "NaN"
  | S754_infinity s => if s then "-Infinity" else "Infinity"
  | S754_zero _ => fixedDigits 0 f
  | S754_finite s m e =>
      let '(p, q) := ratioOf m e in
      if 10 ^ 21 * q <=? p then NumberToString x
      else (if s then "-" else "") ++ fixedDigits ((2 * p * 10 ^ f + q) / (2 * q)) f
  end.

(** *** Text to numbers *)

(** The white space and line terminators that the conversions skip: the
    ASCII ones, the no-break space, and the three-byte ones (the Ogham
    space mark, U+2000 to U+200A, the line and paragraph separators,
    U+202F, U+205F, the ideographic space and the byte order mark). *)
Definition isAsciiWhiteSpace (c : ascii) : bool :=
  let n := code c in
  ((9 <=? n) && (n <=? 13)) || (n =? 32).

Definition isWhiteSpace3 (a b c : ascii) : bool :=
  let x := code a in let y := code b in let z := code c in
  ((x =? 225) && (y =? 154) && (z =? 128))
  || ((x =? 226) && (y =? 128) &&
      (((128 <=? z) && (z <=? 138)) || (z =? 168) || (z =? 169) || (z =? 175)))
  || ((x =? 226) && (y =? 129) && (z =? 159))
  || ((x =? 227) && (y =? 128) && (z =? 128))
  || ((x =? 239) && (y =? 187) && (z =? 191)).

Fixpoint trimStart (s : string) : string :=
  match s with
  | EmptyString => s
  | String a r1 =>
      if isAsciiWhiteSpace a then trimStart r1
      else match r1 with
           | EmptyString => s
           | String b r2 =>
               if (code a =? 194) && (code b =? 160) then trimStart r2
               else match r2 with
                    | EmptyString => s
                    | String c r3 =>
                        if isWhiteSpace3 a b c then trimStart r3 else s
                    end
           end
  end.

(** The leading decimal digits of [s] appended to [acc]: the integer they
    spell, their count, and the rest of [s]. *)
Fixpoint digitsPrefix (s : string) (acc cnt : Z) : Z * Z * string :=
  match s with
  | String c r =>
      if isDigit c then digitsPrefix r (10 * acc + digitVal c) (cnt + 1)
      else (acc, cnt, s)
  | EmptyString => (acc, cnt, s)
  end.

(** An exponent part: [e] or [E], a sign if any, and at least one digit. *)
Definition exponentPart (s : string) : option (Z * string) :=
  match s with
  | String c r =>
      if (code c =? 101) || (code c =? 69) then
        let '(sg, r') := match r with
                         | String "+" t => (1, t)
                         | String "-" t => (-1, t)
                         | _ => (1, r)
                         end in
        let '(ev, ec, rest) := digitsPrefix r' 0 0 in
        if 0 <? ec then Some (sg * ev, rest) else None
      else None
  | EmptyString => None
  end.

(* The longest prefix that is a StrUnsignedDecimalLiteral other than
   Infinity: its digits as an integer, its power of ten, and the rest. *)
Definition unsignedDecimalPrefix (s : string) : option (Z * Z * string) :=
  let '(ip, ic, r1) := digitsPrefix s 0 0 in
  let mant :=
    match r1 with
    | String "." r =>
        let '(fp, fc, r') := digitsPrefix r ip 0 in
        if (0 <? ic) || (0 <? fc) then Some (fp, fc, r')
        else None
    | _ => if 0 <? ic then Some (ip, 0, r1) else None
    end in
  match mant with
  | None => None
  | Some (m, fc, r2) =>
      match exponentPart r2 with
      | Some (ev, r3) => Some (m, ev - fc, r3)
      | None => Some (m, - fc, r2)
      end
  end.

Definition stripPrefix (p s : string) : option string :=
  if String.prefix p s
  then Some (substring (String.length p) (String.length s - String.length p) s)
  else None.

Definition signPrefix (s : string) : bool * string :=
  match s with
  | String "-" r => (true, r)
  | String "+" r => (false, r)
  | _ => (false, s)
  end.

(* The longest prefix that is a StrDecimalLiteral: its value and the rest. *)
Definition decimalLiteralPrefix (s : string) : option (float * string) :=
  let '(neg, r) := signPrefix s in
  match stripPrefix "Infinity" r with
  | Some rest => Some (if neg then neg_infinity else infinity, rest)
  | None =>
      match unsignedDecimalPrefix r with
      | Some (m, t, rest) => Some (ofDecimal neg m t, rest)
      | None => None
      end
  end.

(** [parseFloat(s)]. *)
Definition parseFloat (s : string) : float :=
  match decimalLiteralPrefix (trimStart s) with
  | Some (x, _) => x
  | None => nan
  end.

(** The value of a digit in a radix up to 36. *)
Definition radixDigit (radix : Z) (c : ascii) : option Z :=
  let n := code c in
  let v := if (48 <=? n) && (n <=? 57) then n - 48
           else if (97 <=? n) && (n <=? 122) then n - 87
           else if (65 <=? n) && (n <=? 90) then n - 55
           else 36 in
  if v <? radix then Some v else None.

Fixpoint radixPrefix (radix : Z) (s : string) (acc cnt : Z) : Z * Z * string :=
  match s with
  | String c r =>
      match radixDigit radix c with
      | Some v => radixPrefix radix r (radix * acc + v) (cnt + 1)
      | None => (acc, cnt, s)
      end
  | EmptyString => (acc, cnt, s)
  end.

(* parseInt(string) with the radix left undefined. *)
Definition parseInt_string (s : string) : float :=
  let '(neg, r) := signPrefix (trimStart s) in
  let '(radix, r') :=
    match r with
    | String "0" (String c t) =>
        if (code c =? 120) || (code c =? 88) then (16, t) else (10, r)
    | _ => (10, r)
    end in
  let '(v, cnt, _) := radixPrefix radix r' 0 0 in
  if cnt =? 0 then nan else ofRatio neg v 1.

(** A hexadecimal, octal or binary literal, with nothing but white space
    after it. *)
Definition nonDecimalLiteral (s : string) : option float :=
  match s with
  | String "0" (String c t) =>
      let n := code c in
      let radix := if (n =? 120) || (n =? 88) then 16
                   else if (n =? 111) || (n =? 79) then 8
                   else if (n =? 98) || (n =? 66) then 2
                   else 0 in
      if radix =? 0 then None
      else let '(v, cnt, rest) := radixPrefix radix t 0 0 in
           if (0 <? cnt) && (String.eqb (trimStart rest) "")
           then Some (ofRatio false v 1)
           else None
  | _ => None
  end.

(** [StringToNumber]: the text between white space is empty, a literal of
    another radix, or a decimal literal; anything else is NaN. *)
Definition StringToNumber (s : string) : float :=
  let t := trimStart s in
  if String.eqb t "" then zero
  else match nonDecimalLiteral t with
       | Some x => x
       | None =>
           match decimalLiteralPrefix t with
           | Some (x, rest) => if String.eqb (trimStart rest) "" then x else nan
           | None => nan
           end
       end.

(** *** Conversions of values *)

Definition ToNumber (v : JsValue) : float :=
  match v with
  | JsUndefined => nan
  | JsNumber x => x
  | JsString s => StringToNumber s
  end.

Definition ToString (v : JsValue) : string :=
  match v with
  | JsUndefined => "undefined"
  | JsNumber x => NumberToString x
  | JsString s => s
  end.

Definition ToBoolean (v : JsValue) : bool :=
  match v with
  | JsUndefined => false
  | JsNumber x => negb (PrimFloat.eqb x zero || PrimFloat.is_nan x)
  | JsString s => negb (String.eqb s "")
  end.

(** The global functions [isNaN] and [parseInt]. *)
Definition isNaN (v : JsValue) : bool := PrimFloat.is_nan (ToNumber v).

Definition parseInt (v : JsValue) : float := parseInt_string (ToString v).

(** [Math.floor]. *)
Definition Math_floor (x : float) : float :=
  match Prim2SF x with
  | S754_finite s m e =>
      if 0 <=? e then x
      else
        let q := Zpos m / 2 ^ (- e) in
        if s then ofRatio true (if Zpos m mod 2 ^ (- e) =? 0 then q else q + 1) 1
        else ofRatio false q 1
  | _ => x
  end.


(** [String.prototype.toLowerCase] on the UTF-8 text of a string, as far as
    a comparison with an ASCII string can tell: the ASCII capitals, and the
    Kelvin sign, the one other character whose lower case is an ASCII
    letter.  Other characters keep their bytes. *)
Fixpoint toLowerCase (s : string) : string :=
  match s with
  | EmptyString => EmptyString
  | String a r =>
      let n := code a in
      if (65 <=? n) && (n <=? 90) then String (ascii_of_N (Z.to_N (n + 32))) (toLowerCase r)
      else match r with
           | String b (String c r') =>
               if (n =? 226) && (code b =? 132) && (code c =? 170)
               then String "k" (toLowerCase r')
               else String a (toLowerCase r)
           | _ => String a (toLowerCase r)
           end
  end.

End Js.

(** ** Node's [path] module, POSIX flavour *)

Module Path.

Definition slash : ascii := "/"%char.
Definition dot : ascii := "."%char.

Fixpoint splitOn (sep : ascii) (s : string) : list string :=
  match s with
  | EmptyString => [""]
  | String c r =>
      if Ascii.eqb c sep then "" :: splitOn sep r
      else match splitOn sep r with
           | [] => [String c ""]
           | x :: xs => String c x :: xs
           end
  end.

Definition lastChar (s : string) : option ascii :=
  match rev (list_ascii_of_string s) with
  | [] => None
  | c :: _ => Some c
  end.

(** [normalizeString]: the segments of a path with the empty and "."
    segments dropped and ".." resolved against the segment before it.  The
    stack is kept with the last segment first. *)
Fixpoint normalizeSegments (allowAboveRoot : bool) (segs stack : list string)
  : list string :=
  match segs with
  | [] => rev stack
  | seg :: rest =>
      if String.eqb seg "" || String.eqb seg "." then
        normalizeSegments allowAboveRoot rest stack
      else if String.eqb seg ".." then
        match stack with
        | top :: below =>
            if String.eqb top ".." then
              normalizeSegments allowAboveRoot rest
                (if allowAboveRoot then ".." :: stack else stack)
            else normalizeSegments allowAboveRoot rest below
        | [] =>
            normalizeSegments allowAboveRoot rest
              (if allowAboveRoot then [".."] else [])
        end
      else normalizeSegments allowAboveRoot rest (seg :: stack)
  end.

Definition normalize (path : string) : string :=
  match path with
  | EmptyString => "."
  | String c _ =>
      let isAbsolute := Ascii.eqb c slash in
      let trailingSeparator :=
        match lastChar path with
        | Some l => Ascii.eqb l slash
        | None => false
        end in
      let res :=
        String.concat "/" (normalizeSegments (negb isAbsolute) (splitOn slash path) []) in
      if String.eqb res "" then
        if isAbsolute then "/" else if trailingSeparator then "./" else "."
      else
        let res' := if trailingSeparator then res ++ "/" else res in
        if isAbsolute then "/" ++ res' else res'
  end.

(** [path.join] of two arguments. *)
Definition join (a b : string) : string :=
  let joined :=
    if String.eqb a "" then b
    else if String.eqb b "" then a
    else a ++ "/" ++ b in
  if String.eqb joined "" then "." else normalize joined.

(** The state of the backward scan that [extname] and [parse] share. *)
Record Scan := {
  startDot : Z;
  startPart : Z;
  endPos : Z;
  matchedSlash : bool;
  preDotState : Z
}.

Definition scanInit : Scan :=
  {| startDot := -1; startPart := 0; endPos := -1;
     matchedSlash := true; preDotState := 0 |}.

(** One run of the loop [for (i = path.length - 1; i >= start; --i)]:
    [cs] holds the characters at positions [i], [i - 1], ... *)
Fixpoint scan (cs : list ascii) (i : Z) (st : Scan) : Scan :=
  match cs with
  | [] => st
  | c :: rest =>
      if Ascii.eqb c slash then
        if negb (matchedSlash st) then
          {| startDot := startDot st; startPart := i + 1; endPos := endPos st;
             matchedSlash := matchedSlash st; preDotState := preDotState st |}
        else scan rest (i - 1) st
      else
        let st1 :=
          if endPos st =? -1 then
            {| startDot := startDot st; startPart := startPart st; endPos := i + 1;
               matchedSlash := false; preDotState := preDotState st |}
          else st in
        let st2 :=
          if Ascii.eqb c dot then
            if startDot st1 =? -1 then
              {| startDot := i; startPart := startPart st1; endPos := endPos st1;
                 matchedSlash := matchedSlash st1; preDotState := preDotState st1 |}
            else if negb (preDotState st1 =? 1) then
              {| startDot := startDot st1; startPart := startPart st1;
                 endPos := endPos st1; matchedSlash := matchedSlash st1;
                 preDotState := 1 |}
            else st1
          else if negb (startDot st1 =? -1) then
            {| startDot := startDot st1; startPart := startPart st1;
               endPos := endPos st1; matchedSlash := matchedSlash st1;
               preDotState := -1 |}
          else st1 in
        scan rest (i - 1) st2
  end.

(** No extension: no dot, a dot that opens the last component, or a last
    component that is exactly "..". *)
Definition noExtension (st : Scan) : bool :=
  (startDot st =? -1)
  || (preDotState st =? 0)
  || ((preDotState st =? 1)
      && (startDot st =? endPos st - 1)
      && (startDot st =? startPart st + 1)).

Definition extname (path : string) : string :=
  let len := Z.of_nat (String.length path) in
  let st := scan (rev (list_ascii_of_string path)) (len - 1) scanInit in
  if noExtension st || (endPos st =? -1) then ""
  else Js.slice path (startDot st) (endPos st).

(** [path.parse(path).name]. *)
Definition parse_name (path : string) : string :=
  match path with
  | EmptyString => ""
  | String c0 tail =>
      let isAbsolute := Ascii.eqb c0 slash in
      let len := Z.of_nat (String.length path) in
      let cs := rev (list_ascii_of_string (if isAbsolute then tail else path)) in
      let st := scan cs (len - 1) scanInit in
      if endPos st =? -1 then ""
      else
        let start := if (startPart st =? 0) && isAbsolute then 1 else startPart st in
        if noExtension st then Js.slice path start (endPos st)
        else Js.slice path start (startDot st)
  end.

End Path.


(** File names with a stem and an extension: a stem is a non-empty name
    without a separator, an extension a dot followed by at least one
    character that is neither a dot nor a separator. *)
Definition noneOf (cs : list ascii) (s : string) : bool :=
  forallb (fun c => negb (existsb (Ascii.eqb c) cs)) (list_ascii_of_string s).

(** A character that is neither a separator nor a dot. *)
Definition plain (c : ascii) : Prop :=
  Ascii.eqb c Path.slash = false /\ Ascii.eqb c Path.dot = false.

Definition isStem (s : string) : bool :=
  negb (String.eqb s "") && noneOf ["/"%char] s.

Definition isExtension (e : string) : bool :=
  match e with
  | String c e' =>
      Ascii.eqb c "." && negb (String.eqb e' "") && noneOf ["."%char; "/"%char] e'
  | EmptyString => false
  end.


Import Js.

(** ** The script: configuration *)

Definition dquote : string := String (ascii_of_nat 34) "".
Definition newline : string := String (ascii_of_nat 10) "".
Definition carriageReturn : string := String (ascii_of_nat 13) "".

(** The two editions of the script. *)
Inductive Variant := English | Russian.

Record Preset := {
  cli : list string;
  outputExtension : string
}.

(** [PRESETS]: an object literal, kept as the list of its own properties
    in insertion order. *)
Definition PRESETS (v : Variant) : list (string * Preset) :=
  let conv0_5 :=
    ("conv0_5",
     {| cli := ["-vf"; "scale=iw*0.5:ih*0.5"; "-c:v"; "libx264"; "-crf"; "28";
                "-c:a"; "aac"; "-b:a"; "128k"];
        outputExtension := ".mp4" |}) in
  let conv0_25s :=
    ("conv0_25s",
     {| cli := ["-vf"; "scale=iw*0.25:ih*0.25"; "-c:v"; "libxvid"; "-q:v"; "5";
                "-c:a"; "libmp3lame"; "-b:a"; "128k"];
        outputExtension := ".avi" |}) in
  let conv256s :=
    ("conv256s",
     {| cli := ["-vf"; "scale=-2:256"; "-af"; "volume=2.0"; "-c:v"; "libxvid";
                "-q:v"; "5"; "-c:a"; "libmp3lame"; "-b:a"; "192k"];
        outputExtension := ".avi" |}) in
  let web_h264 :=
    ("web_h264",
     {| cli := ["-c:v"; "libx264"; "-crf"; "23"; "-preset"; "medium";
                "-c:a"; "aac"; "-b:a"; "160k"; "-movflags"; "+faststart"];
        outputExtension := ".mp4" |}) in
  let extract_audio :=
    ("extract_audio",
     {| cli := ["-vn"; "-c:a"; "libmp3lame"; "-q:a"; "2"];
        outputExtension := ".mp3" |}) in
  match v with
  | English => [conv0_5; conv0_25s; conv256s; web_h264; extract_audio]
  | Russian => [conv0_5; web_h264; extract_audio]
  end.

Definition VIDEO_EXTENSIONS : list string :=
  [".mp4"; ".mkv"; ".avi"; ".mov"; ".flv"; ".wmv"].

(** The properties every object literal inherits from [Object.prototype];
    each of them holds a function or an object, hence a truthy value. *)
Definition ObjectPrototype : list string :=
  ["constructor"; "__defineGetter__"; "__defineSetter__"; "hasOwnProperty";
   "__lookupGetter__"; "__lookupSetter__"; "isPrototypeOf";
   "propertyIsEnumerable"; "toString"; "valueOf"; "__proto__"; "toLocaleString"].

(** What [PRESETS[presetName]] evaluates to when it is not [undefined]. *)
Inductive Property :=
| Own (p : Preset)
| Inherited (key : string).

(** [PRESETS[presetName]]: an own property first, the prototype next;
    [None] stands for [undefined]. *)
Definition getProperty (o : list (string * Preset)) (key : string) : option Property :=
  match find (fun kv => String.eqb (fst kv) key) o with
  | Some (_, p) => Some (Own p)
  | None =>
      if existsb (String.eqb key) ObjectPrototype then Some (Inherited key)
      else None
  end.

(** [Object.keys(PRESETS)]. *)
Definition Object_keys (o : list (string * Preset)) : list string := map fst o.

(** [preset.cli] and [preset.outputExtension]: the inherited values have
    neither property. *)
Definition preset_cli (p : Property) : option (list string) :=
  match p with
  | Own q => Some (cli q)
  | Inherited _ => None
  end.

Definition preset_outputExtension (p : Property) : JsValue :=
  match p with
  | Own q => JsString (outputExtension q)
  | Inherited _ => JsUndefined
  end.

(** ** The script: the outside world *)

(** What [ffprobe] reports: the container and its streams. *)
Record Stream := {
  codec_type : JsValue;
  codec_name : JsValue;
  bit_rate : JsValue
}.

Record Format := {
  format_size : JsValue;
  format_duration : JsValue
}.

Record Metadata := {
  format : Format;
  streams : list Stream
}.

(** The object [getFileStats] resolves with. *)
Record FileStats := {
  size : JsValue;
  duration : JsValue;
  videoCodec : JsValue;
  videoBitrate : JsValue;
  audioCodec : JsValue;
  audioBitrate : JsValue
}.

(** What one engine run emits before it ends: the start event with the
    command line and the progress events with their [percent] property. *)
Inductive EngineEvent :=
| OnStart (command : string)
| OnProgress (percent : option float).

(** One engine run: the events and the terminal one, [None] for [end] and
    [Some message] for [error]. *)
Record EngineRun := {
  events : list EngineEvent;
  failure : option string
}.

(** A [Date] object, through the two methods the script calls. *)
Record JsDate := {
  getTime : float;
  toISOString : string
}.

(** Everything the script does to the outside world, in order, with the
    answer it received. *)
Inductive Event :=
| NewDate (date : JsDate)
| ConsoleLog (line : string)
| ConsoleError (label err : string)
| StdoutWrite (text : string)
| AppendFile (path data : string) (err : option string)
| Mkdir (path : string) (err : option string)
| Readdir (path : string) (res : string + list string)
| Ffprobe (path : string) (res : string + Metadata)
| Ffmpeg (input : string) (options : option (list string)) (output : string)
         (run : EngineRun).

(** The outside world.  Every answer may depend on all that happened so
    far.  [Math.log] and [Math.pow] are given by the engine only up to an
    implementation-defined approximation, so they are taken from it too. *)
Record Env := {
  Math_log : float -> float;
  Math_pow : float -> float -> float;
  dirname : string;
  loadDate : JsDate;
  Date_now : list Event -> JsDate;
  fs_appendFile : list Event -> string -> string -> option string;
  fs_mkdir : list Event -> string -> option string;
  fs_readdir : list Event -> string -> string + list string;
  ffprobe : list Event -> string -> string + Metadata;
  ffmpeg : list Event -> string -> option (list string) -> string -> EngineRun
}.

(** The script as a computation that reads the history of events so far and
    yields its result together with the events it adds. *)
Definition M (A : Type) : Type := list Event -> A * list Event.

Definition ret {A} (a : A) : M A := fun _ => (a, []).

Definition bind {A B} (m : M A) (f : A -> M B) : M B :=
  fun h =>
    let (a, d1) := m h in
    let (b, d2) := f a (h ++ d1)%list in
    (b, (d1 ++ d2)%list).

Declare Scope script_scope.
Delimit Scope script_scope with script.
Notation "x <- m ;; k" := (bind m (fun x => k))
  (at level 61, m at next level, right associativity) : script_scope.
Notation "m ;; k" := (bind m (fun _ => k))
  (at level 61, right associativity) : script_scope.
Open Scope script_scope.

Definition emit (e : Event) : M unit := fun _ => (tt, [e]).

Definition observe {A} (f : list Event -> A) : M A := fun h => (f h, []).

(** The result of a computation started after [h], and the events it adds. *)
Definition result {A} (m : M A) (h : list Event) : A := fst (m h).
Definition trace {A} (m : M A) (h : list Event) : list Event := snd (m h).

(** ** The script: message texts *)

Module Msg.

Definition pick (v : Variant) (en ru : string) : string :=
  match v with English => en | Russian => ru end.

Definition sessionStart v (presetName : string) :=
  pick v "🚀 Starting conversion session with preset: "
         "🚀 Начинаем сессию конвертации с пресетом: " ++ presetName.

Definition presetNotFound v (presetName : string) :=
  pick v "❌ Error: Preset " "❌ Ошибка: Пресет " ++ dquote ++ presetName ++ dquote
  ++ pick v " not found." " не найден.".

Definition availablePresets v (names : list string) :=
  pick v "Available presets: " "Доступные пресеты: " ++ String.concat ", " names.

Definition directoryError v (message : string) :=
  pick v "❌ Critical error reading/creating directories: "
         "❌ Критическая ошибка чтения/создания папок: " ++ message.

Definition noVideoFiles v :=
  pick v "🟡 No video files found in /input folder."
         "🟡 В папке /input не найдено видеофайлов.".

Definition foundFiles v (n : N) :=
  pick v "Found " "Найдено " ++ decimal (Z.of_N n)
  ++ pick v " video files. Starting sequential processing..."
            " видеофайлов. Начинаем поочередную обработку...".

Definition fileStart v (i n : N) (file : string) :=
  newline ++ "--- [" ++ decimal (Z.of_N i) ++ "/" ++ decimal (Z.of_N n) ++ "] "
  ++ pick v "Starting processing: " "Начинаем обработку: " ++ file ++ " ---".

Definition sourceStats := "  Source Stats:".
Definition targetStats := "  Target Stats:".
Definition fileSize (formatted : string) := "    File Size: " ++ formatted.
Definition video (codec : JsValue) (bitrate : string) :=
  "    Video: " ++ ToString codec ++ " @ " ++ bitrate.
Definition audio (codec : JsValue) (bitrate : string) :=
  "    Audio: " ++ ToString codec ++ " @ " ++ bitrate.

Definition probeError v (file message : string) :=
  pick v "❌ Error getting stats (ffprobe) for "
         "❌ Ошибка получения статистики (ffprobe) для " ++ file ++ ": " ++ message.

Definition skipping v (file : string) :=
  pick v "--- Skipping file: " "--- Пропускаем файл: " ++ file ++ " ---".

Definition startTime (iso : string) := "  Start Time: " ++ iso.
Definition endTime (iso : string) := "  End Time: " ++ iso.
Definition elapsed (seconds : string) := "  Duration: " ++ seconds ++ " seconds".

Definition failed (file message : string) :=
  "  ❌ [" ++ file ++ "]: FAILED. Error: " ++ message.

Definition sizeChange (percent from to : string) :=
  "    Size Change: " ++ percent ++ "% (from " ++ from ++ " to " ++ to ++ ")".

Definition success (file outputName : string) :=
  "  ✅ [" ++ file ++ "]: SUCCESS -> " ++ outputName.

Definition successNoStats v (file message : string) :=
  "  ⚠️ [" ++ file ++ "]: SUCCESS, "
  ++ pick v "but failed to get target stats: "
            "но не удалось получить статистику результата: " ++ message.

Definition finished v (file : string) :=
  pick v "--- Finished: " "--- Завершили: " ++ file ++ " ---".

Definition sessionFinished v :=
  newline ++ pick v "--- 🏁 Conversion session finished ---"
                    "--- 🏁 Сессия конвертации завершена ---".

Definition successful v (n : N) :=
  pick v "Successful: " "Успешно: " ++ decimal (Z.of_N n).

Definition failedOrSkipped v (n : N) :=
  pick v "Failed / Skipped: " "С ошибками / Пропущено: " ++ decimal (Z.of_N n).

Definition logsSavedTo v (logFileName : string) :=
  pick v "All logs saved to: " "Все логи сохранены в: " ++ logFileName.

Definition engineCommand v (file command : string) :=
  "[" ++ file ++ "] " ++ pick v "FFmpeg command: " "FFmpeg команда: " ++ command.

Definition progress (file percent : string) :=
  "[" ++ file ++ "]: ⏳ Processing... " ++ percent ++ "% complete" ++ carriageReturn.

Definition usage v : list string :=
  [pick v "Please provide a preset name." "Пожалуйста, укажите имя пресета.";
   pick v "Usage: node convert.js web_h264" "Пример: node convert.js web_h264"].

Definition usagePresets v (names : list string) :=
  pick v "Available presets:" "Доступные пресеты:" ++ " " ++ String.concat ", " names.

End Msg.

(** ** The script: functions *)

Section Script.

Variable E : Env.
Variable v : Variant.

Definition inputDir : string := Path.join (dirname E) "input".
Definition outputDir : string := Path.join (dirname E) "output".

Definition replaceAll (from to : ascii) (s : string) : string :=
  string_of_list_ascii
    (map (fun c => if Ascii.eqb c from then to else c) (list_ascii_of_string s)).

(** [now.toISOString().split('T')[0].replace(/-/g, '_')] *)
Definition dateStr : string :=
  replaceAll "-" "_" (hd "" (Path.splitOn "T" (toISOString (loadDate E)))).

Definition logFileName : string :=
  Path.join (dirname E) ("process_" ++ dateStr ++ ".log").

(** [new Date()] *)
Definition newDate : M JsDate :=
  date <- observe (Date_now E) ;;
  emit (NewDate date) ;;
  ret date.

(** [logInfo]: the console first, the log file next; a failed append is
    reported on the error channel and goes no further. *)
Definition logInfo (message : string) : M unit :=
  now <- newDate ;;
  let logMessage := toISOString now ++ ": " ++ message ++ newline in
  emit (ConsoleLog message) ;;
  r <- observe (fun h => fs_appendFile E h logFileName logMessage) ;;
  emit (AppendFile logFileName logMessage r) ;;
  match r with
  | Some err => emit (ConsoleError "CRITICAL: Failed to write to log file:" err)
  | None => ret tt
  end.

Definition strictEqString (x : JsValue) (s : string) : bool :=
  match x with
  | JsString t => String.eqb t s
  | _ => false
  end.

Definition strictEqNumber (x : JsValue) (n : float) : bool :=
  match x with
  | JsNumber y => PrimFloat.eqb y n
  | _ => false
  end.

(** [a || b] on values. *)
Definition orElse (a b : JsValue) : JsValue := if ToBoolean a then a else b.

(** The object [getFileStats] resolves with, from the probe's answer. *)
Definition statsOf (metadata : Metadata) : FileStats :=
  let videoStream := find (fun s => strictEqString (codec_type s) "video") (streams metadata) in
  let audioStream := find (fun s => strictEqString (codec_type s) "audio") (streams metadata) in
  {| size := format_size (format metadata);
     duration := format_duration (format metadata);
     videoCodec := match videoStream with
                   | Some s => codec_name s
                   | None => JsString "N/A"
                   end;
     videoBitrate := match videoStream with
                     | Some s => orElse (bit_rate s) (JsString "N/A")
                     | None => JsString "N/A"
                     end;
     audioCodec := match audioStream with
                   | Some s => codec_name s
                   | None => JsString "N/A"
                   end;
     audioBitrate := match audioStream with
                     | Some s => orElse (bit_rate s) (JsString "N/A")
                     | None => JsString "N/A"
                     end |}.

(** [getFileStats]: [inl message] when the promise is rejected. *)
Definition getFileStats (filePath : string) : M (string + FileStats) :=
  r <- observe (fun h => ffprobe E h filePath) ;;
  emit (Ffprobe filePath r) ;;
  match r with
  | inl message => ret (inl ("ffprobe error for " ++ filePath ++ ": " ++ message))
  | inr metadata => ret (inr (statsOf metadata))
  end.

(** [sizes[i]] for a number [i]: the element under the key [String(i)]. *)
Definition arrayGet (a : list string) (i : float) : JsValue :=
  let key := NumberToString i in
  match find (fun p => String.eqb (decimal (Z.of_nat (fst p))) key)
             (combine (seq 0 (List.length a)) a) with
  | Some (_, s) => JsString s
  | None => JsUndefined
  end.

Definition formatBytes (bytes : JsValue) : string :=
  if strictEqNumber bytes 0 || negb (ToBoolean bytes) then "0 Bytes"
  else
    let k := 1024%float in
    let sizes := ["Bytes"; "KB"; "MB"; "GB"; "TB"] in
    let i := Math_floor (Math_log E (ToNumber bytes) / Math_log E k)%float in
    NumberToString (parseFloat (toFixed (ToNumber bytes / Math_pow E k i)%float 2))
    ++ " " ++ ToString (arrayGet sizes i).

Definition formatBitrate (bitrate : JsValue) : string :=
  if negb (ToBoolean bitrate) || strictEqString bitrate "N/A" || isNaN bitrate
  then "N/A"
  else toFixed (parseInt bitrate / 1000)%float 0 ++ " kb/s".

(** [((targetStats.size - sourceStats.size) / sourceStats.size) * 100] *)
Definition sizeChange (sourceStats targetStats : FileStats) : float :=
  ((ToNumber (size targetStats) - ToNumber (size sourceStats))
   / ToNumber (size sourceStats) * 100)%float.

(** The handlers of the [start] and [progress] events. *)
Definition onEvent (file : string) (e : EngineEvent) : M unit :=
  match e with
  | OnStart command => emit (ConsoleLog (Msg.engineCommand v file command))
  | OnProgress percent =>
      match percent with
      | Some p =>
          if ToBoolean (JsNumber p)
          then emit (StdoutWrite (Msg.progress file (toFixed p 2)))
          else ret tt
      | None => ret tt
      end
  end.

Fixpoint onEvents (file : string) (es : list EngineEvent) : M unit :=
  match es with
  | [] => ret tt
  | e :: es' => onEvent file e ;; onEvents file es'
  end.

(** The promise around one engine run; the result is [conversionError]. *)
Definition convert (file inputPath : string) (options : option (list string))
    (outputPath : string) : M (option string) :=
  run <- observe (fun h => ffmpeg E h inputPath options outputPath) ;;
  emit (Ffmpeg inputPath options outputPath run) ;;
  onEvents file (events run) ;;
  emit (StdoutWrite newline) ;;
  ret (failure run).

Definition logStats (stats : FileStats) : M unit :=
  logInfo (Msg.fileSize (formatBytes (size stats))) ;;
  logInfo (Msg.video (videoCodec stats) (formatBitrate (videoBitrate stats))) ;;
  logInfo (Msg.audio (audioCodec stats) (formatBitrate (audioBitrate stats))).

(** [outputName] of the loop body. *)
Definition outputName (preset : Property) (file : string) : string :=
  Path.parse_name file ++ ToString (preset_outputExtension preset).

(** One turn of the loop, from the counters before it to the counters
    after it. *)
Definition processFile (preset : Property) (total i : N) (file : string)
    (counts : N * N) : M (N * N) :=
  let '(successCount, failedCount) := counts in
  let inputPath := Path.join inputDir file in
  let outputPath := Path.join outputDir (outputName preset file) in
  logInfo (Msg.fileStart v (i + 1) total file) ;;
  source <- getFileStats inputPath ;;
  match source with
  | inl message =>
      logInfo (Msg.probeError v file message) ;;
      logInfo (Msg.skipping v file) ;;
      ret (successCount, (failedCount + 1)%N)
  | inr sourceStats =>
      logInfo Msg.sourceStats ;;
      logStats sourceStats ;;
      startTime <- newDate ;;
      logInfo (Msg.startTime (toISOString startTime)) ;;
      conversionError <- convert file inputPath (preset_cli preset) outputPath ;;
      endTime <- newDate ;;
      let durationMs := (getTime endTime - getTime startTime)%float in
      logInfo (Msg.endTime (toISOString endTime)) ;;
      logInfo (Msg.elapsed (toFixed (durationMs / 1000)%float 2)) ;;
      counts' <-
        match conversionError with
        | Some message =>
            logInfo (Msg.failed file message) ;;
            ret (successCount, (failedCount + 1)%N)
        | None =>
            target <- getFileStats outputPath ;;
            match target with
            | inr targetStats =>
                logInfo Msg.targetStats ;;
                logStats targetStats ;;
                logInfo (Msg.sizeChange (toFixed (sizeChange sourceStats targetStats) 2)
                           (formatBytes (size sourceStats))
                           (formatBytes (size targetStats))) ;;
                logInfo (Msg.success file (outputName preset file)) ;;
                ret ((successCount + 1)%N, failedCount)
            | inl message =>
                logInfo (Msg.successNoStats v file message) ;;
                ret ((successCount + 1)%N, failedCount)
            end
        end ;;
      logInfo (Msg.finished v file) ;;
      ret counts'
  end.

(** The loop [for (let i = 0; i < videoFiles.length; i++)], from index [i]
    on, over the files that remain. *)
Fixpoint processFiles (preset : Property) (total i : N) (files : list string)
    (counts : N * N) : M (N * N) :=
  match files with
  | [] => ret counts
  | file :: rest =>
      counts' <- processFile preset total i file counts ;;
      processFiles preset total (i + 1)%N rest counts'
  end.

(** [VIDEO_EXTENSIONS.includes(path.extname(file).toLowerCase())] *)
Definition isVideoFile (file : string) : bool :=
  existsb (String.eqb (toLowerCase (Path.extname file))) VIDEO_EXTENSIONS.

Definition mkdir (path : string) : M (option string) :=
  r <- observe (fun h => fs_mkdir E h path) ;;
  emit (Mkdir path r) ;;
  ret r.

Definition readdir (path : string) : M (string + list string) :=
  r <- observe (fun h => fs_readdir E h path) ;;
  emit (Readdir path r) ;;
  ret r.

(** The [try] block around the two [mkdir] calls and [readdir]. *)
Definition listInput : M (string + list string) :=
  r1 <- mkdir inputDir ;;
  match r1 with
  | Some message => ret (inl message)
  | None =>
      r2 <- mkdir outputDir ;;
      match r2 with
      | Some message => ret (inl message)
      | None => readdir inputDir
      end
  end.

(** The summary at the end of a session. *)
Definition logSummary (counts : N * N) : M unit :=
  logInfo (Msg.sessionFinished v) ;;
  logInfo (Msg.successful v (fst counts)) ;;
  logInfo (Msg.failedOrSkipped v (snd counts)) ;;
  logInfo (Msg.logsSavedTo v logFileName).

Definition convertVideos (presetName : string) : M unit :=
  logInfo (Msg.sessionStart v presetName) ;;
  match getProperty (PRESETS v) presetName with
  | None =>
      logInfo (Msg.presetNotFound v presetName) ;;
      logInfo (Msg.availablePresets v (Object_keys (PRESETS v)))
  | Some preset =>
      listing <- listInput ;;
      match listing with
      | inl message => logInfo (Msg.directoryError v message)
      | inr files =>
          let videoFiles := filter isVideoFile files in
          let total := N.of_nat (List.length videoFiles) in
          if (total =? 0)%N then logInfo (Msg.noVideoFiles v)
          else
            logInfo (Msg.foundFiles v total) ;;
            counts <- processFiles preset total 0 videoFiles (0%N, 0%N) ;;
            logSummary counts
      end
  end.

(** The entry point: [process.argv[2]] is absent, or a string. *)
Definition main (argv2 : option string) : M unit :=
  match argv2 with
  | Some (String c s) => convertVideos (String c s)
  | _ =>
      emit (ConsoleLog (nth 0 (Msg.usage v) "")) ;;
      emit (ConsoleLog (nth 1 (Msg.usage v) "")) ;;
      emit (ConsoleLog (Msg.usagePresets v (Object_keys (PRESETS v))))
  end.

End Script.

(** ** A reference world

    A concrete world to run the script in: a logarithm and a power that
    are accurate where the script uses them, a clock that stands still, a
    file system and an engine given as tables. *)

Module Reference.

Definition ofInteger (n : Z) : float := ofRatio (n <? 0) (Z.abs n) 1.

Fixpoint atanhSeries (j : nat) (t2 acc : float) : float :=
  match j with
  | O => acc
  | S j' => atanhSeries j' t2 (1 / ofInteger (2 * Z.of_nat j' + 1) + t2 * acc)%float
  end.

(** The natural logarithm: the binary exponent times [ln 2], plus twice the
    inverse hyperbolic tangent series of the reduced mantissa. *)
Definition log (x : float) : float :=
  match Prim2SF x with
  | S754_nan => nan
  | S754_zero _ => neg_infinity
  | S754_infinity s => if s then nan else infinity
  | S754_finite true _ _ => nan
  | S754_finite false m e =>
      let d := Z.log2 (Zpos m) + 1 in
      let f := ofRatio false (Zpos m) (2 ^ d) in
      let '(f', ex) :=
        if (f <? 0x1.6a09e667f3bcdp-1)%float then ((2 * f)%float, e + d - 1)
        else (f, e + d) in
      let t := ((f' - 1) / (f' + 1))%float in
      (ofInteger ex * 0x1.62e42fefa39efp-1
       + 2 * t * atanhSeries 24 (t * t) (1 / ofInteger 49))%float
  end.

Fixpoint powPos (b : float) (n : positive) : float :=
  match n with
  | xH => b
  | xO n' => let y := powPos b n' in (y * y)%float
  | xI n' => let y := powPos b n' in (b * (y * y))%float
  end.

(** The power for the exponents the script passes: whole numbers, NaN and
    the infinities. *)
Definition pow (b e : float) : float :=
  match Prim2SF e with
  | S754_nan => nan
  | S754_zero _ => 1%float
  | S754_infinity s =>
      if (1 <? abs b)%float then (if s then 0%float else infinity)
      else if (abs b <? 1)%float then (if s then infinity else 0%float)
      else nan
  | S754_finite s m x =>
      if PrimFloat.eqb (Math_floor e) e then
        let n := Z.to_pos (fst (ratioOf m x) / snd (ratioOf m x)) in
        if s then powPos (1 / b)%float n else powPos b n
      else nan
  end.

Definition date : JsDate :=
  {| getTime := 1767225600000%float; toISOString := "2026-01-01T00:00:00.000Z" |}.

Definition env (files : string + list string)
    (probe : string -> string + Metadata) (engine : string -> EngineRun) : Env :=
  {| Math_log := log;
     Math_pow := pow;
     dirname := "/app";
     loadDate := date;
     Date_now := fun _ => date;
     fs_appendFile := fun _ _ _ => None;
     fs_mkdir := fun _ _ => None;
     fs_readdir := fun _ _ => files;
     ffprobe := fun _ path => probe path;
     ffmpeg := fun _ input _ _ => engine input |}.

Definition media (bytes : float) : Metadata :=
  {| format := {| format_size := JsNumber bytes; format_duration := JsNumber 60 |};
     streams := [ {| codec_type := JsString "video"; codec_name := JsString "h264";
                     bit_rate := JsNumber 2500000 |};
                  {| codec_type := JsString "audio"; codec_name := JsString "aac";
                     bit_rate := JsNumber 128000 |} ] |}.

Definition engineOk : EngineRun :=
  {| events := [OnStart "ffmpeg -i in out"; OnProgress (Some 50%float);
                OnProgress None];
     failure := None |}.

Definition engineFails : EngineRun :=
  {| events := []; failure := Some "ffmpeg exited with code 1" |}.


(** A probe given as a table from paths to answers. *)
Definition probeOf (table : list (string * Metadata)) (path : string)
  : string + Metadata :=
  match find (fun entry => String.eqb (fst entry) path) table with
  | Some (_, metadata) => inr metadata
  | None => inl "No such file or directory"
  end.

(** Nothing to do: an empty input directory. *)
Definition idle : Env := env (inr []) (probeOf []) (fun _ => engineFails).

(** The scenario of the specification: one clip of 5,000,000 bytes next
    to a text file. *)
Definition clipAndNotes : Env :=
  env (inr ["clip.mp4"; "notes.txt"])
      (probeOf [("/app/input/clip.mp4", media 5000000);
                ("/app/output/clip.mp3", media 500000)])
      (fun _ => engineOk).

(** A clip whose probe reports a size of zero bytes. *)
Definition zeroSource : Env :=
  env (inr ["clip.mp4"])
      (probeOf [("/app/input/clip.mp4", media 0);
                ("/app/output/clip.mp4", media 500000)])
      (fun _ => engineOk).

(** No video among the entries. *)
Definition noVideo : Env :=
  env (inr ["notes.txt"; "cover.jpg"]) (probeOf []) (fun _ => engineOk).

(** The engine converts, the result cannot be probed. *)
Definition targetUnreadable : Env :=
  env (inr ["clip.mp4"])
      (probeOf [("/app/input/clip.mp4", media 5000000)])
      (fun _ => engineOk).

(** The first file cannot be probed, the second converts, the engine fails
    on the third. *)
Definition mixed : Env :=
  env (inr ["bad.mkv"; "clip.mp4"; "old.avi"])
      (probeOf [("/app/input/clip.mp4", media 5000000);
                ("/app/output/clip.mp4", media 2500000);
                ("/app/input/old.avi", media 1536)])
      (fun input => if String.eqb input "/app/input/old.avi" then engineFails
                    else engineOk).

(** Two probes' answers: a video stream without a bit rate, and no video
    stream at all. *)
Definition videoWithoutBitrate : Metadata :=
  {| format := {| format_size := JsNumber 1536; format_duration := JsNumber 60 |};
     streams := [ {| codec_type := JsString "video"; codec_name := JsString "h264";
                     bit_rate := JsUndefined |} ] |}.

Definition audioOnly : Metadata :=
  {| format := {| format_size := JsNumber 1536; format_duration := JsNumber 60 |};
     streams := [ {| codec_type := JsString "audio"; codec_name := JsString "mp3";
                     bit_rate := JsNumber 128000 |} ] |}.

End Reference.

(** ** What a run shows *)

Definition consoleLines (h : list Event) : list string :=
  flat_map (fun e => match e with ConsoleLog l => [l] | _ => [] end) h.

Definition fileLines (h : list Event) : list string :=
  flat_map (fun e => match e with AppendFile _ d None => [d] | _ => [] end) h.

Definition isDirectoryEvent (e : Event) : bool :=
  match e with Mkdir _ _ | Readdir _ _ => true | _ => false end.

Definition isJobEvent (e : Event) : bool :=
  match e with Ffprobe _ _ | Ffmpeg _ _ _ _ => true | _ => false end.

(** The calls to the file system, and the calls to the engine (probes and
    conversions), in order and with their answers. *)
Definition directoryEvents (h : list Event) : list Event := filter isDirectoryEvent h.
Definition jobEvents (h : list Event) : list Event := filter isJobEvent h.

(** [occurs sub s]: the text [sub] is part of the text [s]. *)
Definition occurs (sub s : string) : bool :=
  match String.index 0 sub s with
  | Some _ => true
  | None => false
  end.

Section Reports.

Variable E : Env.
Variable v : Variant.

(** The console lines of the three [logInfo] calls that follow a probe. *)
Definition statsLines (stats : FileStats) : list string :=
  [Msg.fileSize (formatBytes E (size stats));
   Msg.video (videoCodec stats) (formatBitrate (videoBitrate stats));
   Msg.audio (audioCodec stats) (formatBitrate (audioBitrate stats))].

(** The console lines of the [start] handler during one engine run. *)
Definition engineConsole (file : string) (run : EngineRun) : list string :=
  flat_map (fun e => match e with
                     | OnStart command => [Msg.engineCommand v file command]
                     | OnProgress _ => []
                     end) (events run).

Section Job.

Variable preset : Property.
Variables total i : N.
Variable file : string.
Variables successCount failedCount : N.

Let inputPath := Path.join (inputDir E) file.
Let outputPath := Path.join (outputDir E) (outputName preset file).

(** The console lines of one turn from its first line to the line with the
    elapsed time. *)
Definition conversionLines (sourceStats : FileStats) (startTime endTime : JsDate)
    (run : EngineRun) : list string :=
  ([Msg.fileStart v (i + 1) total file; Msg.sourceStats]
   ++ statsLines sourceStats
   ++ [Msg.startTime (toISOString startTime)]
   ++ engineConsole file run
   ++ [Msg.endTime (toISOString endTime);
       Msg.elapsed (toFixed ((getTime endTime - getTime startTime) / 1000)%float 2)])%list.

(** The four ways one turn of the loop can go: the counters after it, its
    calls to the engine and its console lines. *)
Inductive JobReport : N * N -> list Event -> list string -> Prop :=
| JobSkipped message :
    JobReport (successCount, (failedCount + 1)%N)
      [Ffprobe inputPath (inl message)]
      [Msg.fileStart v (i + 1) total file;
       Msg.probeError v file ("ffprobe error for " ++ inputPath ++ ": " ++ message);
       Msg.skipping v file]
| JobFailed metadata startTime endTime run message :
    failure run = Some message ->
    JobReport (successCount, (failedCount + 1)%N)
      [Ffprobe inputPath (inr metadata);
       Ffmpeg inputPath (preset_cli preset) outputPath run]
      (conversionLines (statsOf metadata) startTime endTime run
       ++ [Msg.failed file message; Msg.finished v file])
| JobConvertedNoStats metadata startTime endTime run message :
    failure run = None ->
    JobReport ((successCount + 1)%N, failedCount)
      [Ffprobe inputPath (inr metadata);
       Ffmpeg inputPath (preset_cli preset) outputPath run;
       Ffprobe outputPath (inl message)]
      (conversionLines (statsOf metadata) startTime endTime run
       ++ [Msg.successNoStats v file
             ("ffprobe error for " ++ outputPath ++ ": " ++ message);
           Msg.finished v file])
| JobConverted metadata startTime endTime run metadata' :
    failure run = None ->
    JobReport ((successCount + 1)%N, failedCount)
      [Ffprobe inputPath (inr metadata);
       Ffmpeg inputPath (preset_cli preset) outputPath run;
       Ffprobe outputPath (inr metadata')]
      (conversionLines (statsOf metadata) startTime endTime run
       ++ [Msg.targetStats] ++ statsLines (statsOf metadata')
       ++ [Msg.sizeChange
             (toFixed (sizeChange (statsOf metadata) (statsOf metadata')) 2)
             (formatBytes E (size (statsOf metadata)))
             (formatBytes E (size (statsOf metadata')));
           Msg.success file (outputName preset file);
           Msg.finished v file]).

End Job.

(** What [listInput] leaves behind: its result and the directory events up
    to the first failure. *)
Inductive ListReport : string + list string -> list Event -> Prop :=
| ListInputFailed message :
    ListReport (inl message) [Mkdir (inputDir E) (Some message)]
| ListOutputFailed message :
    ListReport (inl message)
      [Mkdir (inputDir E) None; Mkdir (outputDir E) (Some message)]
| ListReaddirFailed message :
    ListReport (inl message)
      [Mkdir (inputDir E) None; Mkdir (outputDir E) None;
       Readdir (inputDir E) (inl message)]
| ListRead files :
    ListReport (inr files)
      [Mkdir (inputDir E) None; Mkdir (outputDir E) None;
       Readdir (inputDir E) (inr files)].

(** The four ways a session can go: its directory events, its calls to the
    engine and its console lines. *)
Inductive RunReport (presetName : string)
  : list Event -> list Event -> list string -> Prop :=
| RunUnknownPreset :
    getProperty (PRESETS v) presetName = None ->
    RunReport presetName [] []
      [Msg.sessionStart v presetName; Msg.presetNotFound v presetName;
       Msg.availablePresets v (Object_keys (PRESETS v))]
| RunDirectoryError preset dirs message :
    getProperty (PRESETS v) presetName = Some preset ->
    (forall p files, ~ In (Readdir p (inr files)) dirs) ->
    RunReport presetName dirs []
      [Msg.sessionStart v presetName; Msg.directoryError v message]
| RunNoVideoFiles preset files :
    getProperty (PRESETS v) presetName = Some preset ->
    filter isVideoFile files = [] ->
    RunReport presetName
      [Mkdir (inputDir E) None; Mkdir (outputDir E) None;
       Readdir (inputDir E) (inr files)] []
      [Msg.sessionStart v presetName; Msg.noVideoFiles v]
| RunProcessed preset files jobs lines successCount failedCount :
    getProperty (PRESETS v) presetName = Some preset ->
    filter isVideoFile files <> [] ->
    (successCount + failedCount
     = N.of_nat (List.length (filter isVideoFile files)))%N ->
    (forall k file,
        nth_error (filter isVideoFile files) k = Some file ->
        In (Msg.fileStart v (N.of_nat k + 1)
              (N.of_nat (List.length (filter isVideoFile files))) file) lines) ->
    RunReport presetName
      [Mkdir (inputDir E) None; Mkdir (outputDir E) None;
       Readdir (inputDir E) (inr files)] jobs
      ([Msg.sessionStart v presetName;
        Msg.foundFiles v (N.of_nat (List.length (filter isVideoFile files)))]
       ++ lines
       ++ [Msg.sessionFinished v; Msg.successful v successCount;
           Msg.failedOrSkipped v failedCount; Msg.logsSavedTo v (logFileName E)]).

End Reports.

(** ** Further observations *)

(** A property of traces that holds of the empty trace and of the
    concatenation of two traces that have it. *)
Definition additive (Q : list Event -> Prop) : Prop :=
  Q [] /\ forall a b, Q a -> Q b -> Q (a ++ b)%list.

(** [holds Q m]: whatever happened before, the events [m] adds have [Q]. *)
Definition holds (Q : list Event -> Prop) {A} (m : M A) : Prop :=
  forall h, Q (trace m h).

(** The report of a failed append. *)
Definition reportOf (r : option string) : list Event :=
  match r with
  | Some err => [ConsoleError "CRITICAL: Failed to write to log file:" err]
  | None => []
  end.

Definition isLogEvent (e : Event) : bool :=
  match e with
  | ConsoleLog _ | AppendFile _ _ _ | ConsoleError _ _ => true
  | _ => false
  end.

(** The discipline of the log: an entry is the date just taken, the line on
    the console, the same line with its time stamp appended to the one log
    file and, if the append failed, its report; the only other lines on the
    console are the echoed engine commands; nothing else writes. *)
Inductive Logged (E : Env) (v : Variant) : list Event -> Prop :=
| LoggedNil : Logged E v []
| LoggedEntry date message r rest :
    Logged E v rest ->
    Logged E v
      (NewDate date :: ConsoleLog message
       :: AppendFile (logFileName E)
            (toISOString date ++ ": " ++ message ++ newline) r
       :: reportOf r ++ rest)%list
| LoggedCommand file command rest :
    Logged E v rest ->
    Logged E v (ConsoleLog (Msg.engineCommand v file command) :: rest)
| LoggedOther e rest :
    isLogEvent e = false -> Logged E v rest -> Logged E v (e :: rest).

(** The errors of the appends that failed, and what reached the error
    channel. *)
Definition appendFailures (h : list Event) : list string :=
  flat_map (fun e => match e with AppendFile _ _ (Some err) => [err] | _ => [] end) h.

Definition consoleErrors (h : list Event) : list (string * string) :=
  flat_map (fun e => match e with ConsoleError label err => [(label, err)] | _ => [] end) h.

Definition appendEvents (h : list Event) : list Event :=
  filter (fun e => match e with AppendFile _ _ _ => true | _ => false end) h.

(** The engine runs that ended without an error. *)
Definition successfulRuns (h : list Event) : N :=
  N.of_nat (List.length
    (filter (fun e => match e with
                      | Ffmpeg _ _ _ run =>
                          match failure run with None => true | Some _ => false end
                      | _ => false
                      end) h)).

(** The calls to the engine that one file gives rise to: its probe alone
    when the probe fails; its probe and its conversion when the conversion
    fails; its probe, its conversion and the probe of the result. *)
Definition JobBlock (E : Env) (preset : Property) (file : string)
    (block : list Event) : Prop :=
  let inputPath := Path.join (inputDir E) file in
  let outputPath := Path.join (outputDir E) (outputName preset file) in
  (exists message, block = [Ffprobe inputPath (inl message)])
  \/ (exists metadata run message,
         failure run = Some message
         /\ block = [Ffprobe inputPath (inr metadata);
                     Ffmpeg inputPath (preset_cli preset) outputPath run])
  \/ (exists metadata run r,
         failure run = None
         /\ block = [Ffprobe inputPath (inr metadata);
                     Ffmpeg inputPath (preset_cli preset) outputPath run;
                     Ffprobe outputPath r]).

(** The loop, turn after turn: the counters before and after, the calls
    to the engine and the console lines, which are those of the first file
    followed by those of the files that remain. *)
Inductive LoopReport (E : Env) (v : Variant) (preset : Property) (total : N)
  : N -> list string -> N * N -> N * N -> list Event -> list string -> Prop :=
| LoopDone i counts : LoopReport E v preset total i [] counts counts [] []
| LoopTurn i file rest s f counts' counts'' block lines blocks lines' :
    JobReport E v preset total i file s f counts' block lines ->
    LoopReport E v preset total (i + 1) rest counts' counts'' blocks lines' ->
    LoopReport E v preset total i (file :: rest) (s, f) counts''
      (block ++ blocks)%list (lines ++ lines')%list.

(** The error of a call to the file system that failed. *)
Definition failureOf (e : Event) : option string :=
  match e with
  | Mkdir _ (Some message) => Some message
  | Readdir _ (inl message) => Some message
  | _ => None
  end.

(** What one event of a job is about: the probe of the source, the
    conversion with the options of the preset, the probe of the result. *)
Definition JobEventOf (E : Env) (preset : Property) (file : string) (e : Event) : Prop :=
  let inputPath := Path.join (inputDir E) file in
  let outputPath := Path.join (outputDir E) (outputName preset file) in
  (exists r, e = Ffprobe inputPath r)
  \/ (exists run, e = Ffmpeg inputPath (preset_cli preset) outputPath run)
  \/ (exists r, e = Ffprobe outputPath r).

(** Two more worlds: one in which the output directory cannot be created,
    and one in which the log file cannot be written. *)
Definition outputDenied : Env :=
  {| Math_log := Reference.log;
     Math_pow := Reference.pow;
     dirname := "/app";
     loadDate := Reference.date;
     Date_now := fun _ => Reference.date;
     fs_appendFile := fun _ _ _ => None;
     fs_mkdir := fun _ path =>
       if String.eqb path "/app/output" then Some "EACCES: permission denied" else None;
     fs_readdir := fun _ _ => inr ["clip.mp4"];
     ffprobe := fun _ _ => inr (Reference.media 5000000);
     ffmpeg := fun _ _ _ _ => Reference.engineOk |}.

Definition logDenied : Env :=
  {| Math_log := Reference.log;
     Math_pow := Reference.pow;
     dirname := "/app";
     loadDate := Reference.date;
     Date_now := fun _ => Reference.date;
     fs_appendFile := fun _ _ _ => Some "EROFS: read-only file system";
     fs_mkdir := fun _ _ => None;
     fs_readdir := fun _ _ => inr ["clip.mp4"];
     ffprobe := fun _ _ => inr (Reference.media 5000000);
     ffmpeg := fun _ _ _ _ => Reference.engineOk |}.

(** ** The earlier edition: every conversion at once

    The second script of [convert.js] has no log file and no probe: it
    starts one engine process for every video, one after the other and
    without waiting, and then waits for all of them with
    [Promise.allSettled].  What the processes tell reaches the script in an
    order that the script does not decide: the world gives it. *)

Module Concurrent.

(** What the script hears from a process: the events of the run, then
    [end] or [error]. *)
Inductive Notification :=
| Start (command : string)
| Progress
| End
| Error (message : string).

(** The effects of the script, and what it hears, in order.  The console
    calls keep their arguments apart. *)
Inductive Event :=
| ConsoleLog (args : list string)
| ConsoleError (args : list string)
| ConsoleWarn (args : list string)
| Mkdir (path : string) (err : option string)
| Readdir (path : string) (res : string + list string)
| Run (input : string) (options : option (list string)) (output : string)
| Heard (index : nat) (n : Notification).

(** The outside world: the file system as before; what the process of
    index [i] will tell, once all are started; and the order in which the
    processes are heard, as the list of the indices of the processes that
    speak next. *)
Record World := {
  dirname : string;
  fs_mkdir : list Event -> string -> option string;
  fs_readdir : list Event -> string -> string + list string;
  engine : list Event -> nat -> EngineRun;
  arrival : list Event -> list nat
}.

Definition PRESETS : list (string * Preset) :=
  [("conv0_5",
    {| cli := ["-vf"; "scale=iw*0.5:ih*0.5"; "-c:v"; "libx264"; "-crf"; "28";
               "-c:a"; "aac"; "-b:a"; "128k"];
       outputExtension := ".mp4" |});
   ("web_h264",
    {| cli := ["-c:v"; "libx264"; "-crf"; "23"; "-preset"; "medium";
               "-c:a"; "aac"; "-b:a"; "160k"; "-movflags"; "+faststart"];
       outputExtension := ".mp4" |});
   ("extract_audio",
    {| cli := ["-vn"; "-c:a"; "libmp3lame"; "-q:a"; "2"];
       outputExtension := ".mp3" |})].

Module Msg.

Definition sessionStart (presetName : string) :=
  "🚀 Начинаем конвертацию с пресетом: " ++ presetName.
Definition presetNotFound (presetName : string) :=
  "❌ Ошибка: Пресет " ++ dquote ++ presetName ++ dquote ++ " не найден.".
Definition availablePresets := "Доступные пресеты:".
Definition noVideoFiles := "🟡 В папке /input не найдено видеофайлов.".
Definition foundFiles (n : nat) :=
  "Найдено " ++ decimal (Z.of_nat n) ++ " видеофайлов. Начинаем обработку...".
Definition started (file : string) := "[" ++ file ++ "]: Начата обработка...".
Definition converted (file outputName : string) :=
  "[" ++ file ++ "]: ✅ Конвертация успешно завершена -> " ++ outputName.
Definition failed (file message : string) :=
  "[" ++ file ++ "]: ❌ Ошибка: " ++ message.
Definition sessionFinished := newline ++ "--- 🏁 Конвертация завершена ---".
Definition successful (n : nat) := "Успешно: " ++ decimal (Z.of_nat n).
Definition withErrors (n : nat) := "С ошибками: " ++ decimal (Z.of_nat n).
Definition criticalError := "❌ Произошла критическая ошибка:".
Definition usage : list string :=
  ["Пожалуйста, укажите имя пресета."; "Пример: node convert.js web_h264"].

End Msg.

Section Script.

Variable W : World.

Definition inputDir : string := Path.join (dirname W) "input".
Definition outputDir : string := Path.join (dirname W) "output".

(** What the process of a run tells, in order. *)
Definition queueOf (run : EngineRun) : list Notification :=
  (map (fun e => match e with
                 | OnStart command => Start command
                 | OnProgress _ => Progress
                 end) (events run)
   ++ [match failure run with
       | None => End
       | Some message => Error message
       end])%list.

Fixpoint setNth {A} (k : nat) (x : A) (l : list A) : list A :=
  match l, k with
  | [], _ => []
  | _ :: l', O => x :: l'
  | y :: l', S k' => y :: setNth k' x l'
  end.

(** What is left to hear when nobody was named: process after process. *)
Definition drain (queues : list (list Notification)) : list (nat * Notification) :=
  List.concat
    (map (fun iq => map (pair (fst iq)) (snd iq))
         (combine (seq 0 (List.length queues)) queues)).

(** The notifications in the order of their arrival: the process named
    next speaks, if it has something left to tell. *)
Fixpoint deliver (order : list nat) (queues : list (list Notification))
  : list (nat * Notification) :=
  match order with
  | [] => drain queues
  | k :: order' =>
      match nth_error queues k with
      | Some (n :: q) => (k, n) :: deliver order' (setNth k q queues)
      | _ => deliver order' queues
      end
  end.

(** The three handlers; there is none for [progress]. *)
Definition onNotification (file outputName : string) (n : Notification) : list Event :=
  match n with
  | Start _ => [ConsoleLog [Msg.started file]]
  | Progress => []
  | End => [ConsoleLog [Msg.converted file outputName]]
  | Error message => [ConsoleError [Msg.failed file message]]
  end.

Definition hear (preset : Property) (videoFiles : list string)
    (a : nat * Notification) : list Event :=
  Heard (fst a) (snd a)
  :: match nth_error videoFiles (fst a) with
     | Some file => onNotification file (outputName preset file) (snd a)
     | None => []
     end.

(** The state of a promise: [end] resolves it, [error] rejects it, and the
    first of the two settles it. *)
Inductive Status := fulfilled | rejected.

Definition statusOf (n : Notification) : option Status :=
  match n with
  | End => Some fulfilled
  | Error _ => Some rejected
  | _ => None
  end.

Definition settled (heard : list (nat * Notification)) (i : nat) : option Status :=
  hd_error
    (flat_map (fun a => if Nat.eqb (fst a) i
                        then match statusOf (snd a) with
                             | Some s => [s]
                             | None => []
                             end
                        else []) heard).

Definition isFulfilled (r : option Status) : bool :=
  match r with Some fulfilled => true | _ => false end.

Definition isSettled (r : option Status) : bool :=
  match r with Some _ => true | None => false end.

(** [ffmpeg(inputPath).addOutputOptions(preset.cli).output(outputPath)
    ... .run()] *)
Definition launch (preset : Property) (file : string) : Event :=
  Run (Path.join inputDir file) (preset_cli preset)
      (Path.join outputDir (outputName preset file)).

Definition critical (message : string) : Event :=
  ConsoleError [Msg.criticalError; message].

(** The events of a session.  The summary is printed when every promise is
    settled; [Promise.allSettled] keeps the order of the promises, whatever
    the order in which they were settled. *)
Definition convertVideos (presetName : string) : list Event :=
  let h0 := [ConsoleLog [Msg.sessionStart presetName]] in
  match getProperty PRESETS presetName with
  | None =>
      h0 ++ [ConsoleError [Msg.presetNotFound presetName];
             ConsoleLog [Msg.availablePresets;
                         String.concat ", " (Object_keys PRESETS)]]
  | Some preset =>
      let r1 := fs_mkdir W h0 inputDir in
      let h1 := h0 ++ [Mkdir inputDir r1] in
      match r1 with
      | Some message => h1 ++ [critical message]
      | None =>
          let r2 := fs_mkdir W h1 outputDir in
          let h2 := h1 ++ [Mkdir outputDir r2] in
          match r2 with
          | Some message => h2 ++ [critical message]
          | None =>
              let r3 := fs_readdir W h2 inputDir in
              let h3 := h2 ++ [Readdir inputDir r3] in
              match r3 with
              | inl message => h3 ++ [critical message]
              | inr files =>
                  let videoFiles := filter isVideoFile files in
                  let n := List.length videoFiles in
                  if Nat.eqb n 0 then h3 ++ [ConsoleWarn [Msg.noVideoFiles]]
                  else
                    let h4 := h3 ++ [ConsoleLog [Msg.foundFiles n]] in
                    let h5 := h4 ++ map (launch preset) videoFiles in
                    let queues := map (fun i => queueOf (engine W h5 i)) (seq 0 n) in
                    let heard := deliver (arrival W h5) queues in
                    let results := map (settled heard) (seq 0 n) in
                    let successCount := List.length (filter isFulfilled results) in
                    let failedCount := (List.length results - successCount)%nat in
                    h5 ++ flat_map (hear preset videoFiles) heard
                    ++ (if forallb isSettled results
                        then [ConsoleLog [Msg.sessionFinished];
                              ConsoleLog [Msg.successful successCount];
                              ConsoleLog [Msg.withErrors failedCount]]
                        else [])
              end
          end
      end
  end%list.

(** The entry point. *)
Definition main (argv2 : option string) : list Event :=
  match argv2 with
  | Some (String c s) => convertVideos (String c s)
  | _ =>
      [ConsoleLog [nth 0 Msg.usage ""]; ConsoleLog [nth 1 Msg.usage ""];
       ConsoleLog [Msg.availablePresets; String.concat ", " (Object_keys PRESETS)]]
  end.

End Script.


(** The notifications of process [i] among those that arrived. *)
Definition arrivedFrom (i : nat) (heard : list (nat * Notification))
  : list Notification :=
  map snd (filter (fun a => Nat.eqb (fst a) i) heard).

Definition isEnd (n : Notification) : bool :=
  match n with End => true | _ => false end.

Definition isError (n : Notification) : bool :=
  match n with Error _ => true | _ => false end.

Definition succeeds (run : EngineRun) : bool :=
  match failure run with None => true | Some _ => false end.

(** The error of a call to the file system that failed. *)
Definition failureOf (e : Event) : option string :=
  match e with
  | Mkdir _ (Some message) => Some message
  | Readdir _ (inl message) => Some message
  | _ => None
  end.

Definition ended (h : list Event) : nat :=
  List.length (filter (fun e => match e with Heard _ End => true | _ => false end) h).

Definition errored (h : list Event) : nat :=
  List.length (filter (fun e => match e with Heard _ (Error _) => true | _ => false end) h).

Definition isCall (e : Event) : bool :=
  match e with Mkdir _ _ | Readdir _ _ => true | _ => false end.

Definition isRun (e : Event) : bool :=
  match e with Run _ _ _ => true | _ => false end.

Definition isHeard (e : Event) : bool :=
  match e with Heard _ _ => true | _ => false end.

(** A world for three videos: the second conversion fails, and the
    processes are heard in turns, the last one first. *)
Definition threeAtOnce : World :=
  {| dirname := "/app";
     fs_mkdir := fun _ _ => None;
     fs_readdir := fun _ _ => inr ["a.mp4"; "notes.txt"; "b.mkv"; "c.avi"];
     engine := fun _ i => if Nat.eqb i 1 then Reference.engineFails
                          else Reference.engineOk;
     arrival := fun _ => [2; 0; 1; 2; 7; 0; 2; 2]%nat |}.

(** A world in which the input directory cannot be read. *)
Definition unreadable : World :=
  {| dirname := "/app";
     fs_mkdir := fun _ _ => None;
     fs_readdir := fun _ _ => inl "EACCES: permission denied, scandir '/app/input'";
     engine := fun _ _ => Reference.engineOk;
     arrival := fun _ => [] |}.

(** A world without a video. *)
Definition nothingToDo : World :=
  {| dirname := "/app";
     fs_mkdir := fun _ _ => None;
     fs_readdir := fun _ _ => inr ["notes.txt"; ".mp4"];
     engine := fun _ _ => Reference.engineOk;
     arrival := fun _ => [] |}.

End Concurrent.

(** * Properties *)

(** ** The runtime and the path functions on samples *)

Example path_samples :
  map Path.extname ["clip.mp4"; "a.b.MKV"; ".mp4"; "noext"; "dir/x.avi"; ".."; "a."; "..mov"; "x.mp4/"]
  = [".mp4"; ".MKV"; ""; ""; ".avi"; ""; "."; ".mov"; ".mp4"]
  /\ map Path.parse_name ["clip.mp4"; "a.b.MKV"; ".mp4"; "noext"; "dir/x.avi"; ".."; "a."; "..mov"; "/x.flv"]
  = ["clip"; "a.b"; ".mp4"; "noext"; "x"; ".."; "a"; "."; "x"]
  /\ map (Path.join "/app") ["input"; "../x"; "a//b/"; "./c"; ""]
  = ["/app/input"; "/x"; "/app/a/b/"; "/app/c"; "/app"].
Proof. vm_compute. repeat split. Qed.

Example number_to_text :
  map NumberToString [1.5; 1536; 0x1.999999999999ap-4; 1e21; 0x1p-1074; 123456789.125;
                      (-0x1.8p1); 0x1.ad7f29abcaf48p-24]%float
  = ["1.5"; "1536"; "0.1"; "1e+21"; "5e-324"; "123456789.125"; "-3"; "1e-7"]
  /\ map (fun x => toFixed x 2) [1.5; 488.28125; 0.125; 1e21; (-50); nan; infinity]%float
     = ["1.50"; "488.28"; "0.13"; "1e+21"; "-50.00"; "NaN"; "Infinity"]
  /\ map (fun x => toFixed x 0) [0.5; 2.5; 128; 127.5]%float
     = ["1"; "3"; "128"; "128"].
Proof. vm_compute. repeat split. Qed.

Example text_to_number :
  map parseFloat ["1.50"; "  12.5abc"; ".5"; "5."; "1e3"; "Infinity"; "-0"]
  = [1.5; 12.5; 0.5; 5; 1000; infinity; neg_zero]%float
  /\ map isNaN [JsString "N/A"; JsString ""; JsString " 12 "; JsString "12px";
                JsUndefined; JsNumber 0; JsString "0x1F"]
     = [true; false; false; true; true; false; false]
  /\ map parseInt [JsNumber 128000; JsString "128000.7"; JsString "  -12px";
                   JsString "0x1F"; JsNumber 1e21]
     = [128000; 128000; -12; 31; 1]%float.
Proof. vm_compute. repeat split. Qed.

(** ** The computation and its observations *)

Lemma result_bind {A B} (m : M A) (f : A -> M B) h :
  result (bind m f) h = result (f (result m h)) (h ++ trace m h).
Proof.
  unfold result, trace, bind. destruct (m h) as [a d1]; simpl.
  destruct (f a (h ++ d1)%list); reflexivity.
Qed.

Lemma trace_bind {A B} (m : M A) (f : A -> M B) h :
  trace (bind m f) h = (trace m h ++ trace (f (result m h)) (h ++ trace m h))%list.
Proof.
  unfold result, trace, bind. destruct (m h) as [a d1]; simpl.
  destruct (f a (h ++ d1)%list); reflexivity.
Qed.

Lemma result_ret {A} (a : A) h : result (ret a) h = a.
Proof. reflexivity. Qed.

Lemma trace_ret {A} (a : A) h : trace (ret a) h = [].
Proof. reflexivity. Qed.

Lemma result_observe {A} (f : list Event -> A) h : result (observe f) h = f h.
Proof. reflexivity. Qed.

Lemma trace_observe {A} (f : list Event -> A) h : trace (observe f) h = [].
Proof. reflexivity. Qed.

Lemma consoleLines_app a b :
  consoleLines (a ++ b) = (consoleLines a ++ consoleLines b)%list.
Proof. apply flat_map_app. Qed.

Lemma jobEvents_app a b : jobEvents (a ++ b) = (jobEvents a ++ jobEvents b)%list.
Proof. apply filter_app. Qed.

Lemma directoryEvents_app a b :
  directoryEvents (a ++ b) = (directoryEvents a ++ directoryEvents b)%list.
Proof. apply filter_app. Qed.

Section Primitives.

Variable E : Env.
Variable v : Variant.

Lemma newDate_result h : result (newDate E) h = Date_now E h.
Proof. reflexivity. Qed.

Lemma newDate_trace h : trace (newDate E) h = [NewDate (Date_now E h)].
Proof. reflexivity. Qed.

Lemma logInfo_console message h :
  consoleLines (trace (logInfo E message) h) = [message].
Proof.
  unfold logInfo, newDate, trace, bind, observe, emit, ret; simpl.
  destruct (fs_appendFile E _ _ _); reflexivity.
Qed.

Lemma logInfo_job message h : jobEvents (trace (logInfo E message) h) = [].
Proof.
  unfold logInfo, newDate, trace, bind, observe, emit, ret; simpl.
  destruct (fs_appendFile E _ _ _); reflexivity.
Qed.

Lemma logInfo_directory message h :
  directoryEvents (trace (logInfo E message) h) = [].
Proof.
  unfold logInfo, newDate, trace, bind, observe, emit, ret; simpl.
  destruct (fs_appendFile E _ _ _); reflexivity.
Qed.

Lemma getFileStats_result path h :
  result (getFileStats E path) h =
  match ffprobe E h path with
  | inl message => inl ("ffprobe error for " ++ path ++ ": " ++ message)
  | inr metadata => inr (statsOf metadata)
  end.
Proof.
  unfold getFileStats, result, bind, observe, emit, ret; simpl.
  destruct (ffprobe E h path); reflexivity.
Qed.

Lemma getFileStats_trace path h :
  trace (getFileStats E path) h = [Ffprobe path (ffprobe E h path)].
Proof.
  unfold getFileStats, trace, bind, observe, emit, ret; simpl.
  destruct (ffprobe E h path); reflexivity.
Qed.

Lemma onEvents_console file es h :
  consoleLines (trace (onEvents v file es) h)
  = engineConsole v file {| events := es; failure := None |}.
Proof.
  revert h. induction es as [|e es IH]; intros h; [reflexivity|].
  simpl onEvents. rewrite trace_bind, consoleLines_app, IH.
  unfold engineConsole. simpl events. simpl flat_map.
  f_equal. unfold onEvent. destruct e as [c|[p|]]; try reflexivity.
  destruct (ToBoolean (JsNumber p)); reflexivity.
Qed.

Lemma onEvents_job file es h : jobEvents (trace (onEvents v file es) h) = [].
Proof.
  revert h. induction es as [|e es IH]; intros h; [reflexivity|].
  simpl onEvents. rewrite trace_bind, jobEvents_app, IH, app_nil_r.
  unfold onEvent. destruct e as [c|[p|]]; try reflexivity.
  destruct (ToBoolean (JsNumber p)); reflexivity.
Qed.

Lemma onEvents_directory file es h :
  directoryEvents (trace (onEvents v file es) h) = [].
Proof.
  revert h. induction es as [|e es IH]; intros h; [reflexivity|].
  simpl onEvents. rewrite trace_bind, directoryEvents_app, IH, app_nil_r.
  unfold onEvent. destruct e as [c|[p|]]; try reflexivity.
  destruct (ToBoolean (JsNumber p)); reflexivity.
Qed.

Lemma convert_result file input options output h :
  result (convert E v file input options output) h
  = failure (ffmpeg E h input options output).
Proof. unfold convert. rewrite !result_bind. reflexivity. Qed.

Lemma convert_console file input options output h :
  consoleLines (trace (convert E v file input options output) h)
  = engineConsole v file (ffmpeg E h input options output).
Proof.
  unfold convert. rewrite !trace_bind, !consoleLines_app, onEvents_console.
  simpl. rewrite app_nil_r. reflexivity.
Qed.

Lemma convert_job file input options output h :
  jobEvents (trace (convert E v file input options output) h)
  = [Ffmpeg input options output (ffmpeg E h input options output)].
Proof.
  unfold convert. rewrite !trace_bind, !jobEvents_app, onEvents_job.
  reflexivity.
Qed.

Lemma convert_directory file input options output h :
  directoryEvents (trace (convert E v file input options output) h) = [].
Proof.
  unfold convert. rewrite !trace_bind, !directoryEvents_app, onEvents_directory.
  reflexivity.
Qed.

Lemma logStats_console stats h :
  consoleLines (trace (logStats E stats) h) = statsLines E stats.
Proof.
  unfold logStats. rewrite !trace_bind, !consoleLines_app, !logInfo_console.
  reflexivity.
Qed.

Lemma logStats_job stats h : jobEvents (trace (logStats E stats) h) = [].
Proof.
  unfold logStats. rewrite !trace_bind, !jobEvents_app, !logInfo_job.
  reflexivity.
Qed.

Lemma logStats_directory stats h :
  directoryEvents (trace (logStats E stats) h) = [].
Proof.
  unfold logStats. rewrite !trace_bind, !directoryEvents_app, !logInfo_directory.
  reflexivity.
Qed.

Lemma logSummary_console counts h :
  consoleLines (trace (logSummary E v counts) h)
  = [Msg.sessionFinished v; Msg.successful v (fst counts);
     Msg.failedOrSkipped v (snd counts); Msg.logsSavedTo v (logFileName E)].
Proof.
  unfold logSummary. rewrite !trace_bind, !consoleLines_app, !logInfo_console.
  reflexivity.
Qed.

Lemma logSummary_job counts h : jobEvents (trace (logSummary E v counts) h) = [].
Proof.
  unfold logSummary. rewrite !trace_bind, !jobEvents_app, !logInfo_job.
  reflexivity.
Qed.

Lemma logSummary_directory counts h :
  directoryEvents (trace (logSummary E v counts) h) = [].
Proof.
  unfold logSummary. rewrite !trace_bind, !directoryEvents_app, !logInfo_directory.
  reflexivity.
Qed.

Lemma mkdir_result path h : result (mkdir E path) h = fs_mkdir E h path.
Proof. reflexivity. Qed.

Lemma mkdir_trace path h : trace (mkdir E path) h = [Mkdir path (fs_mkdir E h path)].
Proof. reflexivity. Qed.

Lemma readdir_result path h : result (readdir E path) h = fs_readdir E h path.
Proof. reflexivity. Qed.

Lemma readdir_trace path h :
  trace (readdir E path) h = [Readdir path (fs_readdir E h path)].
Proof. reflexivity. Qed.

End Primitives.

(** From here on the primitives are used through the lemmas above. *)
Opaque newDate logInfo logStats logSummary getFileStats convert mkdir readdir.

(** One step through the first [bind] of the goal. *)
Ltac next :=
  lazymatch goal with
  | |- context [trace (bind ?m ?f) ?h] =>
      rewrite ?(result_bind m f h), ?(trace_bind m f h),
        ?consoleLines_app, ?jobEvents_app, ?directoryEvents_app;
      cbv beta;
      rewrite ?logInfo_console, ?logInfo_job, ?logInfo_directory,
        ?logStats_console, ?logStats_job, ?logStats_directory,
        ?convert_console, ?convert_job, ?convert_result, ?convert_directory,
        ?getFileStats_result, ?getFileStats_trace,
        ?newDate_result, ?newDate_trace,
        ?result_observe, ?trace_observe
  end.

Ltac last_step :=
  rewrite ?logInfo_console, ?logInfo_job, ?logInfo_directory, ?result_ret, ?trace_ret.

(** The way a history was built plays no part: forget it. *)
Ltac forget :=
  repeat match goal with
  | |- context [trace _ (?h ++ ?d)%list] => generalize (h ++ d)%list; intro
  end.

Ltac go := next; forget.

(** ** One turn of the loop *)

Lemma JobReport_eq E v preset total i file s f c e l c' e' l' :
  JobReport E v preset total i file s f c e l ->
  c = c' -> e = e' -> l = l' ->
  JobReport E v preset total i file s f c' e' l'.
Proof. intros H -> -> ->. exact H. Qed.

Ltac lines :=
  unfold conversionLines, statsLines;
  cbn [app consoleLines jobEvents flat_map filter isJobEvent];
  rewrite <- ?app_assoc; reflexivity.

Lemma processFile_report E v preset total i file s f h :
  let job := processFile E v preset total i file (s, f) in
  JobReport E v preset total i file s f
    (result job h) (jobEvents (trace job h)) (consoleLines (trace job h)).
Proof.
  intros job. subst job. unfold processFile.
  go. next.
  destruct (ffprobe E _ (Path.join (inputDir E) file)) as [message|metadata].
  - forget. go. go. last_step.
    eapply JobReport_eq; [ apply JobSkipped | reflexivity | reflexivity | reflexivity ].
  - forget. go. go. next.
    match goal with |- context [Date_now E ?h'] =>
      generalize (Date_now E h'); intros startTime end.
    forget. go. next.
    match goal with |- context [ffmpeg E ?h' ?a ?b ?c] =>
      generalize (ffmpeg E h' a b c); intros run end.
    forget. next.
    match goal with |- context [Date_now E ?h'] =>
      generalize (Date_now E h'); intros endTime end.
    forget. go. go. next.
    destruct (failure run) as [message|] eqn:Hrun.
    + go. last_step. forget. go. last_step.
      eapply JobReport_eq;
        [ eapply JobFailed with (startTime := startTime) (endTime := endTime);
          exact Hrun
        | reflexivity | lines | lines ].
    + next.
      destruct (ffprobe E _ (Path.join (outputDir E) _)) as [message|metadata'].
      * forget. go. last_step. forget. go. last_step.
        eapply JobReport_eq;
          [ eapply JobConvertedNoStats with (startTime := startTime) (endTime := endTime);
            exact Hrun
          | reflexivity | lines | lines ].
      * forget. go. go. go. go. last_step. forget. go. last_step.
        eapply JobReport_eq;
          [ eapply JobConverted with (startTime := startTime) (endTime := endTime);
            exact Hrun
          | reflexivity | lines | lines ].
Qed.

Lemma processFile_directory E v preset total i file counts h :
  directoryEvents (trace (processFile E v preset total i file counts) h) = [].
Proof.
  destruct counts as [s f]. unfold processFile.
  go. next.
  destruct (ffprobe E _ (Path.join (inputDir E) file)) as [message|metadata].
  - forget. go. go. last_step. reflexivity.
  - forget. go. go. next. forget. go. next. forget. next. forget. go. go. next.
    destruct (failure _) as [message|].
    + go. last_step. forget. go. last_step. reflexivity.
    + next.
      destruct (ffprobe E _ (Path.join (outputDir E) _)) as [message|metadata'].
      * forget. go. last_step. forget. go. last_step. reflexivity.
      * forget. go. go. go. go. last_step. forget. go. last_step. reflexivity.
Qed.

Lemma JobReport_counts E v preset total i file s f c e l :
  JobReport E v preset total i file s f c e l ->
  (fst c + snd c = s + f + 1)%N.
Proof. destruct 1; simpl; lia. Qed.

Lemma JobReport_starts E v preset total i file s f c e l :
  JobReport E v preset total i file s f c e l ->
  exists rest, l = Msg.fileStart v (i + 1) total file :: rest.
Proof. destruct 1; eexists; reflexivity. Qed.

Lemma processFile_counts E v preset total i file counts h :
  let counts' := result (processFile E v preset total i file counts) h in
  (fst counts' + snd counts' = fst counts + snd counts + 1)%N.
Proof.
  destruct counts as [s f].
  exact (JobReport_counts _ _ _ _ _ _ _ _ _ _ _
           (processFile_report E v preset total i file s f h)).
Qed.

Lemma processFile_starts E v preset total i file counts h :
  exists rest, consoleLines (trace (processFile E v preset total i file counts) h)
               = Msg.fileStart v (i + 1) total file :: rest.
Proof.
  destruct counts as [s f].
  exact (JobReport_starts _ _ _ _ _ _ _ _ _ _ _
           (processFile_report E v preset total i file s f h)).
Qed.

Opaque processFile.

(** ** The loop *)

Lemma processFiles_counts E v preset total files : forall i counts h,
  let counts' := result (processFiles E v preset total i files counts) h in
  (fst counts' + snd counts'
   = fst counts + snd counts + N.of_nat (List.length files))%N.
Proof.
  induction files as [|file rest IH]; intros i counts h; cbv zeta.
  - simpl processFiles. rewrite result_ret.
    change (N.of_nat (List.length [])) with 0%N. lia.
  - simpl processFiles. rewrite result_bind.
    rewrite IH. rewrite processFile_counts.
    simpl List.length. rewrite Nat2N.inj_succ. lia.
Qed.

Lemma processFiles_directory E v preset total files : forall i counts h,
  directoryEvents (trace (processFiles E v preset total i files counts) h) = [].
Proof.
  induction files as [|file rest IH]; intros i counts h; [reflexivity|].
  simpl processFiles. rewrite trace_bind, directoryEvents_app, IH.
  rewrite processFile_directory. reflexivity.
Qed.

Lemma processFiles_starts E v preset total files : forall i counts h k file,
  nth_error files k = Some file ->
  In (Msg.fileStart v (i + N.of_nat k + 1) total file)
     (consoleLines (trace (processFiles E v preset total i files counts) h)).
Proof.
  induction files as [|f0 rest IH]; intros i counts h k file Hk.
  - destruct k; discriminate.
  - simpl processFiles. rewrite trace_bind, consoleLines_app. apply in_or_app.
    destruct k as [|k]; simpl in Hk.
    + injection Hk as ->. left.
      destruct (processFile_starts E v preset total i file counts h) as [r ->].
      left. replace (i + N.of_nat 0 + 1)%N with (i + 1)%N by (simpl; lia).
      reflexivity.
    + right.
      replace (i + N.of_nat (S k) + 1)%N with ((i + 1) + N.of_nat k + 1)%N by lia.
      apply IH. exact Hk.
Qed.

(** The loop, turn after turn. *)
Lemma processFiles_loop E v preset total files : forall i counts h,
  let loop := processFiles E v preset total i files counts in
  LoopReport E v preset total i files counts (result loop h)
    (jobEvents (trace loop h)) (consoleLines (trace loop h)).
Proof.
  induction files as [|file rest IH]; intros i counts h; cbv zeta.
  - simpl processFiles. rewrite result_ret, trace_ret. apply LoopDone.
  - simpl processFiles. rewrite result_bind, trace_bind, jobEvents_app, consoleLines_app.
    destruct counts as [s f].
    eapply LoopTurn; [apply processFile_report|apply IH].
Qed.

Lemma JobReport_block E v preset total i file s f c e l :
  JobReport E v preset total i file s f c e l -> JobBlock E preset file e.
Proof.
  destruct 1.
  - left. eexists; reflexivity.
  - right; left. do 3 eexists. split; [eassumption|reflexivity].
  - right; right. do 3 eexists. split; [eassumption|reflexivity].
  - right; right. do 3 eexists. split; [eassumption|reflexivity].
Qed.

Lemma LoopReport_blocks E v preset total i files c c' es ls :
  LoopReport E v preset total i files c c' es ls ->
  exists blocks, es = List.concat blocks /\ Forall2 (JobBlock E preset) files blocks.
Proof.
  induction 1 as [|i file rest s f c1 c2 block lines blocks lines' HJ HL (bs & -> & IH)].
  - exists []. split; [reflexivity|constructor].
  - exists (block :: bs). split; [reflexivity|].
    constructor; [exact (JobReport_block _ _ _ _ _ _ _ _ _ _ _ HJ)|exact IH].
Qed.

Lemma blocks_nth (P : string -> list Event -> Prop) files blocks :
  Forall2 P files blocks ->
  forall k file, nth_error files k = Some file ->
  exists block, P file block /\ incl block (List.concat blocks).
Proof.
  induction 1 as [|f b files blocks HP HF IH]; intros k file Hk.
  - destruct k; discriminate.
  - destruct k as [|k]; simpl in Hk.
    + injection Hk as <-. exists b. split; [exact HP|].
      intros e He. simpl. apply in_or_app. left. exact He.
    + destruct (IH k file Hk) as (block & Hb & Hincl).
      exists block. split; [exact Hb|].
      intros e He. simpl. apply in_or_app. right. exact (Hincl e He).
Qed.

(** Whatever happened to the files before it, every file of the list is
    probed. *)
Lemma processFiles_probes E v preset total files i counts h k file :
  nth_error files k = Some file ->
  exists r,
    In (Ffprobe (Path.join (inputDir E) file) r)
       (jobEvents (trace (processFiles E v preset total i files counts) h)).
Proof.
  intros Hk.
  pose proof (processFiles_loop E v preset total files i counts h) as L.
  cbv zeta in L. apply LoopReport_blocks in L. destruct L as (blocks & -> & HF).
  destruct (blocks_nth _ _ _ HF k file Hk) as (block & Hb & Hincl).
  destruct Hb as [(m & ->)|[(md & run & m & _ & ->)|(md & run & r & _ & ->)]];
    eexists; apply Hincl; left; reflexivity.
Qed.

(** ** The session *)

Lemma listInput_report E h :
  ListReport E (result (listInput E) h) (trace (listInput E) h).
Proof.
  unfold listInput.
  rewrite result_bind, trace_bind, mkdir_result, mkdir_trace.
  destruct (fs_mkdir E h (inputDir E)) as [message|].
  - apply ListInputFailed.
  - rewrite result_bind, trace_bind, mkdir_result, mkdir_trace.
    destruct (fs_mkdir E _ (outputDir E)) as [message|].
    + apply ListOutputFailed.
    + rewrite readdir_result, readdir_trace.
      destruct (fs_readdir E _ (inputDir E)) as [message|files].
      * apply ListReaddirFailed.
      * apply ListRead.
Qed.

Lemma ListReport_events E r d :
  ListReport E r d ->
  consoleLines d = [] /\ jobEvents d = [] /\ directoryEvents d = d.
Proof. destruct 1; repeat split. Qed.

Lemma ListReport_failed E message d :
  ListReport E (inl message) d -> forall p files, ~ In (Readdir p (inr files)) d.
Proof.
  intros H p files Hin. inversion H; subst; simpl in Hin;
    repeat (destruct Hin as [Hin|Hin]; try discriminate); exact Hin.
Qed.

Lemma ListReport_read E files d :
  ListReport E (inr files) d ->
  d = [Mkdir (inputDir E) None; Mkdir (outputDir E) None;
       Readdir (inputDir E) (inr files)].
Proof. intros H. inversion H; reflexivity. Qed.

Lemma RunReport_eq E v presetName d j l d' j' l' :
  RunReport E v presetName d j l -> d = d' -> j = j' -> l = l' ->
  RunReport E v presetName d' j' l'.
Proof. intros H -> -> ->. exact H. Qed.

Lemma convertVideos_report E v presetName h :
  let run := trace (convertVideos E v presetName) h in
  RunReport E v presetName (directoryEvents run) (jobEvents run) (consoleLines run).
Proof.
  cbv zeta. unfold convertVideos. go.
  destruct (getProperty (PRESETS v) presetName) as [preset|] eqn:Hpreset.
  - next.
    pose proof (listInput_report E l) as L.
    destruct (ListReport_events _ _ _ L) as (Lc & Lj & Ld).
    rewrite Lc, Lj, Ld.
    destruct (result (listInput E) l) as [message|files] eqn:Hlist.
    + forget. last_step.
      eapply RunReport_eq;
        [ eapply RunDirectoryError with (message := message);
          [ exact Hpreset | exact (ListReport_failed _ _ _ L) ]
        | cbn [app]; rewrite app_nil_r; reflexivity | reflexivity | reflexivity ].
    + rewrite (ListReport_read _ _ _ L). forget.
      destruct (N.of_nat (List.length (filter isVideoFile files)) =? 0)%N eqn:Hzero.
      * last_step.
        eapply RunReport_eq;
          [ eapply RunNoVideoFiles; [ exact Hpreset | ]
          | reflexivity | reflexivity | reflexivity ].
        apply N.eqb_eq in Hzero.
        destruct (filter isVideoFile files); [reflexivity | discriminate].
      * go. next.
        rewrite logSummary_console, logSummary_job, logSummary_directory,
          processFiles_directory.
        eapply RunReport_eq;
          [ eapply RunProcessed with
              (successCount := fst (result (processFiles E v preset _ 0 _ (0, 0)%N) l1))
              (failedCount := snd (result (processFiles E v preset _ 0 _ (0, 0)%N) l1));
            [ exact Hpreset | | | ]
          | reflexivity | rewrite app_nil_r; reflexivity | reflexivity ].
        -- intros Hnil. rewrite Hnil in Hzero. discriminate.
        -- rewrite processFiles_counts. simpl. lia.
        -- intros k file Hk.
           apply (processFiles_starts E v preset _ _ 0%N (0, 0)%N l1 k file Hk).
  - go. last_step.
    eapply RunReport_eq;
      [ apply RunUnknownPreset; exact Hpreset
      | reflexivity | reflexivity | reflexivity ].
Qed.

(** ** Formatting *)

Ltac in_list := repeat first [left; reflexivity | right].

(** C10 — [formatBitrate(0)] is the unknown-bitrate label ['N/A']: a bit rate
    that is the number zero (of either sign) is rendered as an absent one,
    as the string ['N/A'], as a string that is no number and as NaN are, so
    the text does not tell a measured 0 b/s from an unknown bit rate. *)
Theorem formatBitrate_zero_is_unknown :
  formatBitrate (JsNumber 0) = "N/A"
  /\ formatBitrate (JsNumber (-0)) = "N/A"
  /\ formatBitrate JsUndefined = formatBitrate (JsNumber 0)
  /\ formatBitrate (JsString "N/A") = formatBitrate (JsNumber 0)
  /\ formatBitrate (JsString "unknown") = formatBitrate (JsNumber 0)
  /\ formatBitrate (JsNumber nan) = formatBitrate (JsNumber 0)
  /\ formatBitrate (JsNumber 128000) = "128 kb/s".
Proof. vm_compute. repeat split. Qed.

(** C9, as stated, fails: with a logarithm and a power that are accurate at
    1536 and 1024, [formatBytes(1536)] is not the text ["1.50 KB"]. *)
Lemma formatBytes_1536_is_not_two_decimals :
  Math_floor (Math_log Reference.idle 1536 / Math_log Reference.idle 1024)
  = 1%float
  /\ Math_pow Reference.idle 1024 1 = 1024%float
  /\ formatBytes Reference.idle (JsNumber 1536) <> "1.50 KB".
Proof. vm_compute. repeat split. discriminate. Qed.

(** C9, amended — [formatBytes(0)] is the zero-bytes label ["0 Bytes"], and
    [formatBytes(1536)] is ["1.5 KB"]: the quotient 1536/1024 is rounded to
    two decimals and read back as a number, which drops the trailing zero.
    The engine's [Math.log] and [Math.pow] enter through what they give at
    these arguments. *)
Theorem formatBytes_samples (E : Env) :
  Math_floor (Math_log E 1536 / Math_log E 1024) = 1%float ->
  Math_pow E 1024 1 = 1024%float ->
  formatBytes E (JsNumber 0) = "0 Bytes"
  /\ formatBytes E (JsNumber 1536) = "1.5 KB".
Proof.
  intros Hlog Hpow. split; [reflexivity|].
  unfold formatBytes.
  replace (strictEqNumber (JsNumber 1536) 0 || negb (ToBoolean (JsNumber 1536)))
    with false by reflexivity.
  cbv zeta. simpl ToNumber. rewrite Hlog, Hpow.
  vm_compute. reflexivity.
Qed.

Lemma formatBytes_samples_witness :
  (Math_floor (Math_log Reference.idle 1536 / Math_log Reference.idle 1024)
   = 1%float
   /\ Math_pow Reference.idle 1024 1 = 1024%float)
  /\ formatBytes Reference.idle (JsNumber 0) = "0 Bytes"
  /\ formatBytes Reference.idle (JsNumber 1536) = "1.5 KB".
Proof.
  split; [split; vm_compute; reflexivity|].
  apply (formatBytes_samples Reference.idle); vm_compute; reflexivity.
Defined.

(** ** Probing *)

(** C2, as stated, fails: a video stream that carries no bit rate and the
    absence of any video stream give the same [videoBitrate]. *)
Lemma bitrate_unknown_equals_not_applicable :
  (exists s, find (fun s => strictEqString (codec_type s) "video")
                  (streams Reference.videoWithoutBitrate) = Some s
             /\ bit_rate s = JsUndefined)
  /\ find (fun s => strictEqString (codec_type s) "video")
          (streams Reference.audioOnly) = None
  /\ videoBitrate (statsOf Reference.videoWithoutBitrate)
     = videoBitrate (statsOf Reference.audioOnly).
Proof.
  split; [eexists; split; reflexivity|]. split; reflexivity.
Qed.

(** C2, amended — for every probed file, the bit-rate field of a stream
    type holds the string ['N/A'] both when a stream of that type exists
    but carries no bit rate (none, zero, NaN or an empty string) and when
    no stream of that type exists; the two cases are the same value. *)
Theorem bitrate_is_NA_in_both_cases (E : Env) (path : string) (h : list Event)
    (metadata : Metadata) (stats : FileStats) :
  ffprobe E h path = inr metadata ->
  result (getFileStats E path) h = inr stats ->
  (match find (fun s => strictEqString (codec_type s) "video") (streams metadata) with
   | Some s => ToBoolean (bit_rate s) = false
   | None => True
   end -> videoBitrate stats = JsString "N/A")
  /\ (match find (fun s => strictEqString (codec_type s) "audio") (streams metadata) with
      | Some s => ToBoolean (bit_rate s) = false
      | None => True
      end -> audioBitrate stats = JsString "N/A").
Proof.
  intros Hprobe Hstats. rewrite getFileStats_result, Hprobe in Hstats.
  injection Hstats as <-. unfold statsOf, orElse. simpl.
  split.
  - destruct (find _ (streams metadata)) as [s|]; [|reflexivity].
    intros ->. reflexivity.
  - destruct (find (fun s => strictEqString (codec_type s) "audio") (streams metadata))
      as [s|]; [|reflexivity].
    intros ->. reflexivity.
Qed.

Lemma bitrate_is_NA_in_both_cases_witness :
  let E := Reference.env (inr [])
             (Reference.probeOf [("/app/input/silent.mp4", Reference.videoWithoutBitrate)])
             (fun _ => Reference.engineOk) in
  (ffprobe E [] "/app/input/silent.mp4" = inr Reference.videoWithoutBitrate
   /\ result (getFileStats E "/app/input/silent.mp4") []
      = inr (statsOf Reference.videoWithoutBitrate))
  /\ videoBitrate (statsOf Reference.videoWithoutBitrate) = JsString "N/A"
  /\ audioBitrate (statsOf Reference.videoWithoutBitrate) = JsString "N/A".
Proof.
  intros E.
  assert (H1 : ffprobe E [] "/app/input/silent.mp4" = inr Reference.videoWithoutBitrate)
    by reflexivity.
  assert (H2 : result (getFileStats E "/app/input/silent.mp4") []
               = inr (statsOf Reference.videoWithoutBitrate))
    by (vm_compute; reflexivity).
  split; [split; assumption|].
  destruct (bitrate_is_NA_in_both_cases E "/app/input/silent.mp4" []
              Reference.videoWithoutBitrate (statsOf Reference.videoWithoutBitrate)
              H1 H2) as [Hv Ha].
  split; [apply Hv; reflexivity | apply Ha; exact I].
Defined.

(** ** The size change *)

Lemma eqb_zero_inv (s : float) :
  PrimFloat.eqb s 0 = true -> exists b, Prim2SF s = S754_zero b.
Proof.
  rewrite FloatAxioms.eqb_spec. change (Prim2SF 0) with (S754_zero false).
  destruct (Prim2SF s) as [b|b| |b m e]; try discriminate.
  - intros _. exists b. reflexivity.
  - destruct b; discriminate.
  - destruct b; discriminate.
Qed.

(** Whatever is divided by a zero, the percentage reads as NaN or as an
    infinity. *)
Lemma percent_of_zero (t s : float) :
  PrimFloat.eqb s 0 = true ->
  In (toFixed ((t - s) / s * 100)%float 2) ["NaN"; "Infinity"; "-Infinity"].
Proof.
  intros Hs. destruct (eqb_zero_inv s Hs) as [b Hz].
  unfold toFixed.
  rewrite FloatAxioms.mul_spec, FloatAxioms.div_spec, FloatAxioms.sub_spec, Hz.
  replace (Prim2SF 100) with (S754_finite false 7036874417766400 (-46)) by reflexivity.
  destruct (Prim2SF t) as [bt|bt| |bt m e]; destruct b; try destruct bt; simpl; auto.
Qed.

Lemma formatBytes_zero E z :
  PrimFloat.eqb z 0 = true -> formatBytes E (JsNumber z) = "0 Bytes".
Proof.
  intros Hz. unfold formatBytes. simpl strictEqNumber. rewrite Hz. reflexivity.
Qed.

(** C1, as stated, fails: for a clip whose probe reports zero bytes the
    division is carried out and the line that is logged, on the console and
    in the log file, reads [Infinity%]; with a target of zero bytes too it
    reads [NaN%]. *)
Lemma zero_source_size_logs_infinity :
  let run := trace (convertVideos Reference.zeroSource English "web_h264") [] in
  In "    Size Change: Infinity% (from 0 Bytes to 488.28 KB)" (consoleLines run)
  /\ In ("2026-01-01T00:00:00.000Z:     Size Change: Infinity% (from 0 Bytes to 488.28 KB)"
         ++ newline) (fileLines run)
  /\ In "  ✅ [clip.mp4]: SUCCESS -> clip.mp4" (consoleLines run)
  /\ toFixed (sizeChange (statsOf (Reference.media 0)) (statsOf (Reference.media 0))) 2
     = "NaN".
Proof. vm_compute. repeat split; in_list. Qed.

(** C1, amended — for every job whose conversion succeeds and whose target
    probe succeeds, if the source size is the number zero then the
    percentage is computed by the same division as for any other size: no
    error is raised, the job counts as a success, and the size-change line
    that is logged carries the text [NaN], [Infinity] or [-Infinity] before
    the percent sign. *)
Theorem zero_source_size_change E v preset total i file s f h
    metadata run metadata' a b c d e z :
  let job := processFile E v preset total i file (s, f) in
  jobEvents (trace job h)
  = [Ffprobe a (inr metadata); Ffmpeg b c d run; Ffprobe e (inr metadata')] ->
  format_size (format metadata) = JsNumber z ->
  PrimFloat.eqb z 0 = true ->
  result job h = ((s + 1)%N, f)
  /\ exists percent,
       In percent ["NaN"; "Infinity"; "-Infinity"]
       /\ In (Msg.sizeChange percent "0 Bytes"
                (formatBytes E (format_size (format metadata'))))
             (consoleLines (trace job h)).
Proof.
  intros job Hshape Hsize Hz.
  pose proof (processFile_report E v preset total i file s f h) as R.
  cbv zeta in R. fold job in R. rewrite Hshape in R.
  remember (result job h) as counts eqn:Hc.
  remember (consoleLines (trace job h)) as lines eqn:Hl.
  clear Hc Hl Hshape. inversion R; subst.
  split; [reflexivity|].
  exists (toFixed (sizeChange (statsOf metadata) (statsOf metadata')) 2).
  split.
  - unfold sizeChange. simpl size. rewrite Hsize. simpl ToNumber.
    apply percent_of_zero. exact Hz.
  - apply in_or_app. right. apply in_or_app. right. apply in_or_app. right.
    left. simpl size. rewrite Hsize, (formatBytes_zero E z Hz). reflexivity.
Qed.

Lemma zero_source_size_change_witness :
  let job := processFile Reference.zeroSource English
               (Own {| cli := ["-vn"]; outputExtension := ".mp4" |})
               1 0 "clip.mp4" (0%N, 0%N) in
  result job [] = (1%N, 0%N)
  /\ exists percent,
       In percent ["NaN"; "Infinity"; "-Infinity"]
       /\ In (Msg.sizeChange percent "0 Bytes"
                (formatBytes Reference.zeroSource (JsNumber 500000)))
             (consoleLines (trace job [])).
Proof.
  intros job.
  apply (zero_source_size_change Reference.zeroSource English _ 1 0 "clip.mp4"
           0 0 [] (Reference.media 0) Reference.engineOk (Reference.media 500000)
           "/app/input/clip.mp4" "/app/input/clip.mp4" (Some ["-vn"])
           "/app/output/clip.mp4" "/app/output/clip.mp4" 0%float);
    vm_compute; reflexivity.
Defined.

(** ** Failures inside one turn *)

(** C6 — for every job whose engine conversion succeeds but whose
    target-file probe fails, the job is counted as a success: the success
    counter is incremented and the failure counter is not, and after the
    line with the elapsed time only the qualified warning and the closing
    line of the job are logged. *)
Theorem target_probe_failure_counts_as_success E v preset total i file s f h
    metadata run message a b c d e :
  let job := processFile E v preset total i file (s, f) in
  jobEvents (trace job h)
  = [Ffprobe a (inr metadata); Ffmpeg b c d run; Ffprobe e (inl message)] ->
  failure run = None ->
  result job h = ((s + 1)%N, f)
  /\ exists startTime endTime,
       consoleLines (trace job h)
       = (conversionLines E v total i file (statsOf metadata) startTime endTime run
          ++ [Msg.successNoStats v file ("ffprobe error for " ++ e ++ ": " ++ message);
              Msg.finished v file])%list.
Proof.
  intros job Hshape Hrun.
  pose proof (processFile_report E v preset total i file s f h) as R.
  cbv zeta in R. fold job in R. rewrite Hshape in R.
  remember (result job h) as counts eqn:Hc.
  remember (consoleLines (trace job h)) as lines eqn:Hl.
  clear Hc Hl Hshape. inversion R; subst.
  split; [reflexivity|]. eexists; eexists; reflexivity.
Qed.

Lemma target_probe_failure_counts_as_success_witness :
  let job := processFile Reference.targetUnreadable Russian
               (Own {| cli := ["-vn"]; outputExtension := ".mp3" |})
               1 0 "clip.mp4" (4%N, 2%N) in
  (jobEvents (trace job [])
   = [Ffprobe "/app/input/clip.mp4" (inr (Reference.media 5000000));
      Ffmpeg "/app/input/clip.mp4" (Some ["-vn"]) "/app/output/clip.mp3"
        Reference.engineOk;
      Ffprobe "/app/output/clip.mp3" (inl "No such file or directory")]
   /\ failure Reference.engineOk = None)
  /\ result job [] = (5%N, 2%N)
  /\ exists startTime endTime,
       consoleLines (trace job [])
       = (conversionLines Reference.targetUnreadable Russian 1 0 "clip.mp4"
            (statsOf (Reference.media 5000000)) startTime endTime Reference.engineOk
          ++ [Msg.successNoStats Russian "clip.mp4"
                ("ffprobe error for " ++ "/app/output/clip.mp3" ++ ": "
                 ++ "No such file or directory");
              Msg.finished Russian "clip.mp4"])%list.
Proof.
  intros job. split; [split; vm_compute; reflexivity|].
  apply (target_probe_failure_counts_as_success Reference.targetUnreadable Russian
           _ 1 0 "clip.mp4" 4 2 [] (Reference.media 5000000) Reference.engineOk
           "No such file or directory"
           "/app/input/clip.mp4" "/app/input/clip.mp4" (Some ["-vn"])
           "/app/output/clip.mp3" "/app/output/clip.mp3");
    vm_compute; reflexivity.
Defined.

(** C7 — for every candidate file whose source probe fails, the job is
    marked failed (the failure counter is incremented, the success counter
    is not) and the turn ends after the two lines that report it, without a
    call to the engine for that file; and no failure of a probe or of a
    conversion stops the loop: whatever happens to a file, every file of
    the list gets its turn, in order; every turn is one of the four
    outcomes of a job, starting from the counters that the turn before it
    left, so each turn increments exactly one of the two counters; the
    calls to the engine are those of the turns, one block for each file of
    the list; and every file of the list is probed, whatever happened to
    the files before it. *)
Theorem source_probe_failure_skips_file E v preset total :
  (forall i file s f h a message rest,
      let job := processFile E v preset total i file (s, f) in
      jobEvents (trace job h) = Ffprobe a (inl message) :: rest ->
      rest = []
      /\ result job h = (s, (f + 1)%N)
      /\ consoleLines (trace job h)
         = [Msg.fileStart v (i + 1) total file;
            Msg.probeError v file ("ffprobe error for " ++ a ++ ": " ++ message);
            Msg.skipping v file])
  /\ (forall files i counts h k file,
         nth_error files k = Some file ->
         In (Msg.fileStart v (i + N.of_nat k + 1) total file)
            (consoleLines (trace (processFiles E v preset total i files counts) h)))
  /\ (forall files i counts h,
         let counts' := result (processFiles E v preset total i files counts) h in
         (fst counts' + snd counts'
          = fst counts + snd counts + N.of_nat (List.length files))%N)
  /\ (forall files i counts h,
         let loop := processFiles E v preset total i files counts in
         LoopReport E v preset total i files counts (result loop h)
           (jobEvents (trace loop h)) (consoleLines (trace loop h))
         /\ exists blocks,
              jobEvents (trace loop h) = List.concat blocks
              /\ Forall2 (JobBlock E preset) files blocks)
  /\ (forall files i counts h k file,
         nth_error files k = Some file ->
         exists r,
           In (Ffprobe (Path.join (inputDir E) file) r)
              (jobEvents (trace (processFiles E v preset total i files counts) h))).
Proof.
  split; [|split; [|split; [|split]]].
  - intros i file s f h a message rest job Hshape.
    pose proof (processFile_report E v preset total i file s f h) as R.
    cbv zeta in R. fold job in R. rewrite Hshape in R.
    remember (result job h) as counts eqn:Hc.
    remember (consoleLines (trace job h)) as lines eqn:Hl.
    clear Hc Hl Hshape. inversion R; subst.
    repeat split; reflexivity.
  - intros files i counts h k file Hk. apply processFiles_starts. exact Hk.
  - intros files i counts h. apply processFiles_counts.
  - intros files i counts h loop.
    pose proof (processFiles_loop E v preset total files i counts h) as L.
    cbv zeta in L. fold loop in L. split; [exact L|].
    exact (LoopReport_blocks _ _ _ _ _ _ _ _ _ _ L).
  - intros files i counts h k file Hk. apply processFiles_probes with (k := k). exact Hk.
Qed.

Lemma source_probe_failure_skips_file_witness :
  let E := Reference.mixed in
  let preset := Own {| cli := ["-vn"]; outputExtension := ".mp4" |} in
  let job := processFile E English preset 3 0 "bad.mkv" (0%N, 0%N) in
  let loop := processFiles E English preset 3 0 ["bad.mkv"; "clip.mp4"; "old.avi"]
                (0%N, 0%N) in
  jobEvents (trace job [])
  = [Ffprobe "/app/input/bad.mkv" (inl "No such file or directory")]
  /\ result job [] = (0%N, 1%N)
  /\ In (Msg.fileStart English 3 3 "old.avi") (consoleLines (trace loop []))
  /\ result loop [] = (1%N, 2%N)
  /\ (exists r, In (Ffprobe (Path.join (inputDir E) "clip.mp4") r)
                   (jobEvents (trace loop [])))
  /\ (exists r, In (Ffprobe (Path.join (inputDir E) "old.avi") r)
                   (jobEvents (trace loop [])))
  /\ List.length (jobEvents (trace loop [])) = 6%nat.
Proof.
  intros E preset job loop.
  destruct (source_probe_failure_skips_file E English preset 3)
    as (Hjob & Hstart & _ & _ & Hprobe).
  destruct (Hjob 0%N "bad.mkv" 0%N 0%N [] "/app/input/bad.mkv"
              "No such file or directory" [] ltac:(vm_compute; reflexivity))
    as (_ & Hcount & _).
  split; [vm_compute; reflexivity|]. split; [exact Hcount|]. split.
  - exact (Hstart ["bad.mkv"; "clip.mp4"; "old.avi"] 0%N (0%N, 0%N) [] 2%nat "old.avi"
             eq_refl).
  - split; [vm_compute; reflexivity|]. split; [|split].
    + exact (Hprobe ["bad.mkv"; "clip.mp4"; "old.avi"] 0%N (0%N, 0%N) [] 1%nat
               "clip.mp4" eq_refl).
    + exact (Hprobe ["bad.mkv"; "clip.mp4"; "old.avi"] 0%N (0%N, 0%N) [] 2%nat
               "old.avi" eq_refl).
    + vm_compute. reflexivity.
Defined.

(** ** The empty directory and the summary *)

Lemma In_directoryEvents e h :
  In e h -> isDirectoryEvent e = true -> In e (directoryEvents h).
Proof. intros Hin He. apply filter_In. split; assumption. Qed.

Lemma In_jobEvents e h :
  In e h -> isJobEvent e = true -> In e (jobEvents h).
Proof. intros Hin He. apply filter_In. split; assumption. Qed.

(** A session that lists the input directory either finds no video and
    says so, or processes the videos and ends with the summary. *)
Lemma RunReport_listed E v presetName d j l p files :
  RunReport E v presetName d j l ->
  In (Readdir p (inr files)) d ->
  (filter isVideoFile files = [] /\ j = []
   /\ l = [Msg.sessionStart v presetName; Msg.noVideoFiles v])
  \/ (filter isVideoFile files <> []
      /\ exists lines successCount failedCount,
           (successCount + failedCount
            = N.of_nat (List.length (filter isVideoFile files)))%N
           /\ l = ([Msg.sessionStart v presetName;
                    Msg.foundFiles v (N.of_nat (List.length (filter isVideoFile files)))]
                   ++ lines
                   ++ [Msg.sessionFinished v; Msg.successful v successCount;
                       Msg.failedOrSkipped v failedCount;
                       Msg.logsSavedTo v (logFileName E)])%list).
Proof.
  intros R Hin. destruct R as [Hp|preset dirs message Hp Hno|preset fs Hp Hnone
                              |preset fs jobs lines sc fc Hp Hsome Hsum Hstarts].
  - destruct Hin.
  - destruct (Hno _ _ Hin).
  - simpl in Hin. destruct Hin as [Hin|[Hin|[Hin|[]]]]; try discriminate.
    injection Hin as _ <-. left. repeat split. exact Hnone.
  - simpl in Hin. destruct Hin as [Hin|[Hin|[Hin|[]]]]; try discriminate.
    injection Hin as _ <-. right. split; [exact Hsome|].
    exists lines, sc, fc. split; [exact Hsum|reflexivity].
Qed.

Lemma session_lines_differ v presetName n :
  Msg.sessionStart v presetName <> Msg.noVideoFiles v
  /\ Msg.successful v n <> Msg.sessionStart v presetName
  /\ Msg.successful v n <> Msg.noVideoFiles v
  /\ Msg.failedOrSkipped v n <> Msg.sessionStart v presetName
  /\ Msg.failedOrSkipped v n <> Msg.noVideoFiles v.
Proof.
  unfold Msg.sessionStart, Msg.noVideoFiles, Msg.successful, Msg.failedOrSkipped.
  destruct v; simpl; repeat split; discriminate.
Qed.

(** C3, as stated, fails: with no video among the entries the session logs
    its first line and the "no files found" line and returns; it neither
    logs nor returns a summary, so no count of successes or failures is
    reported. *)
Lemma no_video_files_no_summary :
  let run := trace (convertVideos Reference.noVideo English "web_h264") [] in
  filter isVideoFile ["notes.txt"; "cover.jpg"] = []
  /\ consoleLines run
     = ["🚀 Starting conversion session with preset: web_h264";
        "🟡 No video files found in /input folder."]
  /\ ~ In (Msg.successful English 0) (consoleLines run)
  /\ ~ In (Msg.failedOrSkipped English 0) (consoleLines run)
  /\ result (convertVideos Reference.noVideo English "web_h264") [] = tt.
Proof.
  vm_compute. repeat split; try reflexivity;
    intros [H|[H|[]]]; discriminate.
Qed.

(** C3, amended — for every run in which the input directory contains no
    candidate video file, the run logs its first line and the "no files
    found" message, the latter exactly once, runs no job, and logs no
    summary: no line with a count of successes or failures appears. *)
Theorem no_video_files_session E v presetName h p files :
  let run := trace (convertVideos E v presetName) h in
  In (Readdir p (inr files)) run ->
  filter isVideoFile files = [] ->
  consoleLines run = [Msg.sessionStart v presetName; Msg.noVideoFiles v]
  /\ count_occ string_dec (consoleLines run) (Msg.noVideoFiles v) = 1%nat
  /\ jobEvents run = []
  /\ (forall n, ~ In (Msg.successful v n) (consoleLines run))
  /\ (forall n, ~ In (Msg.failedOrSkipped v n) (consoleLines run)).
Proof.
  intros run Hin Hnone.
  pose proof (convertVideos_report E v presetName h) as R. cbv zeta in R. fold run in R.
  destruct (RunReport_listed _ _ _ _ _ _ _ _ R
              (In_directoryEvents _ _ Hin eq_refl))
    as [(_ & Hj & Hl)|(Hsome & _)]; [|contradiction].
  rewrite Hl. split; [reflexivity|]. split; [|split; [exact Hj|]].
  - destruct (session_lines_differ v presetName 0) as (Hd & _).
    simpl. destruct (string_dec (Msg.sessionStart v presetName) (Msg.noVideoFiles v));
      [contradiction|].
    destruct (string_dec (Msg.noVideoFiles v) (Msg.noVideoFiles v));
      [reflexivity|contradiction].
  - split; intros n [H|[H|[]]];
      destruct (session_lines_differ v presetName n) as (_ & H1 & H2 & H3 & H4);
      congruence.
Qed.

Lemma no_video_files_session_witness :
  let run := trace (convertVideos Reference.noVideo Russian "conv0_5") [] in
  (In (Readdir "/app/input" (inr ["notes.txt"; "cover.jpg"])) run
   /\ filter isVideoFile ["notes.txt"; "cover.jpg"] = [])
  /\ consoleLines run = [Msg.sessionStart Russian "conv0_5"; Msg.noVideoFiles Russian]
  /\ count_occ string_dec (consoleLines run) (Msg.noVideoFiles Russian) = 1%nat
  /\ jobEvents run = []
  /\ (forall n, ~ In (Msg.successful Russian n) (consoleLines run))
  /\ (forall n, ~ In (Msg.failedOrSkipped Russian n) (consoleLines run)).
Proof.
  intros run.
  assert (Hin : In (Readdir "/app/input" (inr ["notes.txt"; "cover.jpg"])) run)
    by (vm_compute; in_list).
  split; [split; [exact Hin|reflexivity]|].
  exact (no_video_files_session Reference.noVideo Russian "conv0_5" []
           "/app/input" ["notes.txt"; "cover.jpg"] Hin eq_refl).
Defined.

(** C5 — for every run that reaches the per-file processing, the summary
    logged at the end of the run satisfies successCount + failedCount =
    number of candidate files, the entries of the input directory whose
    lower-cased extension is one of the video extensions, whatever the
    number of probes or conversions that fail. *)
Theorem summary_counts_all_candidates E v presetName h p files :
  let run := trace (convertVideos E v presetName) h in
  In (Readdir p (inr files)) run ->
  filter isVideoFile files <> [] ->
  exists successCount failedCount lines,
    (successCount + failedCount
     = N.of_nat (List.length (filter isVideoFile files)))%N
    /\ consoleLines run
       = (lines ++ [Msg.sessionFinished v; Msg.successful v successCount;
                    Msg.failedOrSkipped v failedCount;
                    Msg.logsSavedTo v (logFileName E)])%list.
Proof.
  intros run Hin Hsome.
  pose proof (convertVideos_report E v presetName h) as R. cbv zeta in R. fold run in R.
  destruct (RunReport_listed _ _ _ _ _ _ _ _ R
              (In_directoryEvents _ _ Hin eq_refl))
    as [(Hnone & _)|(_ & lines & sc & fc & Hsum & Hl)]; [contradiction|].
  exists sc, fc. eexists. split; [exact Hsum|].
  rewrite Hl. rewrite app_assoc. reflexivity.
Qed.

Lemma summary_counts_all_candidates_witness :
  let run := trace (convertVideos Reference.mixed English "web_h264") [] in
  (In (Readdir "/app/input" (inr ["bad.mkv"; "clip.mp4"; "old.avi"])) run
   /\ filter isVideoFile ["bad.mkv"; "clip.mp4"; "old.avi"] <> [])
  /\ (exists successCount failedCount lines,
         (successCount + failedCount
          = N.of_nat (List.length (filter isVideoFile ["bad.mkv"; "clip.mp4"; "old.avi"])))%N
         /\ consoleLines run
            = (lines ++ [Msg.sessionFinished English; Msg.successful English successCount;
                         Msg.failedOrSkipped English failedCount;
                         Msg.logsSavedTo English (logFileName Reference.mixed)])%list)
  /\ In "Successful: 1" (consoleLines run)
  /\ In "Failed / Skipped: 2" (consoleLines run).
Proof.
  intros run.
  assert (Hin : In (Readdir "/app/input" (inr ["bad.mkv"; "clip.mp4"; "old.avi"])) run)
    by (vm_compute; in_list).
  assert (Hsome : filter isVideoFile ["bad.mkv"; "clip.mp4"; "old.avi"] <> [])
    by (vm_compute; discriminate).
  split; [split; assumption|]. split.
  - exact (summary_counts_all_candidates Reference.mixed English "web_h264" []
             "/app/input" ["bad.mkv"; "clip.mp4"; "old.avi"] Hin Hsome).
  - vm_compute. split; in_list.
Defined.

(** ** An unknown preset *)

Lemma getProperty_None o key :
  ~ In key (Object_keys o) -> ~ In key ObjectPrototype -> getProperty o key = None.
Proof.
  intros Hown Hproto. unfold getProperty.
  destruct (find (fun kv => String.eqb (fst kv) key) o) as [[k p]|] eqn:Hfind.
  - apply find_some in Hfind. destruct Hfind as [Hin Heq].
    apply String.eqb_eq in Heq. simpl in Heq. subst k.
    exfalso. apply Hown. unfold Object_keys.
    change key with (fst (key, p)). apply in_map. exact Hin.
  - destruct (existsb (String.eqb key) ObjectPrototype) eqn:Hex; [|reflexivity].
    apply existsb_exists in Hex. destruct Hex as [x [Hin Heq]].
    apply String.eqb_eq in Heq. subst x. contradiction.
Qed.

(** C4, as stated, fails, in two ways.  For a name that is in no table the
    first entry logged is the line that opens the session, an entry that
    is no part of the error.  For the name [constructor], which is no
    preset, the look-up finds the property every object inherits: the
    directories are created and listed and a job runs, with an output name
    that ends in [undefined]. *)
Lemma unknown_preset_counterexample :
  (let run := trace (convertVideos Reference.clipAndNotes English "nope") [] in
   ~ In "nope" (Object_keys (PRESETS English))
   /\ consoleLines run
      = ["🚀 Starting conversion session with preset: nope";
         "❌ Error: Preset " ++ dquote ++ "nope" ++ dquote ++ " not found.";
         "Available presets: conv0_5, conv0_25s, conv256s, web_h264, extract_audio"]
   /\ List.length (fileLines run) = 3%nat)
  /\ (let run := trace (convertVideos Reference.clipAndNotes English "constructor") [] in
      ~ In "constructor" (Object_keys (PRESETS English))
      /\ directoryEvents run
         = [Mkdir "/app/input" None; Mkdir "/app/output" None;
            Readdir "/app/input" (inr ["clip.mp4"; "notes.txt"])]
      /\ In (Ffmpeg "/app/input/clip.mp4" None "/app/output/clipundefined"
               Reference.engineOk) run).
Proof.
  split.
  - vm_compute. repeat split.
    intros H; repeat (destruct H as [H|H]; [discriminate|]); exact H.
  - vm_compute. repeat split; [|in_list].
    intros H; repeat (destruct H as [H|H]; [discriminate|]); exact H.
Qed.

(** C4, amended — for every run invoked with a name that is neither a preset
    nor a property objects inherit, no directory is created or listed and no
    job runs; exactly three entries are logged: the line that opens the
    session, the error, and the line that names every available preset. *)
Theorem unknown_preset_session E v presetName h :
  ~ In presetName (Object_keys (PRESETS v)) ->
  ~ In presetName ObjectPrototype ->
  let run := trace (convertVideos E v presetName) h in
  directoryEvents run = []
  /\ jobEvents run = []
  /\ consoleLines run
     = [Msg.sessionStart v presetName; Msg.presetNotFound v presetName;
        Msg.availablePresets v (Object_keys (PRESETS v))]
  /\ forallb (fun name => occurs name (Msg.availablePresets v (Object_keys (PRESETS v))))
             (Object_keys (PRESETS v)) = true.
Proof.
  intros Hown Hproto run.
  pose proof (getProperty_None _ _ Hown Hproto) as Hnone.
  pose proof (convertVideos_report E v presetName h) as R. cbv zeta in R. fold run in R.
  destruct R as [Hp|preset dirs message Hp Hno|preset fs Hp Hnone'
                |preset fs jobs lines sc fc Hp Hsome Hsum Hstarts];
    try (rewrite Hnone in Hp; discriminate).
  repeat split. destruct v; vm_compute; reflexivity.
Qed.

Lemma unknown_preset_session_witness :
  let run := trace (convertVideos Reference.clipAndNotes Russian "conv256s") [] in
  (~ In "conv256s" (Object_keys (PRESETS Russian))
   /\ ~ In "conv256s" ObjectPrototype)
  /\ directoryEvents run = []
  /\ jobEvents run = []
  /\ consoleLines run
     = [Msg.sessionStart Russian "conv256s"; Msg.presetNotFound Russian "conv256s";
        Msg.availablePresets Russian (Object_keys (PRESETS Russian))]
  /\ forallb (fun name => occurs name
                            (Msg.availablePresets Russian (Object_keys (PRESETS Russian))))
             (Object_keys (PRESETS Russian)) = true.
Proof.
  intros run.
  assert (H1 : ~ In "conv256s" (Object_keys (PRESETS Russian)))
    by (vm_compute; intros H; repeat (destruct H as [H|H]; [discriminate|]); exact H).
  assert (H2 : ~ In "conv256s" ObjectPrototype)
    by (vm_compute; intros H; repeat (destruct H as [H|H]; [discriminate|]); exact H).
  split; [split; assumption|].
  exact (unknown_preset_session Reference.clipAndNotes Russian "conv256s" [] H1 H2).
Defined.

(** ** File names *)

Section FileNames.

Import Path.

Lemma chars_app a b :
  list_ascii_of_string (a ++ b) = (list_ascii_of_string a ++ list_ascii_of_string b)%list.
Proof. induction a as [|c a IH]; simpl; [reflexivity|]. rewrite IH. reflexivity. Qed.

Lemma substring_prefix s t : substring 0 (String.length s) (s ++ t) = s.
Proof.
  induction s as [|c s IH]; simpl.
  - destruct t; reflexivity.
  - rewrite IH. reflexivity.
Qed.

Lemma scan_plain cs : forall i st,
  Forall plain cs -> endPos st <> -1 -> startDot st = -1 -> scan cs i st = st.
Proof.
  induction cs as [|c cs IH]; intros i st Hcs Hend Hdot; [reflexivity|].
  inversion Hcs as [|c' cs' [Hs Hd] Hrest]; subst.
  simpl. rewrite Hs, Hd.
  apply Z.eqb_neq in Hend. rewrite Hend.
  rewrite Hdot. simpl. apply IH; try assumption.
  apply Z.eqb_neq. exact Hend.
Qed.

Lemma scan_plain_first c cs i :
  Forall plain (c :: cs) -> 0 <= i ->
  scan (c :: cs) i scanInit
  = {| startDot := -1; startPart := 0; endPos := i + 1;
       matchedSlash := false; preDotState := 0 |}.
Proof.
  intros Hcs Hi. inversion Hcs as [|c' cs' [Hs Hd] Hrest]; subst.
  simpl. rewrite Hs, Hd. simpl.
  apply scan_plain; simpl; [assumption|lia|reflexivity].
Qed.

Lemma scan_app a : forall b i st,
  Forall (fun c => Ascii.eqb c slash = false) a ->
  scan (a ++ b) i st = scan b (i - Z.of_nat (List.length a)) (scan a i st).
Proof.
  induction a as [|c a IH]; intros b i st Ha.
  - simpl. f_equal. lia.
  - inversion Ha as [|c' a' Hs Hrest]; subst.
    cbn [app List.length scan]. rewrite Hs.
    rewrite IH by assumption. f_equal. lia.
Qed.

Lemma scan_after_dot cs : forall i st,
  Forall (fun c => Ascii.eqb c slash = false) cs ->
  endPos st <> -1 -> startDot st <> -1 ->
  preDotState st <> 0 \/ cs <> [] ->
  let st' := scan cs i st in
  startDot st' = startDot st /\ startPart st' = startPart st
  /\ endPos st' = endPos st /\ preDotState st' <> 0.
Proof.
  induction cs as [|c cs IH]; intros i st Hcs Hend Hdot Hpd; cbv zeta.
  - simpl. repeat split. destruct Hpd as [H|H]; [exact H|contradiction].
  - inversion Hcs as [|c' cs' Hs Hrest]; subst.
    cbn [scan]. rewrite Hs.
    apply Z.eqb_neq in Hend. rewrite Hend.
    apply Z.eqb_neq in Hdot. rewrite Hdot. cbn [negb].
    apply Z.eqb_neq in Hend. apply Z.eqb_neq in Hdot.
    destruct (Ascii.eqb c dot).
    + destruct (preDotState st =? 1) eqn:Hone; cbn [negb].
      * apply Z.eqb_eq in Hone.
        assert (Hnz : preDotState st <> 0) by lia.
        destruct (IH (i - 1) st Hrest Hend Hdot (or_introl Hnz)) as (A & B & C & D).
        repeat split; assumption.
      * match goal with |- context [scan cs (i - 1) ?s] =>
          assert (Hnz : preDotState s <> 0) by (simpl; lia);
          destruct (IH (i - 1) s Hrest Hend Hdot (or_introl Hnz))
            as (A & B & C & D) end.
        simpl in *. repeat split; assumption.
    + match goal with |- context [scan cs (i - 1) ?s] =>
        assert (Hnz : preDotState s <> 0) by (simpl; lia);
        destruct (IH (i - 1) s Hrest Hend Hdot (or_introl Hnz))
          as (A & B & C & D) end.
      simpl in *. repeat split; assumption.
Qed.

Lemma noneOf_slash s :
  noneOf ["/"%char] s = true ->
  Forall (fun c => Ascii.eqb c slash = false) (list_ascii_of_string s).
Proof.
  unfold noneOf. intros H. apply Forall_forall. intros c Hc.
  rewrite forallb_forall in H. specialize (H c Hc). simpl in H.
  destruct (Ascii.eqb c "/") eqn:Hs; [discriminate|exact Hs].
Qed.

Lemma noneOf_plain s :
  noneOf ["."%char; "/"%char] s = true -> Forall plain (list_ascii_of_string s).
Proof.
  unfold noneOf. intros H. apply Forall_forall. intros c Hc.
  rewrite forallb_forall in H. specialize (H c Hc). simpl in H.
  unfold plain, slash, dot.
  destruct (Ascii.eqb c "."); [discriminate|].
  destruct (Ascii.eqb c "/"); [discriminate|]. split; reflexivity.
Qed.

Lemma length_chars s : List.length (list_ascii_of_string s) = String.length s.
Proof. induction s; simpl; congruence. Qed.

Lemma scan_dot rest i st :
  startDot st = -1 -> endPos st <> -1 ->
  scan (dot :: rest) i st
  = scan rest (i - 1)
      {| startDot := i; startPart := startPart st; endPos := endPos st;
         matchedSlash := matchedSlash st; preDotState := preDotState st |}.
Proof.
  intros Hdot Hend. cbn [scan].
  replace (Ascii.eqb dot slash) with false by reflexivity.
  replace (Ascii.eqb dot dot) with true by reflexivity.
  apply Z.eqb_neq in Hend. rewrite Hend, Hdot. reflexivity.
Qed.

Lemma length_append a b : String.length (a ++ b) = (String.length a + String.length b)%nat.
Proof. induction a as [|c a IH]; simpl; [reflexivity|]. rewrite IH. reflexivity. Qed.

(** The backward scan of a stem followed by an extension stops with the
    dot of the extension and the end of the name marked. *)
Lemma scan_name stem ext :
  isStem stem = true -> isExtension ext = true ->
  let path := stem ++ ext in
  let st := scan (rev (list_ascii_of_string path))
                 (Z.of_nat (String.length path) - 1) scanInit in
  startDot st = Z.of_nat (String.length stem)
  /\ startPart st = 0
  /\ endPos st = Z.of_nat (String.length path)
  /\ noExtension st = false.
Proof.
  unfold isStem, isExtension. intros Hstem Hext.
  apply andb_true_iff in Hstem. destruct Hstem as [Hne Hslash].
  destruct ext as [|c e']; [discriminate|].
  apply andb_true_iff in Hext. destruct Hext as [Hext Hplain].
  apply andb_true_iff in Hext. destruct Hext as [Hc He'].
  apply Ascii.eqb_eq in Hc. subst c.
  apply noneOf_slash in Hslash. apply noneOf_plain in Hplain.
  assert (Hs : (0 < String.length stem)%nat)
    by (destruct stem; [discriminate|simpl; lia]).
  assert (He : (0 < String.length e')%nat)
    by (destruct e'; [discriminate|simpl; lia]).
  clear Hne He'. cbv zeta.
  set (len := Z.of_nat (String.length (stem ++ String "." e'))).
  assert (Hlen : len = Z.of_nat (String.length stem) + 1 + Z.of_nat (String.length e')).
  { unfold len. rewrite length_append. cbn [String.length]. lia. }
  clearbody len.
  rewrite chars_app. cbn [list_ascii_of_string].
  rewrite rev_app_distr. cbn [rev]. rewrite <- app_assoc. cbn [app].
  rewrite scan_app by (apply Forall_rev; eapply Forall_impl; [|exact Hplain];
                       intros a [Ha _]; exact Ha).
  rewrite length_rev, length_chars.
  assert (Hphase1 : scan (rev (list_ascii_of_string e')) (len - 1) scanInit
                    = {| startDot := -1; startPart := 0; endPos := len;
                         matchedSlash := false; preDotState := 0 |}).
  { destruct (rev (list_ascii_of_string e')) as [|r rs] eqn:Hrev.
    - apply (f_equal (@List.length _)) in Hrev.
      rewrite length_rev, length_chars in Hrev. simpl in Hrev. lia.
    - replace len with (len - 1 + 1) at 2 by lia.
      apply scan_plain_first; [|lia].
      rewrite <- Hrev. apply Forall_rev. exact Hplain. }
  rewrite Hphase1. clear Hphase1.
  change "."%char with dot.
  rewrite scan_dot by (cbn [startDot endPos]; lia).
  cbn [endPos startDot startPart matchedSlash preDotState].
  match goal with |- context [scan _ ?i ?s] =>
    destruct (scan_after_dot (rev (list_ascii_of_string stem)) i s) as (A & B & C & D);
      [ apply Forall_rev; exact Hslash
      | cbn [endPos]; lia | cbn [startDot]; lia
      | right; intros Hnil; apply (f_equal (@List.length _)) in Hnil;
        rewrite length_rev, length_chars in Hnil; simpl in Hnil; lia
      | set (st := scan (rev (list_ascii_of_string stem)) i s) in * ]
  end.
  cbn [startDot startPart endPos] in A, B, C.
  unfold noExtension. rewrite A, B, C.
  replace (len - 1 - Z.of_nat (String.length e') =? -1) with false
    by (symmetry; apply Z.eqb_neq; lia).
  replace (preDotState st =? 0) with false by (symmetry; apply Z.eqb_neq; exact D).
  replace (len - 1 - Z.of_nat (String.length e') =? len - 1) with false
    by (symmetry; apply Z.eqb_neq; lia).
  rewrite andb_false_r. repeat split; lia.
Qed.

Lemma substring_suffix s t : substring (String.length s) (String.length t) (s ++ t) = t.
Proof.
  induction s as [|c s IH]; simpl; [|exact IH].
  induction t as [|c t IHt]; simpl; [reflexivity|]. rewrite IHt. reflexivity.
Qed.

(** [path.parse(f).name] is the stem and [path.extname(f)] the extension. *)
Lemma parse_name_stem stem ext :
  isStem stem = true -> isExtension ext = true ->
  parse_name (stem ++ ext) = stem.
Proof.
  intros Hstem Hext.
  destruct (scan_name stem ext Hstem Hext) as (A & B & C & D).
  unfold parse_name.
  destruct stem as [|c0 tail]; [discriminate|].
  assert (Hc0 : Ascii.eqb c0 slash = false).
  { unfold isStem in Hstem. apply andb_true_iff in Hstem. destruct Hstem as [_ Hslash].
    apply noneOf_slash in Hslash. inversion Hslash; assumption. }
  change (String c0 tail ++ ext) with (String c0 (tail ++ ext)) in *.
  cbv beta iota. rewrite Hc0.
  set (st := scan _ _ scanInit) in *.
  rewrite C, D, B, A.
  replace (Z.of_nat (String.length (String c0 (tail ++ ext))) =? -1) with false
    by (symmetry; apply Z.eqb_neq; lia).
  cbn [andb Z.eqb].
  unfold Js.slice.
  replace (Z.to_nat 0) with 0%nat by reflexivity.
  replace (Z.to_nat (Z.of_nat (String.length (String c0 tail)) - 0))
    with (String.length (String c0 tail)) by lia.
  apply (substring_prefix (String c0 tail) ext).
Qed.

Lemma extname_stem stem ext :
  isStem stem = true -> isExtension ext = true ->
  extname (stem ++ ext) = ext.
Proof.
  intros Hstem Hext.
  destruct (scan_name stem ext Hstem Hext) as (A & B & C & D).
  unfold extname.
  set (st := scan _ _ scanInit) in *.
  rewrite D, C, A.
  replace (Z.of_nat (String.length (stem ++ ext)) =? -1) with false
    by (symmetry; apply Z.eqb_neq; lia).
  cbn [orb]. unfold Js.slice.
  rewrite Nat2Z.id.
  replace (Z.to_nat (Z.of_nat (String.length (stem ++ ext)) - Z.of_nat (String.length stem)))
    with (String.length ext) by (rewrite length_append; lia).
  apply substring_suffix.
Qed.

End FileNames.

(** ** The output name *)

Example video_files :
  map isVideoFile ["clip.mp4"; "CLIP.MKV"; "a.b.Avi"; "notes.txt"; "cover.jpg";
                   ".mp4"; "song.mp3"; "noext"; "x.wmv"; "y.flvx"]
  = [true; true; true; false; false; false; false; false; true; false].
Proof. vm_compute. reflexivity. Qed.

(** C8 — for any preset [p] and any input file [f], the output name is
    [stem(f)], the [name] that [path.parse] gives, followed by
    [p.outputExtension]; this is the name the engine is called with, next
    to the input path and the options of the preset; and for a file name
    made of a stem and an extension the output name is the stem followed by
    the extension of the preset, whatever the extension of the file is. *)
Theorem output_name_is_stem_plus_extension E v p total i file counts h :
  outputName (Own p) file = Path.parse_name file ++ outputExtension p
  /\ (forall input options output run,
         In (Ffmpeg input options output run)
            (trace (processFile E v (Own p) total i file counts) h) ->
         input = Path.join (inputDir E) file
         /\ options = Some (cli p)
         /\ output = Path.join (outputDir E)
                       (Path.parse_name file ++ outputExtension p))
  /\ (forall stem ext,
         isStem stem = true -> isExtension ext = true -> file = stem ++ ext ->
         outputName (Own p) file = stem ++ outputExtension p).
Proof.
  split; [reflexivity|]. split.
  - intros input options output run Hin.
    destruct counts as [s f].
    pose proof (processFile_report E v (Own p) total i file s f h) as R.
    cbv zeta in R.
    apply In_jobEvents in Hin; [|reflexivity].
    remember (result (processFile E v (Own p) total i file (s, f)) h) as c eqn:Hc.
    remember (consoleLines (trace (processFile E v (Own p) total i file (s, f)) h))
      as l eqn:Hl.
    remember (jobEvents (trace (processFile E v (Own p) total i file (s, f)) h))
      as e eqn:He.
    clear Hc Hl He.
    destruct R; simpl in Hin;
      repeat (destruct Hin as [Hin|Hin]; try discriminate);
      try contradiction;
      injection Hin as <- <- <- _; repeat split.
  - intros stem ext Hstem Hext ->.
    unfold outputName. rewrite (parse_name_stem stem ext Hstem Hext). reflexivity.
Qed.

Lemma output_name_is_stem_plus_extension_witness :
  let p := {| cli := ["-vn"; "-c:a"; "libmp3lame"; "-q:a"; "2"];
              outputExtension := ".mp3" |} in
  let job := processFile Reference.clipAndNotes English (Own p) 1 0 "clip.mp4"
               (0%N, 0%N) in
  In (Ffmpeg "/app/input/clip.mp4" (Some (cli p)) "/app/output/clip.mp3"
        Reference.engineOk) (trace job [])
  /\ "/app/output/clip.mp3"
     = Path.join (outputDir Reference.clipAndNotes)
         (Path.parse_name "clip.mp4" ++ outputExtension p)
  /\ outputName (Own p) "clip.mp4" = "clip" ++ ".mp3"
  /\ outputName (Own p) "clip.mkv" = outputName (Own p) "clip.mp4".
Proof.
  intros p job.
  destruct (output_name_is_stem_plus_extension Reference.clipAndNotes English p
              1 0 "clip.mp4" (0%N, 0%N) []) as (_ & Hjob & Hstem).
  assert (Hin : In (Ffmpeg "/app/input/clip.mp4" (Some (cli p)) "/app/output/clip.mp3"
                      Reference.engineOk) (trace job []))
    by (vm_compute; in_list).
  split; [exact Hin|].
  destruct (Hjob _ _ _ _ Hin) as (_ & _ & Hout).
  split; [exact Hout|]. split.
  - exact (Hstem "clip" ".mp4" eq_refl eq_refl eq_refl).
  - destruct (output_name_is_stem_plus_extension Reference.clipAndNotes English p
                1 0 "clip.mkv" (0%N, 0%N) []) as (_ & _ & Hstem').
    rewrite (Hstem' "clip" ".mkv" eq_refl eq_refl eq_refl).
    rewrite (Hstem "clip" ".mp4" eq_refl eq_refl eq_refl). reflexivity.
Defined.

(** The scenario of the specification, end to end: one job, for the clip;
    the five options of the preset; the output [clip.mp3]; one success and
    no failure. *)
Example extract_audio_scenario :
  let run := trace (convertVideos Reference.clipAndNotes English "extract_audio") [] in
  jobEvents run
  = [Ffprobe "/app/input/clip.mp4" (inr (Reference.media 5000000));
     Ffmpeg "/app/input/clip.mp4" (Some ["-vn"; "-c:a"; "libmp3lame"; "-q:a"; "2"])
       "/app/output/clip.mp3" Reference.engineOk;
     Ffprobe "/app/output/clip.mp3" (inr (Reference.media 500000))]
  /\ In "    Size Change: -90.00% (from 4.77 MB to 488.28 KB)" (consoleLines run)
  /\ In "Successful: 1" (consoleLines run)
  /\ In "Failed / Skipped: 0" (consoleLines run).
Proof. vm_compute. repeat split; in_list. Qed.

(** * Further properties

    Properties of the script beyond the statements above: the order of the
    calls to the engine, the discipline of the log, the outcomes of a turn
    that the statements above leave out, the selection of the videos, the
    name of the log file and the entry point. *)

(** ** Properties of traces that compose *)

Lemma holds_bind Q {A B} (m : M A) (f : A -> M B) :
  additive Q -> holds Q m -> (forall a, holds Q (f a)) -> holds Q (bind m f).
Proof.
  intros [_ Happ] Hm Hf h. rewrite trace_bind. apply Happ; [apply Hm|apply Hf].
Qed.

Lemma holds_ret Q {A} (a : A) : additive Q -> holds Q (ret a).
Proof. intros [Hnil _] h. exact Hnil. Qed.

Lemma Logged_app E v a b : Logged E v a -> Logged E v b -> Logged E v (a ++ b).
Proof.
  intros Ha Hb. induction Ha as [|d m r rest Hrest IH|file c rest Hrest IH|e rest He Hrest IH].
  - exact Hb.
  - cbn [app]. rewrite <- app_assoc. apply LoggedEntry. exact IH.
  - cbn [app]. apply LoggedCommand. exact IH.
  - cbn [app]. apply LoggedOther; assumption.
Qed.

Lemma Logged_additive E v : additive (Logged E v).
Proof. split; [apply LoggedNil|apply Logged_app]. Qed.

Lemma logInfo_trace E message h :
  exists r,
    trace (logInfo E message) h
    = NewDate (Date_now E h) :: ConsoleLog message
      :: AppendFile (logFileName E)
           (toISOString (Date_now E h) ++ ": " ++ message ++ newline) r
      :: reportOf r.
Proof.
  with_strategy transparent [logInfo newDate]
    (unfold logInfo, newDate, trace, bind, observe, emit, ret; simpl).
  destruct (fs_appendFile E _ _ _) as [err|] eqn:Hr; eexists;
    [ instantiate (1 := Some err) | instantiate (1 := None) ]; reflexivity.
Qed.

Lemma logInfo_Logged E v message : holds (Logged E v) (logInfo E message).
Proof.
  intros h. destruct (logInfo_trace E message h) as [r ->].
  rewrite <- (app_nil_r (reportOf r)). apply LoggedEntry. apply LoggedNil.
Qed.

Ltac walk prims :=
  repeat first
    [ apply holds_ret; prims
    | prims
    | apply holds_bind; [ prims | | intros ]
    | match goal with
      | |- holds _ (match ?x with _ => _ end) => destruct x
      end ].

Lemma Logged_one E v e : isLogEvent e = false -> Logged E v [e].
Proof. intros H. apply LoggedOther; [exact H|apply LoggedNil]. Qed.

Lemma newDate_Logged E v : holds (Logged E v) (newDate E).
Proof. intros h. rewrite newDate_trace. apply Logged_one. reflexivity. Qed.

Lemma getFileStats_Logged E v path : holds (Logged E v) (getFileStats E path).
Proof. intros h. rewrite getFileStats_trace. apply Logged_one. reflexivity. Qed.

Lemma mkdir_Logged E v path : holds (Logged E v) (mkdir E path).
Proof. intros h. rewrite mkdir_trace. apply Logged_one. reflexivity. Qed.

Lemma readdir_Logged E v path : holds (Logged E v) (readdir E path).
Proof. intros h. rewrite readdir_trace. apply Logged_one. reflexivity. Qed.

Lemma emit_Logged E v e : isLogEvent e = false -> holds (Logged E v) (emit e).
Proof. intros H h. apply Logged_one. exact H. Qed.

Lemma observe_holds Q {A} (f : list Event -> A) : additive Q -> holds Q (observe f).
Proof. intros [Hnil _] h. exact Hnil. Qed.

Lemma onEvents_Logged E v file es : holds (Logged E v) (onEvents v file es).
Proof.
  induction es as [|e es IH]; simpl onEvents.
  - apply holds_ret, Logged_additive.
  - apply holds_bind; [apply Logged_additive| |intros; exact IH].
    destruct e as [c|[p|]]; unfold onEvent.
    + intros h. apply LoggedCommand, LoggedNil.
    + destruct (ToBoolean (JsNumber p)).
      * apply emit_Logged. reflexivity.
      * apply holds_ret, Logged_additive.
    + apply holds_ret, Logged_additive.
Qed.

Lemma convert_Logged E v file input options output :
  holds (Logged E v) (convert E v file input options output).
Proof.
  with_strategy transparent [convert] (unfold convert).
  apply holds_bind; [apply Logged_additive|apply observe_holds, Logged_additive|intros run].
  apply holds_bind; [apply Logged_additive|apply emit_Logged; reflexivity|intros _].
  apply holds_bind; [apply Logged_additive|apply onEvents_Logged|intros _].
  apply holds_bind; [apply Logged_additive|apply emit_Logged; reflexivity|intros _].
  apply holds_ret, Logged_additive.
Qed.

Ltac logged :=
  first [ apply Logged_additive | apply logInfo_Logged | apply newDate_Logged
        | apply getFileStats_Logged | apply mkdir_Logged | apply readdir_Logged
        | apply convert_Logged ].

Lemma logStats_Logged E v stats : holds (Logged E v) (logStats E stats).
Proof. with_strategy transparent [logStats] (unfold logStats). walk logged. Qed.

Lemma logSummary_Logged E v counts : holds (Logged E v) (logSummary E v counts).
Proof.
  with_strategy transparent [logSummary] (unfold logSummary). walk logged.
Qed.

Lemma processFile_Logged E v preset total i file counts :
  holds (Logged E v) (processFile E v preset total i file counts).
Proof.
  destruct counts as [s f]. with_strategy transparent [processFile] (unfold processFile).
  walk ltac:(first [logged | apply logStats_Logged]).
Qed.

Lemma processFiles_Logged E v preset total files : forall i counts,
  holds (Logged E v) (processFiles E v preset total i files counts).
Proof.
  induction files as [|file rest IH]; intros i counts; simpl processFiles.
  - apply holds_ret, Logged_additive.
  - apply holds_bind; [apply Logged_additive|apply processFile_Logged|intros; apply IH].
Qed.

Lemma listInput_Logged E v : holds (Logged E v) (listInput E).
Proof. unfold listInput. walk logged. Qed.

Theorem convertVideos_Logged E v presetName h :
  Logged E v (trace (convertVideos E v presetName) h).
Proof.
  revert h. change (holds (Logged E v) (convertVideos E v presetName)).
  unfold convertVideos.
  walk ltac:(first [logged | apply listInput_Logged | apply logSummary_Logged
                   | apply processFiles_Logged]).
Qed.

(** ** The runs that succeed, turn after turn *)

Lemma successfulRuns_app a b :
  successfulRuns (a ++ b) = (successfulRuns a + successfulRuns b)%N.
Proof. unfold successfulRuns. rewrite filter_app, length_app. lia. Qed.

Lemma successfulRuns_jobEvents h : successfulRuns (jobEvents h) = successfulRuns h.
Proof.
  unfold successfulRuns, jobEvents. f_equal. f_equal.
  induction h as [|e h IH]; [reflexivity|].
  destruct e; simpl; try exact IH.
  destruct (failure run); simpl; rewrite IH; reflexivity.
Qed.

Lemma JobReport_successful E v preset total i file s f c e l :
  JobReport E v preset total i file s f c e l ->
  (fst c = s + successfulRuns e /\ snd c + successfulRuns e = f + 1)%N.
Proof.
  destruct 1; unfold successfulRuns; simpl;
    try match goal with H : failure _ = _ |- _ => rewrite H end; simpl; lia.
Qed.

Lemma LoopReport_successful E v preset total i files c c' es ls :
  LoopReport E v preset total i files c c' es ls ->
  (fst c' = fst c + successfulRuns es
   /\ snd c' + successfulRuns es = snd c + N.of_nat (List.length files))%N.
Proof.
  induction 1 as [|i file rest s f c1 c2 block lines blocks lines' HJ HL [IH1 IH2]].
  - change (successfulRuns []) with 0%N. simpl List.length. lia.
  - apply JobReport_successful in HJ. destruct HJ as [J1 J2].
    rewrite successfulRuns_app. simpl List.length. rewrite Nat2N.inj_succ.
    simpl fst in *. simpl snd in *. lia.
Qed.

(** ** The session, step by step *)

Lemma convertVideos_session E v presetName h :
  let run := trace (convertVideos E v presetName) h in
  match getProperty (PRESETS v) presetName with
  | None => directoryEvents run = [] /\ jobEvents run = []
  | Some preset =>
      exists h1,
        directoryEvents run = trace (listInput E) h1
        /\ match result (listInput E) h1 with
           | inl message =>
               consoleLines run
               = [Msg.sessionStart v presetName; Msg.directoryError v message]
               /\ jobEvents run = []
           | inr files =>
               exists h2,
                 let videoFiles := filter isVideoFile files in
                 let total := N.of_nat (List.length videoFiles) in
                 let loop := processFiles E v preset total 0 videoFiles (0%N, 0%N) in
                 jobEvents run = jobEvents (trace loop h2)
                 /\ (videoFiles <> [] ->
                     consoleLines run
                     = ([Msg.sessionStart v presetName; Msg.foundFiles v total]
                        ++ consoleLines (trace loop h2)
                        ++ [Msg.sessionFinished v;
                            Msg.successful v (fst (result loop h2));
                            Msg.failedOrSkipped v (snd (result loop h2));
                            Msg.logsSavedTo v (logFileName E)])%list)
           end
  end.
Proof.
  cbv zeta. unfold convertVideos. go.
  destruct (getProperty (PRESETS v) presetName) as [preset|] eqn:Hpreset.
  - next. exists l.
    pose proof (listInput_report E l) as L.
    destruct (ListReport_events _ _ _ L) as (Lc & Lj & Ld).
    rewrite Lc, Lj, Ld.
    destruct (result (listInput E) l) as [message|files] eqn:Hlist.
    + forget. last_step. cbn [app]. rewrite app_nil_r.
      split; [reflexivity|]. split; reflexivity.
    + generalize (l ++ trace (listInput E) l)%list. intros l0.
      destruct (N.of_nat (List.length (filter isVideoFile files)) =? 0)%N eqn:Hzero.
      * last_step. cbn [app]. rewrite app_nil_r. split; [reflexivity|].
        exists []. apply N.eqb_eq in Hzero.
        destruct (filter isVideoFile files); [|discriminate].
        split; [reflexivity|]. intros H; contradiction H; reflexivity.
      * go. next.
        rewrite logSummary_console, logSummary_job, logSummary_directory,
          processFiles_directory.
        cbn [app]. rewrite !app_nil_r. split; [reflexivity|].
        exists l1. split; [reflexivity|]. intros _. reflexivity.
  - go. last_step. split; reflexivity.
Qed.

Lemma In_run_directory e h : In e (directoryEvents h) -> In e h.
Proof. intros H. apply filter_In in H. tauto. Qed.

(** A session that lists the input directory knows its preset and runs
    the loop over the videos of the listing. *)
Lemma convertVideos_loop E v presetName h p files :
  let run := trace (convertVideos E v presetName) h in
  In (Readdir p (inr files)) run ->
  exists preset h',
    getProperty (PRESETS v) presetName = Some preset
    /\ p = inputDir E
    /\ let videoFiles := filter isVideoFile files in
       let total := N.of_nat (List.length videoFiles) in
       let loop := processFiles E v preset total 0 videoFiles (0%N, 0%N) in
       jobEvents run = jobEvents (trace loop h')
       /\ (videoFiles <> [] ->
           consoleLines run
           = ([Msg.sessionStart v presetName; Msg.foundFiles v total]
              ++ consoleLines (trace loop h')
              ++ [Msg.sessionFinished v; Msg.successful v (fst (result loop h'));
                  Msg.failedOrSkipped v (snd (result loop h'));
                  Msg.logsSavedTo v (logFileName E)])%list).
Proof.
  cbv zeta. intros Hin.
  apply In_directoryEvents in Hin; [|reflexivity].
  pose proof (convertVideos_session E v presetName h) as S. cbv zeta in S.
  destruct (getProperty (PRESETS v) presetName) as [preset|].
  - destruct S as (h1 & Hd & S). rewrite Hd in Hin.
    pose proof (listInput_report E h1) as L.
    destruct (result (listInput E) h1) as [message|files0].
    + destruct (ListReport_failed _ _ _ L _ _ Hin).
    + rewrite (ListReport_read _ _ _ L) in Hin.
      simpl in Hin. destruct Hin as [Hin|[Hin|[Hin|[]]]]; try discriminate.
      injection Hin as <- <-.
      destruct S as (h2 & S). exists preset, h2. split; [reflexivity|].
      split; [reflexivity|]. exact S.
  - destruct S as (Hd & _). rewrite Hd in Hin. destruct Hin.
Qed.

(** Conversely, a session with a call to the engine has listed the input
    directory. *)
Lemma convertVideos_listed E v presetName h e :
  let run := trace (convertVideos E v presetName) h in
  In e run -> isJobEvent e = true ->
  exists files, In (Readdir (inputDir E) (inr files)) run.
Proof.
  cbv zeta. intros Hin He.
  apply In_jobEvents in Hin; [|exact He].
  pose proof (convertVideos_session E v presetName h) as S. cbv zeta in S.
  destruct (getProperty (PRESETS v) presetName) as [preset|].
  - destruct S as (h1 & Hd & S).
    pose proof (listInput_report E h1) as L.
    destruct (result (listInput E) h1) as [message|files].
    + destruct S as (_ & Hj). rewrite Hj in Hin. destruct Hin.
    + exists files. apply In_run_directory. rewrite Hd, (ListReport_read _ _ _ L).
      in_list.
  - destruct S as (_ & Hj). rewrite Hj in Hin. destruct Hin.
Qed.

Lemma JobBlock_event E preset file block e :
  JobBlock E preset file block -> In e block -> JobEventOf E preset file e.
Proof.
  unfold JobBlock, JobEventOf.
  intros [(m & ->)|[(md & run & m & _ & ->)|(md & run & r & _ & ->)]] Hin;
    simpl in Hin.
  - destruct Hin as [<-|[]]. left. eexists; reflexivity.
  - destruct Hin as [<-|[<-|[]]].
    + left. eexists; reflexivity.
    + right; left. eexists; reflexivity.
  - destruct Hin as [<-|[<-|[<-|[]]]].
    + left. eexists; reflexivity.
    + right; left. eexists; reflexivity.
    + right; right. eexists; reflexivity.
Qed.

Lemma blocks_event (P : string -> list Event -> Prop) files blocks e :
  Forall2 P files blocks -> In e (List.concat blocks) ->
  exists file block, In file files /\ P file block /\ In e block.
Proof.
  induction 1 as [|file block files blocks HP HF IH]; simpl; [intros []|].
  intros Hin. apply in_app_or in Hin. destruct Hin as [Hin|Hin].
  - exists file, block. split; [left; reflexivity|]. split; assumption.
  - destruct (IH Hin) as (f & b & Hf & Hb & He).
    exists f, b. split; [right; exact Hf|]. split; assumption.
Qed.

Lemma jobs_blocks_of_listing E v presetName h p files :
  let run := trace (convertVideos E v presetName) h in
  In (Readdir p (inr files)) run ->
  exists preset blocks,
    getProperty (PRESETS v) presetName = Some preset
    /\ jobEvents run = List.concat blocks
    /\ Forall2 (JobBlock E preset) (filter isVideoFile files) blocks.
Proof.
  intros run Hin.
  destruct (convertVideos_loop E v presetName h p files Hin)
    as (preset & h' & Hp & _ & Hj & _).
  fold run in Hj. cbv zeta in Hj.
  pose proof (processFiles_loop E v preset
                (N.of_nat (List.length (filter isVideoFile files)))
                (filter isVideoFile files) 0%N (0, 0)%N h') as L.
  cbv zeta in L. apply LoopReport_blocks in L. destruct L as (blocks & Hb & HF).
  exists preset, blocks. split; [exact Hp|]. split; [|exact HF].
  rewrite Hj. exact Hb.
Qed.

(** ** The calls to the engine during a session *)

(** X1 — the calls to the engine during a session come in blocks, one for
    each video of the listing and in the order of the listing: the probe of
    the source alone when it fails; the probe and the conversion when the
    conversion fails; the probe, the conversion and the probe of the result
    otherwise.  So every video is probed exactly once as a source, converted
    at most once, and the calls for one file never mix with the calls for
    another. *)
Theorem jobs_follow_the_listing E v presetName h p files :
  let run := trace (convertVideos E v presetName) h in
  In (Readdir p (inr files)) run ->
  exists preset blocks,
    getProperty (PRESETS v) presetName = Some preset
    /\ jobEvents run = List.concat blocks
    /\ Forall2 (JobBlock E preset) (filter isVideoFile files) blocks.
Proof. exact (jobs_blocks_of_listing E v presetName h p files). Qed.

Lemma jobs_follow_the_listing_witness :
  let run := trace (convertVideos Reference.mixed English "web_h264") [] in
  In (Readdir "/app/input" (inr ["bad.mkv"; "clip.mp4"; "old.avi"])) run
  /\ exists preset blocks,
       getProperty (PRESETS English) "web_h264" = Some preset
       /\ jobEvents run = List.concat blocks
       /\ Forall2 (JobBlock Reference.mixed preset)
            (filter isVideoFile ["bad.mkv"; "clip.mp4"; "old.avi"]) blocks.
Proof.
  intros run.
  assert (Hin : In (Readdir "/app/input" (inr ["bad.mkv"; "clip.mp4"; "old.avi"])) run)
    by (vm_compute; in_list).
  split; [exact Hin|].
  exact (jobs_follow_the_listing Reference.mixed English "web_h264" []
           "/app/input" ["bad.mkv"; "clip.mp4"; "old.avi"] Hin).
Defined.

(** X2 — in the summary of a session that processed files, the number of
    successes is the number of engine runs that ended without an error, and
    the number of failed or skipped files is the number of videos of the
    listing less that number; the two lines follow the line that announces
    the number of videos found. *)
Theorem summary_counts_engine_outcomes E v presetName h p files :
  let run := trace (convertVideos E v presetName) h in
  let total := N.of_nat (List.length (filter isVideoFile files)) in
  In (Readdir p (inr files)) run ->
  filter isVideoFile files <> [] ->
  (successfulRuns run <= total)%N
  /\ exists lines,
       consoleLines run
       = ([Msg.sessionStart v presetName; Msg.foundFiles v total]
          ++ lines
          ++ [Msg.sessionFinished v;
              Msg.successful v (successfulRuns run);
              Msg.failedOrSkipped v (total - successfulRuns run);
              Msg.logsSavedTo v (logFileName E)])%list.
Proof.
  intros run total Hin Hsome.
  destruct (convertVideos_loop E v presetName h p files Hin)
    as (preset & h' & Hp & _ & Hj & Hl).
  fold run in Hj, Hl. cbv zeta in Hj, Hl. specialize (Hl Hsome).
  pose proof (processFiles_loop E v preset
                (N.of_nat (List.length (filter isVideoFile files)))
                (filter isVideoFile files) 0%N (0, 0)%N h') as L.
  cbv zeta in L. apply LoopReport_successful in L. destruct L as (Hs & Hf).
  rewrite <- Hj, successfulRuns_jobEvents in Hs, Hf. simpl in Hs, Hf.
  fold total in Hs, Hf, Hl.
  set (counts := result _ h') in *.
  split; [lia|].
  eexists. rewrite Hl. rewrite Hs.
  replace (total - successfulRuns run)%N with (snd counts) by lia.
  reflexivity.
Qed.

Lemma summary_counts_engine_outcomes_witness :
  let run := trace (convertVideos Reference.mixed English "web_h264") [] in
  (In (Readdir "/app/input" (inr ["bad.mkv"; "clip.mp4"; "old.avi"])) run
   /\ filter isVideoFile ["bad.mkv"; "clip.mp4"; "old.avi"] <> [])
  /\ successfulRuns run = 1%N
  /\ exists lines,
       consoleLines run
       = ([Msg.sessionStart English "web_h264"; Msg.foundFiles English 3]
          ++ lines
          ++ [Msg.sessionFinished English; Msg.successful English 1;
              Msg.failedOrSkipped English 2;
              Msg.logsSavedTo English (logFileName Reference.mixed)])%list.
Proof.
  intros run.
  assert (Hin : In (Readdir "/app/input" (inr ["bad.mkv"; "clip.mp4"; "old.avi"])) run)
    by (vm_compute; in_list).
  assert (Hsome : filter isVideoFile ["bad.mkv"; "clip.mp4"; "old.avi"] <> [])
    by (vm_compute; discriminate).
  split; [split; assumption|].
  assert (Hruns : successfulRuns run = 1%N) by (vm_compute; reflexivity).
  split; [exact Hruns|].
  destruct (summary_counts_engine_outcomes Reference.mixed English "web_h264" []
              "/app/input" ["bad.mkv"; "clip.mp4"; "old.avi"] Hin Hsome)
    as (_ & lines & Hl).
  fold run in Hl. rewrite Hruns in Hl. exists lines. exact Hl.
Defined.

(** X3 — the engine is only ever called for a video of the listing: every
    probe and every conversion of a session is the probe of the source, the
    conversion or the probe of the result of an entry of the input
    directory that has a video extension; the conversion reads the entry in
    the input directory, gets the options of the preset and writes the
    output name in the output directory. *)
Theorem engine_called_only_for_listed_videos E v presetName h e :
  let run := trace (convertVideos E v presetName) h in
  In e run -> isJobEvent e = true ->
  exists preset files file,
    getProperty (PRESETS v) presetName = Some preset
    /\ In (Readdir (inputDir E) (inr files)) run
    /\ In file files /\ isVideoFile file = true
    /\ JobEventOf E preset file e.
Proof.
  intros run Hin He.
  destruct (convertVideos_listed E v presetName h e Hin He) as (files & Hlist).
  fold run in Hlist.
  destruct (jobs_blocks_of_listing E v presetName h _ files Hlist)
    as (preset & blocks & Hp & Hj & HF).
  fold run in Hj.
  apply In_jobEvents in Hin; [|exact He]. rewrite Hj in Hin.
  destruct (blocks_event _ _ _ _ HF Hin) as (file & block & Hfile & Hblock & Hev).
  apply filter_In in Hfile. destruct Hfile as [Hfile Hvideo].
  exists preset, files, file. repeat split; try assumption.
  exact (JobBlock_event _ _ _ _ _ Hblock Hev).
Qed.

Lemma engine_called_only_for_listed_videos_witness :
  let run := trace (convertVideos Reference.clipAndNotes English "extract_audio") [] in
  let e := Ffmpeg "/app/input/clip.mp4" (Some ["-vn"; "-c:a"; "libmp3lame"; "-q:a"; "2"])
             "/app/output/clip.mp3" Reference.engineOk in
  (In e run /\ isJobEvent e = true)
  /\ exists preset files file,
       getProperty (PRESETS English) "extract_audio" = Some preset
       /\ In (Readdir (inputDir Reference.clipAndNotes) (inr files)) run
       /\ In file files /\ isVideoFile file = true
       /\ JobEventOf Reference.clipAndNotes preset file e.
Proof.
  intros run e.
  assert (Hin : In e run) by (vm_compute; in_list).
  split; [split; [exact Hin|reflexivity]|].
  exact (engine_called_only_for_listed_videos Reference.clipAndNotes English
           "extract_audio" [] e Hin eq_refl).
Defined.

(** X4 — the whole of a session that processes files: its calls to the
    engine and the lines between the line that announces the number of
    videos and the summary are those of the turns of the loop, one turn for
    each video of the listing and in its order, each turn one of the four
    outcomes of a job, starting from the counters at zero; the summary shows
    the counters that the last turn leaves. *)
Theorem session_is_the_turns_of_the_loop E v presetName h p files :
  let run := trace (convertVideos E v presetName) h in
  let videoFiles := filter isVideoFile files in
  let total := N.of_nat (List.length videoFiles) in
  In (Readdir p (inr files)) run ->
  videoFiles <> [] ->
  exists preset counts lines,
    getProperty (PRESETS v) presetName = Some preset
    /\ LoopReport E v preset total 0 videoFiles (0%N, 0%N) counts (jobEvents run) lines
    /\ consoleLines run
       = ([Msg.sessionStart v presetName; Msg.foundFiles v total]
          ++ lines
          ++ [Msg.sessionFinished v; Msg.successful v (fst counts);
              Msg.failedOrSkipped v (snd counts);
              Msg.logsSavedTo v (logFileName E)])%list.
Proof.
  intros run videoFiles total Hin Hsome.
  destruct (convertVideos_loop E v presetName h p files Hin)
    as (preset & h' & Hp & _ & Hj & Hl).
  fold run in Hj, Hl. cbv zeta in Hj, Hl. specialize (Hl Hsome).
  pose proof (processFiles_loop E v preset total videoFiles 0%N (0, 0)%N h') as L.
  cbv zeta in L.
  exists preset. eexists. eexists. split; [exact Hp|]. split.
  - rewrite Hj. exact L.
  - exact Hl.
Qed.

Lemma session_is_the_turns_of_the_loop_witness :
  let run := trace (convertVideos Reference.mixed Russian "web_h264") [] in
  (In (Readdir "/app/input" (inr ["bad.mkv"; "clip.mp4"; "old.avi"])) run
   /\ filter isVideoFile ["bad.mkv"; "clip.mp4"; "old.avi"] <> [])
  /\ exists preset counts lines,
       getProperty (PRESETS Russian) "web_h264" = Some preset
       /\ LoopReport Reference.mixed Russian preset 3 0 ["bad.mkv"; "clip.mp4"; "old.avi"]
            (0%N, 0%N) counts (jobEvents run) lines
       /\ consoleLines run
          = ([Msg.sessionStart Russian "web_h264"; Msg.foundFiles Russian 3]
             ++ lines
             ++ [Msg.sessionFinished Russian; Msg.successful Russian (fst counts);
                 Msg.failedOrSkipped Russian (snd counts);
                 Msg.logsSavedTo Russian (logFileName Reference.mixed)])%list.
Proof.
  intros run.
  assert (Hin : In (Readdir "/app/input" (inr ["bad.mkv"; "clip.mp4"; "old.avi"])) run)
    by (vm_compute; in_list).
  assert (Hsome : filter isVideoFile ["bad.mkv"; "clip.mp4"; "old.avi"] <> [])
    by (vm_compute; discriminate).
  split; [split; assumption|].
  exact (session_is_the_turns_of_the_loop Reference.mixed Russian "web_h264" []
           "/app/input" ["bad.mkv"; "clip.mp4"; "old.avi"] Hin Hsome).
Defined.

(** ** A directory that cannot be created or read *)

(** X5 — when a call to the file system fails (one of the two [mkdir], or
    [readdir]), the session ends there: that call is the last one to the
    file system, all the calls before it succeeded, the console shows the
    first line of the session and the critical error with the message of
    the failure and nothing else, and the engine is not called. *)
Theorem directory_failure_ends_session E v presetName h e message :
  let run := trace (convertVideos E v presetName) h in
  In e run -> failureOf e = Some message ->
  consoleLines run = [Msg.sessionStart v presetName; Msg.directoryError v message]
  /\ jobEvents run = []
  /\ exists before,
       directoryEvents run = (before ++ [e])%list
       /\ Forall (fun e' => failureOf e' = None) before.
Proof.
  intros run Hin Hfail.
  assert (Hd : In e (directoryEvents run)).
  { apply In_directoryEvents; [exact Hin|]. destruct e; try discriminate; reflexivity. }
  pose proof (convertVideos_session E v presetName h) as S. cbv zeta in S. fold run in S.
  destruct (getProperty (PRESETS v) presetName) as [preset|].
  - destruct S as (h1 & Hdirs & S). rewrite Hdirs in Hd |- *.
    pose proof (listInput_report E h1) as L.
    destruct L as [m|m|m|files]; simpl in Hd.
    + destruct Hd as [<-|[]]. injection Hfail as ->.
      destruct S as (Hl & Hj). split; [exact Hl|]. split; [exact Hj|].
      exists []. split; [reflexivity|constructor].
    + destruct Hd as [<-|[<-|[]]]; [discriminate|]. injection Hfail as ->.
      destruct S as (Hl & Hj). split; [exact Hl|]. split; [exact Hj|].
      exists [Mkdir (inputDir E) None]. split; [reflexivity|].
      repeat constructor.
    + destruct Hd as [<-|[<-|[<-|[]]]]; try discriminate. injection Hfail as ->.
      destruct S as (Hl & Hj). split; [exact Hl|]. split; [exact Hj|].
      exists [Mkdir (inputDir E) None; Mkdir (outputDir E) None].
      split; [reflexivity|]. repeat constructor.
    + destruct Hd as [<-|[<-|[<-|[]]]]; discriminate.
  - destruct S as (Hdirs & _). rewrite Hdirs in Hd. destruct Hd.
Qed.

Lemma directory_failure_ends_session_witness :
  let run := trace (convertVideos outputDenied English "web_h264") [] in
  let e := Mkdir "/app/output" (Some "EACCES: permission denied") in
  (In e run /\ failureOf e = Some "EACCES: permission denied")
  /\ consoleLines run
     = [Msg.sessionStart English "web_h264";
        Msg.directoryError English "EACCES: permission denied"]
  /\ jobEvents run = []
  /\ exists before,
       directoryEvents run = (before ++ [e])%list
       /\ Forall (fun e' => failureOf e' = None) before.
Proof.
  intros run e.
  assert (Hin : In e run) by (vm_compute; in_list).
  split; [split; [exact Hin|reflexivity]|].
  exact (directory_failure_ends_session outputDenied English "web_h264" [] e
           "EACCES: permission denied" Hin eq_refl).
Defined.

(** ** The presets offered *)

Lemma getProperty_own o key :
  In key (Object_keys o) ->
  exists p, In (key, p) o /\ getProperty o key = Some (Own p).
Proof.
  intros Hin. unfold getProperty.
  destruct (find (fun kv => String.eqb (fst kv) key) o) as [[k p]|] eqn:Hfind.
  - apply find_some in Hfind. destruct Hfind as [Hp Heq].
    apply String.eqb_eq in Heq. simpl in Heq. subst k.
    exists p. split; [exact Hp|reflexivity].
  - apply in_map_iff in Hin. destruct Hin as ([k p] & Hk & Hp). simpl in Hk. subst k.
    pose proof (find_none _ _ Hfind _ Hp) as Hno. simpl in Hno.
    rewrite String.eqb_refl in Hno. discriminate.
Qed.

(** X6 — every name that the script lists as an available preset is
    accepted and used: a session started with it goes on to create the input
    directory, and every conversion it runs gets the options of the preset
    of that name and writes a file whose name ends with the extension of
    that preset. *)
Theorem listed_preset_is_used E v presetName h :
  let run := trace (convertVideos E v presetName) h in
  In presetName (Object_keys (PRESETS v)) ->
  exists p,
    In (presetName, p) (PRESETS v)
    /\ (exists r rest, directoryEvents run = Mkdir (inputDir E) r :: rest)
    /\ forall input options output r,
         In (Ffmpeg input options output r) run ->
         options = Some (cli p)
         /\ exists file,
              input = Path.join (inputDir E) file
              /\ output = Path.join (outputDir E)
                            (Path.parse_name file ++ outputExtension p).
Proof.
  intros run Hin.
  destruct (getProperty_own _ _ Hin) as (p & Hp & Hget).
  exists p. split; [exact Hp|]. split.
  - pose proof (convertVideos_session E v presetName h) as S. cbv zeta in S. fold run in S.
    rewrite Hget in S. destruct S as (h1 & Hd & _). rewrite Hd.
    destruct (listInput_report E h1); eexists; eexists; reflexivity.
  - intros input options output r He.
    destruct (convertVideos_listed E v presetName h _ He eq_refl) as (files & Hlist).
    destruct (jobs_blocks_of_listing E v presetName h _ files Hlist)
      as (preset & blocks & Hp' & Hj & HF).
    rewrite Hget in Hp'. injection Hp' as <-.
    apply In_jobEvents in He; [|reflexivity]. fold run in Hj. fold run in He.
    rewrite Hj in He.
    destruct (blocks_event _ _ _ _ HF He) as (file & block & _ & Hblock & Hev).
    destruct (JobBlock_event _ _ _ _ _ Hblock Hev) as [(x & Hx)|[(x & Hx)|(x & Hx)]];
      try discriminate.
    injection Hx as -> -> -> _. split; [reflexivity|].
    exists file. split; reflexivity.
Qed.

Lemma listed_preset_is_used_witness :
  let run := trace (convertVideos Reference.clipAndNotes Russian "extract_audio") [] in
  In "extract_audio" (Object_keys (PRESETS Russian))
  /\ exists p,
       In ("extract_audio", p) (PRESETS Russian)
       /\ (exists r rest,
              directoryEvents run = Mkdir (inputDir Reference.clipAndNotes) r :: rest)
       /\ forall input options output r,
            In (Ffmpeg input options output r) run ->
            options = Some (cli p)
            /\ exists file,
                 input = Path.join (inputDir Reference.clipAndNotes) file
                 /\ output = Path.join (outputDir Reference.clipAndNotes)
                               (Path.parse_name file ++ outputExtension p).
Proof.
  intros run.
  assert (Hin : In "extract_audio" (Object_keys (PRESETS Russian)))
    by (vm_compute; in_list).
  split; [exact Hin|].
  exact (listed_preset_is_used Reference.clipAndNotes Russian "extract_audio" [] Hin).
Defined.

(** ** The log file *)

Lemma Logged_append E v run :
  Logged E v run ->
  forall before path data r after,
    run = (before ++ AppendFile path data r :: after)%list ->
    path = logFileName E
    /\ exists before' date message after',
         before = (before' ++ [NewDate date; ConsoleLog message])%list
         /\ data = toISOString date ++ ": " ++ message ++ newline
         /\ after = (reportOf r ++ after')%list.
Proof.
  induction 1 as [|d m r0 rest Hrest IH|file c rest Hrest IH|e rest He Hrest IH];
    intros before path data r after Heq.
  - destruct before; discriminate.
  - destruct before as [|e1 [|e2 [|e3 before]]]; try discriminate.
    + injection Heq; intros; subst. split; [reflexivity|].
      exists [], d, m, rest. repeat split; reflexivity.
    + injection Heq as <- <- <- Heq.
      assert (Hrest' : exists before0,
                 rest = (before0 ++ AppendFile path data r :: after)%list
                 /\ (reportOf r0 ++ before0 = before)%list).
      { destruct r0 as [err|]; simpl in Heq |- *.
        - destruct before as [|e4 before]; [discriminate|].
          injection Heq as <- Heq. exists before. split; [exact Heq|reflexivity].
        - exists before. split; [exact Heq|reflexivity]. }
      destruct Hrest' as (before0 & Hr & <-).
      destruct (IH _ _ _ _ _ Hr) as (Hp & b' & date & message & a' & -> & Hd & Ha).
      split; [exact Hp|].
      exists (NewDate d :: ConsoleLog m
              :: AppendFile (logFileName E) (toISOString d ++ ": " ++ m ++ newline) r0
              :: reportOf r0 ++ b')%list, date, message, a'.
      split; [|split; assumption].
      cbn [app]. rewrite app_assoc. reflexivity.
  - destruct before as [|e1 before]; [discriminate|].
    injection Heq as <- Heq.
    destruct (IH _ _ _ _ _ Heq) as (Hp & b' & date & message & a' & -> & Hd & Ha).
    split; [exact Hp|].
    exists (ConsoleLog (Msg.engineCommand v file c) :: b'), date, message, a'.
    split; [reflexivity|split; assumption].
  - destruct before as [|e1 before].
    + injection Heq as -> _. discriminate.
    + injection Heq as <- Heq.
      destruct (IH _ _ _ _ _ Heq) as (Hp & b' & date & message & a' & -> & Hd & Ha).
      split; [exact Hp|].
      exists (e :: b'), date, message, a'.
      split; [reflexivity|split; assumption].
Qed.

Lemma Logged_console E v run :
  Logged E v run ->
  forall before message after,
    run = (before ++ ConsoleLog message :: after)%list ->
    (exists file command, message = Msg.engineCommand v file command)
    \/ exists before' date r after',
         before = (before' ++ [NewDate date])%list
         /\ after = (AppendFile (logFileName E)
                       (toISOString date ++ ": " ++ message ++ newline) r
                     :: reportOf r ++ after')%list.
Proof.
  induction 1 as [|d m r0 rest Hrest IH|file c rest Hrest IH|e rest He Hrest IH];
    intros before message after Heq.
  - destruct before; discriminate.
  - destruct before as [|e1 [|e2 [|e3 before]]]; try discriminate.
    + injection Heq; intros; subst. right.
      exists [], d, r0, rest. split; reflexivity.
    + injection Heq as <- <- <- Heq.
      assert (Hrest' : exists before0,
                 rest = (before0 ++ ConsoleLog message :: after)%list
                 /\ (reportOf r0 ++ before0 = before)%list).
      { destruct r0 as [err|]; simpl in Heq |- *.
        - destruct before as [|e4 before]; [discriminate|].
          injection Heq as <- Heq. exists before. split; [exact Heq|reflexivity].
        - exists before. split; [exact Heq|reflexivity]. }
      destruct Hrest' as (before0 & Hr & <-).
      destruct (IH _ _ _ Hr) as [Hc|(b' & date & r & a' & -> & Ha)]; [left; exact Hc|].
      right.
      exists (NewDate d :: ConsoleLog m
              :: AppendFile (logFileName E) (toISOString d ++ ": " ++ m ++ newline) r0
              :: reportOf r0 ++ b')%list, date, r, a'.
      split; [|exact Ha].
      cbn [app]. rewrite app_assoc. reflexivity.
  - destruct before as [|e1 before].
    + injection Heq as <- _. left. exists file, c. reflexivity.
    + injection Heq as <- Heq.
      destruct (IH _ _ _ Heq) as [Hc|(b' & date & r & a' & -> & Ha)]; [left; exact Hc|].
      right. exists (ConsoleLog (Msg.engineCommand v file c) :: b'), date, r, a'.
      split; [reflexivity|exact Ha].
  - destruct before as [|e1 before].
    + injection Heq as -> _. discriminate.
    + injection Heq as <- Heq.
      destruct (IH _ _ _ Heq) as [Hc|(b' & date & r & a' & -> & Ha)]; [left; exact Hc|].
      right. exists (e :: b'), date, r, a'.
      split; [reflexivity|exact Ha].
Qed.

Lemma consoleErrors_app a b :
  consoleErrors (a ++ b) = (consoleErrors a ++ consoleErrors b)%list.
Proof. apply flat_map_app. Qed.

Lemma appendFailures_app a b :
  appendFailures (a ++ b) = (appendFailures a ++ appendFailures b)%list.
Proof. apply flat_map_app. Qed.

Lemma Logged_errors E v run :
  Logged E v run ->
  consoleErrors run
  = map (fun err => ("CRITICAL: Failed to write to log file:", err)) (appendFailures run).
Proof.
  induction 1 as [|d m r0 rest Hrest IH|file c rest Hrest IH|e rest He Hrest IH].
  - reflexivity.
  - change (consoleErrors (reportOf r0 ++ rest)
            = map (fun err => ("CRITICAL: Failed to write to log file:", err))
                (appendFailures (AppendFile (logFileName E)
                                   (toISOString d ++ ": " ++ m ++ newline) r0
                                 :: reportOf r0 ++ rest))).
    change (AppendFile ?p ?x r0 :: reportOf r0 ++ rest)%list
      with ([AppendFile p x r0] ++ reportOf r0 ++ rest)%list.
    rewrite consoleErrors_app, !appendFailures_app, !map_app, IH.
    destruct r0; reflexivity.
  - exact IH.
  - destruct e; try discriminate; exact IH.
Qed.

(** X7 — every line written to a file during a session goes to the one log
    file, whose name was fixed when the script was loaded, and is the line
    that was printed on the console just before, after the time stamp that
    was taken just before that, a colon and a space, and followed by a line
    feed; when the write fails the next thing the script does is to report
    it on the error channel. *)
Theorem log_line_is_stamped_console_line E v presetName h before path data r after :
  trace (convertVideos E v presetName) h
  = (before ++ AppendFile path data r :: after)%list ->
  path = logFileName E
  /\ exists before' date message after',
       before = (before' ++ [NewDate date; ConsoleLog message])%list
       /\ data = toISOString date ++ ": " ++ message ++ newline
       /\ after = (reportOf r ++ after')%list.
Proof. apply Logged_append with (v := v). apply convertVideos_Logged. Qed.

Lemma log_line_is_stamped_console_line_witness :
  let run := trace (convertVideos Reference.idle English "nope") [] in
  let line := Msg.sessionStart English "nope" in
  let data := "2026-01-01T00:00:00.000Z: " ++ line ++ newline in
  run = ([NewDate Reference.date; ConsoleLog line]
         ++ AppendFile "/app/process_2026_01_01.log" data None :: skipn 3 run)%list
  /\ "/app/process_2026_01_01.log" = logFileName Reference.idle
  /\ exists before' date message after',
       [NewDate Reference.date; ConsoleLog line]
       = (before' ++ [NewDate date; ConsoleLog message])%list
       /\ data = toISOString date ++ ": " ++ message ++ newline
       /\ skipn 3 run = (reportOf None ++ after')%list.
Proof.
  intros run line data.
  assert (Hrun : run = ([NewDate Reference.date; ConsoleLog line]
                        ++ AppendFile "/app/process_2026_01_01.log" data None
                           :: skipn 3 run)%list)
    by (vm_compute; reflexivity).
  split; [exact Hrun|].
  exact (log_line_is_stamped_console_line Reference.idle English "nope" [] _ _ _ _ _ Hrun).
Defined.

(** X8 — every line that a session prints on the console, the echo of an
    engine command apart, is also written to the log file: the line was
    preceded by the reading of the clock and is followed at once by the
    append of the stamped line to the log file, be the append a success or
    not. *)
Theorem console_line_is_logged E v presetName h before message after :
  trace (convertVideos E v presetName) h
  = (before ++ ConsoleLog message :: after)%list ->
  (exists file command, message = Msg.engineCommand v file command)
  \/ exists before' date r after',
       before = (before' ++ [NewDate date])%list
       /\ after = (AppendFile (logFileName E)
                     (toISOString date ++ ": " ++ message ++ newline) r
                   :: reportOf r ++ after')%list.
Proof. apply Logged_console. apply convertVideos_Logged. Qed.

Lemma console_line_is_logged_witness :
  let run := trace (convertVideos logDenied Russian "web_h264") [] in
  let line := Msg.sessionStart Russian "web_h264" in
  run = ([NewDate Reference.date] ++ ConsoleLog line :: skipn 2 run)%list
  /\ ((exists file command, line = Msg.engineCommand Russian file command)
      \/ exists before' date r after',
           [NewDate Reference.date] = (before' ++ [NewDate date])%list
           /\ skipn 2 run
              = (AppendFile (logFileName logDenied)
                   (toISOString date ++ ": " ++ line ++ newline) r
                 :: reportOf r ++ after')%list).
Proof.
  intros run line.
  assert (Hrun : run = ([NewDate Reference.date] ++ ConsoleLog line :: skipn 2 run)%list)
    by (vm_compute; reflexivity).
  split; [exact Hrun|].
  exact (console_line_is_logged logDenied Russian "web_h264" [] _ _ _ Hrun).
Defined.

(** X9 — a failure to write to the log file is never lost and never
    reported twice: the reports on the error channel during a session are
    exactly the errors of the appends that failed, in order, each under the
    label of the critical log failure; nothing else is ever reported
    there. *)
Theorem append_failures_are_reported E v presetName h :
  let run := trace (convertVideos E v presetName) h in
  consoleErrors run
  = map (fun err => ("CRITICAL: Failed to write to log file:", err)) (appendFailures run).
Proof. apply Logged_errors with (E := E) (v := v). apply convertVideos_Logged. Qed.

(** ** The outcome of one turn *)

(** X10 — a conversion that ends with an error fails its file: the failure
    counter is incremented and the success counter is not, the result is not
    probed, and after the lines with the end time and the elapsed time the
    turn logs the failure with the message of the engine and its closing
    line. *)
Theorem engine_failure_fails_the_job E v preset total i file s f h
    a metadata b c d run message rest :
  let job := processFile E v preset total i file (s, f) in
  jobEvents (trace job h) = Ffprobe a (inr metadata) :: Ffmpeg b c d run :: rest ->
  failure run = Some message ->
  rest = []
  /\ result job h = (s, (f + 1)%N)
  /\ exists startTime endTime,
       consoleLines (trace job h)
       = (conversionLines E v total i file (statsOf metadata) startTime endTime run
          ++ [Msg.failed file message; Msg.finished v file])%list.
Proof.
  intros job Hshape Hrun.
  pose proof (processFile_report E v preset total i file s f h) as R.
  cbv zeta in R. fold job in R. rewrite Hshape in R.
  remember (result job h) as counts eqn:Hc.
  remember (consoleLines (trace job h)) as lines eqn:Hl.
  clear Hc Hl Hshape. inversion R; subst; try congruence.
  split; [reflexivity|]. split; [reflexivity|].
  assert (message0 = message) by congruence. subst message0.
  eexists; eexists; reflexivity.
Qed.

Lemma engine_failure_fails_the_job_witness :
  let preset := Own {| cli := ["-vn"]; outputExtension := ".mp3" |} in
  let job := processFile Reference.mixed English preset 3 2 "old.avi" (1%N, 1%N) in
  (jobEvents (trace job [])
   = [Ffprobe "/app/input/old.avi" (inr (Reference.media 1536));
      Ffmpeg "/app/input/old.avi" (Some ["-vn"]) "/app/output/old.mp3"
        Reference.engineFails]
   /\ failure Reference.engineFails = Some "ffmpeg exited with code 1")
  /\ result job [] = (1%N, 2%N)
  /\ exists startTime endTime,
       consoleLines (trace job [])
       = (conversionLines Reference.mixed English 3 2 "old.avi"
            (statsOf (Reference.media 1536)) startTime endTime Reference.engineFails
          ++ [Msg.failed "old.avi" "ffmpeg exited with code 1";
              Msg.finished English "old.avi"])%list.
Proof.
  intros preset job. split; [split; vm_compute; reflexivity|].
  apply (engine_failure_fails_the_job Reference.mixed English preset 3 2 "old.avi" 1 1 []
           "/app/input/old.avi" (Reference.media 1536)
           "/app/input/old.avi" (Some ["-vn"]) "/app/output/old.mp3"
           Reference.engineFails "ffmpeg exited with code 1" []);
    vm_compute; reflexivity.
Defined.

(** X11 — a turn whose conversion is followed by a successful probe of the
    result is a success: the conversion had ended without an error, it read
    the file in the input directory and wrote the output name in the output
    directory, which is the file that was probed afterwards; the success
    counter is incremented and the failure counter is not; and after the
    line with the elapsed time the turn logs the statistics of the result,
    the size change, the success with the output name and its closing
    line. *)
Theorem converted_job_is_reported E v preset total i file s f h
    a metadata b c d run e metadata' :
  let job := processFile E v preset total i file (s, f) in
  jobEvents (trace job h)
  = [Ffprobe a (inr metadata); Ffmpeg b c d run; Ffprobe e (inr metadata')] ->
  failure run = None
  /\ a = Path.join (inputDir E) file /\ b = a
  /\ c = preset_cli preset
  /\ d = Path.join (outputDir E) (outputName preset file) /\ e = d
  /\ result job h = ((s + 1)%N, f)
  /\ exists startTime endTime,
       consoleLines (trace job h)
       = (conversionLines E v total i file (statsOf metadata) startTime endTime run
          ++ [Msg.targetStats] ++ statsLines E (statsOf metadata')
          ++ [Msg.sizeChange
                (toFixed (sizeChange (statsOf metadata) (statsOf metadata')) 2)
                (formatBytes E (size (statsOf metadata)))
                (formatBytes E (size (statsOf metadata')));
              Msg.success file (outputName preset file);
              Msg.finished v file])%list.
Proof.
  intros job Hshape.
  pose proof (processFile_report E v preset total i file s f h) as R.
  cbv zeta in R. fold job in R. rewrite Hshape in R.
  remember (result job h) as counts eqn:Hc.
  remember (consoleLines (trace job h)) as lines eqn:Hl.
  clear Hc Hl Hshape. inversion R; subst.
  repeat (split; [first [assumption|reflexivity]|]).
  eexists; eexists; reflexivity.
Qed.

Lemma converted_job_is_reported_witness :
  let E := Reference.clipAndNotes in
  let preset := Own {| cli := ["-vn"]; outputExtension := ".mp3" |} in
  let job := processFile E Russian preset 1 0 "clip.mp4" (0%N, 0%N) in
  jobEvents (trace job [])
  = [Ffprobe "/app/input/clip.mp4" (inr (Reference.media 5000000));
     Ffmpeg "/app/input/clip.mp4" (Some ["-vn"]) "/app/output/clip.mp3"
       Reference.engineOk;
     Ffprobe "/app/output/clip.mp3" (inr (Reference.media 500000))]
  /\ result job [] = (1%N, 0%N)
  /\ In (Msg.sizeChange "-90.00" "4.77 MB" "488.28 KB") (consoleLines (trace job []))
  /\ In (Msg.success "clip.mp4" "clip.mp3") (consoleLines (trace job [])).
Proof.
  intros E preset job.
  assert (Hshape : jobEvents (trace job [])
                   = [Ffprobe "/app/input/clip.mp4" (inr (Reference.media 5000000));
                      Ffmpeg "/app/input/clip.mp4" (Some ["-vn"]) "/app/output/clip.mp3"
                        Reference.engineOk;
                      Ffprobe "/app/output/clip.mp3" (inr (Reference.media 500000))])
    by (vm_compute; reflexivity).
  split; [exact Hshape|].
  destruct (converted_job_is_reported E Russian preset 1 0 "clip.mp4" 0 0 []
              _ _ _ _ _ _ _ _ Hshape)
    as (_ & _ & _ & _ & _ & _ & Hcount & _).
  split; [exact Hcount|].
  vm_compute. split; in_list.
Defined.

(** ** What a conversion leaves on the console *)

Lemma onEvents_appends v file es h :
  appendEvents (trace (onEvents v file es) h) = []
  /\ consoleErrors (trace (onEvents v file es) h) = [].
Proof.
  revert h. induction es as [|e es IH]; intros h; [split; reflexivity|].
  simpl onEvents. rewrite trace_bind. unfold appendEvents.
  rewrite filter_app, consoleErrors_app.
  destruct (IH (h ++ trace (onEvent v file e) h)%list) as [IH1 IH2].
  unfold appendEvents in IH1. rewrite IH1, IH2, !app_nil_r.
  unfold onEvent. destruct e as [c|[p|]]; try (split; reflexivity).
  destruct (ToBoolean (JsNumber p)); split; reflexivity.
Qed.

(** X12 — what the engine tells while it runs never reaches the log file:
    a conversion appends nothing to any file and reports nothing on the
    error channel; the console gets one line for each start event, with the
    file and the command, and nothing for the progress events. *)
Theorem conversion_writes_no_log E v file input options output h :
  let t := trace (convert E v file input options output) h in
  appendEvents t = []
  /\ consoleErrors t = []
  /\ consoleLines t = engineConsole v file (ffmpeg E h input options output).
Proof.
  cbv zeta. split; [|split; [|apply convert_console]].
  - with_strategy transparent [convert] (unfold convert).
    rewrite !trace_bind. unfold appendEvents. rewrite !filter_app.
    fold (appendEvents (trace (onEvents v file
            (events (result (observe (fun h0 => ffmpeg E h0 input options output)) h)))
            ((h ++ trace (observe (fun h0 => ffmpeg E h0 input options output)) h) ++
             trace (emit (Ffmpeg input options output
               (result (observe (fun h0 => ffmpeg E h0 input options output)) h)))
               (h ++ trace (observe (fun h0 => ffmpeg E h0 input options output)) h)))).
    rewrite (proj1 (onEvents_appends _ _ _ _)). reflexivity.
  - with_strategy transparent [convert] (unfold convert).
    rewrite !trace_bind, !consoleErrors_app.
    rewrite (proj2 (onEvents_appends _ _ _ _)). reflexivity.
Qed.

(** ** The size change of a file that keeps its size *)

Lemma finite_nonzero (x : float) :
  is_finite x = true -> is_zero x = false ->
  exists s m e, Prim2SF x = S754_finite s m e.
Proof.
  unfold is_finite, is_nan, is_infinity, is_zero.
  rewrite !FloatAxioms.eqb_spec, FloatAxioms.abs_spec.
  change (Prim2SF zero) with (S754_zero false).
  change (Prim2SF infinity) with (S754_infinity false).
  destruct (Prim2SF x) as [b|b| |b m e]; simpl; try discriminate.
  - destruct b; discriminate.
  - intros _ _. exists b, m, e. reflexivity.
Qed.

Lemma percent_of_no_change (x : float) :
  is_finite x = true -> is_zero x = false ->
  toFixed ((x - x) / x * 100)%float 2 = "0.00".
Proof.
  intros Hf Hz. destruct (finite_nonzero x Hf Hz) as (s & m & e & Hx).
  assert (Hsub : Prim2SF (x - x) = S754_zero false).
  { rewrite FloatAxioms.sub_spec, Hx. unfold SF64sub, SFsub.
    rewrite Z.sub_diag. reflexivity. }
  unfold toFixed.
  rewrite FloatAxioms.mul_spec, FloatAxioms.div_spec, Hsub, Hx.
  replace (Prim2SF 100) with (S754_finite false 7036874417766400 (-46)) by reflexivity.
  destruct s; reflexivity.
Qed.

(** X13 — a file that keeps its size shows no change: when the probes of
    the source and of the result report the same size, a finite number other
    than zero, the percentage of the size-change line reads [0.00]. *)
Theorem unchanged_size_is_zero_percent (source target : FileStats) (x : float) :
  ToNumber (size source) = x -> ToNumber (size target) = x ->
  is_finite x = true -> is_zero x = false ->
  toFixed (sizeChange source target) 2 = "0.00".
Proof.
  intros Hs Ht Hf Hz. unfold sizeChange. rewrite Hs, Ht.
  apply percent_of_no_change; assumption.
Qed.

Lemma unchanged_size_is_zero_percent_witness :
  toFixed (sizeChange (statsOf (Reference.media 1536)) (statsOf (Reference.media 1536))) 2
  = "0.00".
Proof.
  apply (unchanged_size_is_zero_percent _ _ 1536%float); reflexivity.
Defined.

(** ** Which entries are videos *)

Section Candidates.

Import Path.

Lemma existsb_In (x : string) (l : list string) :
  existsb (String.eqb x) l = true <-> In x l.
Proof.
  rewrite existsb_exists. split.
  - intros (y & Hy & Heq). apply String.eqb_eq in Heq. subst y. exact Hy.
  - intros Hin. exists x. split; [exact Hin|apply String.eqb_refl].
Qed.

Lemma scan_no_dot cs : forall i st,
  Forall (fun c => Ascii.eqb c dot = false) cs ->
  startDot st = -1 -> startDot (scan cs i st) = -1.
Proof.
  induction cs as [|c cs IH]; intros i st Hcs Hdot; [exact Hdot|].
  inversion Hcs as [|c' cs' Hd Hrest]; subst.
  cbn [scan]. rewrite Hd.
  destruct (Ascii.eqb c slash).
  - destruct (negb (matchedSlash st)); [exact Hdot|].
    apply IH; assumption.
  - destruct (endPos st =? -1); cbn [startDot]; rewrite Hdot; cbn [negb Z.eqb];
      (apply IH; [assumption | first [assumption | reflexivity]]).
Qed.

Lemma noneOf_dot s :
  noneOf ["."%char] s = true ->
  Forall (fun c => Ascii.eqb c dot = false) (list_ascii_of_string s).
Proof.
  unfold noneOf. intros H. apply Forall_forall. intros c Hc.
  rewrite forallb_forall in H. specialize (H c Hc). simpl in H.
  unfold dot. destruct (Ascii.eqb c "."); [discriminate|reflexivity].
Qed.

Lemma extname_no_dot name : noneOf ["."%char] name = true -> extname name = "".
Proof.
  intros H. unfold extname.
  set (st := scan _ _ scanInit).
  assert (Hst : startDot st = -1).
  { apply scan_no_dot; [|reflexivity]. apply Forall_rev, noneOf_dot, H. }
  unfold noExtension. rewrite Hst. reflexivity.
Qed.

Lemma extname_hidden rest :
  noneOf ["."%char; "/"%char] rest = true -> extname (String dot rest) = "".
Proof.
  intros H. apply noneOf_plain in H. unfold extname.
  cbn [list_ascii_of_string rev String.length].
  set (len := Z.of_nat (S (String.length rest))).
  assert (Hlen : len = Z.of_nat (String.length rest) + 1) by (unfold len; lia).
  rewrite scan_app.
  2:{ apply Forall_rev. eapply Forall_impl; [|exact H]. intros c [Hs _]. exact Hs. }
  rewrite length_rev, length_chars.
  apply Forall_rev in H.
  destruct (rev (list_ascii_of_string rest)) as [|c cs] eqn:Hrev.
  - destruct rest as [|c0 rest'].
    + reflexivity.
    + apply (f_equal (@List.length ascii)) in Hrev.
      rewrite length_rev in Hrev. discriminate.
  - rewrite scan_plain_first; [|exact H|lia].
    rewrite scan_dot; [|reflexivity|cbn [endPos]; lia].
    cbn [scan]. unfold noExtension. cbn [startDot preDotState]. 
    rewrite orb_true_r. reflexivity.
Qed.

End Candidates.

(** X14 — an entry is a video by the lower-cased extension of its name
    alone: a name made of a stem and an extension is a candidate exactly
    when its extension, in lower case, is one of the six video extensions,
    whatever the case it is written in. *)
Theorem video_by_lower_cased_extension stem ext :
  isStem stem = true -> isExtension ext = true ->
  (isVideoFile (stem ++ ext) = true <-> In (toLowerCase ext) VIDEO_EXTENSIONS).
Proof.
  intros Hstem Hext. unfold isVideoFile.
  rewrite (extname_stem stem ext Hstem Hext). apply existsb_In.
Qed.

Lemma video_by_lower_cased_extension_witness :
  isVideoFile ("Holiday.2024" ++ ".MKV") = true /\ isVideoFile ("clip" ++ ".mp3") = false.
Proof.
  split.
  - apply (proj2 (video_by_lower_cased_extension "Holiday.2024" ".MKV" eq_refl eq_refl)).
    vm_compute. in_list.
  - destruct (isVideoFile ("clip" ++ ".mp3")) eqn:H; [|reflexivity].
    apply (proj1 (video_by_lower_cased_extension "clip" ".mp3" eq_refl eq_refl)) in H.
    vm_compute in H. repeat (destruct H as [H|H]; try discriminate). destruct H.
Defined.

(** X15 — a name without an extension is never a candidate: an entry whose
    name has no dot, or whose only dot is its first character (a hidden file
    such as [.mp4]), is not a video, whatever follows the dot. *)
Theorem name_without_extension_is_no_video name :
  noneOf ["."%char] name = true
  \/ (exists rest, name = String "." rest /\ noneOf ["."%char; "/"%char] rest = true) ->
  isVideoFile name = false.
Proof.
  intros [H|(rest & -> & H)]; unfold isVideoFile.
  - rewrite (extname_no_dot name H). reflexivity.
  - pose proof (extname_hidden rest H) as Hx. unfold Path.dot in Hx.
    rewrite Hx. reflexivity.
Qed.

Lemma name_without_extension_is_no_video_witness :
  isVideoFile "mp4" = false /\ isVideoFile ".mp4" = false.
Proof.
  split.
  - apply (name_without_extension_is_no_video "mp4"). left. reflexivity.
  - apply (name_without_extension_is_no_video ".mp4"). right.
    exists "mp4". split; reflexivity.
Defined.

(** ** The name of the log file *)

Lemma splitOn_first sep a b :
  Forall (fun c => Ascii.eqb c sep = false) (list_ascii_of_string a) ->
  hd "" (Path.splitOn sep (a ++ String sep b)) = a.
Proof.
  induction a as [|c a IH]; intros Ha.
  - simpl. rewrite Ascii.eqb_refl. reflexivity.
  - inversion Ha as [|c' a' Hc Hrest]; subst.
    change (String c a ++ String sep b) with (String c (a ++ String sep b)).
    cbn [Path.splitOn]. rewrite Hc. specialize (IH Hrest).
    destruct (Path.splitOn sep (a ++ String sep b)) as [|x xs];
      simpl in IH |- *; subst; reflexivity.
Qed.

Lemma replaceAll_app from to a b :
  replaceAll from to (a ++ b) = replaceAll from to a ++ replaceAll from to b.
Proof.
  unfold replaceAll. induction a as [|c a IH]; simpl; [reflexivity|].
  rewrite IH. reflexivity.
Qed.

Lemma replaceAll_none from to a :
  Forall (fun c => Ascii.eqb c from = false) (list_ascii_of_string a) ->
  replaceAll from to a = a.
Proof.
  unfold replaceAll. induction a as [|c a IH]; intros Ha; simpl; [reflexivity|].
  inversion Ha as [|c' a' Hc Hrest]; subst. rewrite Hc, (IH Hrest). reflexivity.
Qed.

Lemma string_append_assoc (a b c : string) : (a ++ b) ++ c = a ++ b ++ c.
Proof. induction a as [|x a IH]; simpl; [reflexivity|]. rewrite IH. reflexivity. Qed.

Lemma noneOf_dash_T s :
  noneOf ["-"%char; "T"%char] s = true ->
  Forall (fun c => Ascii.eqb c "-" = false) (list_ascii_of_string s)
  /\ Forall (fun c => Ascii.eqb c "T" = false) (list_ascii_of_string s).
Proof.
  unfold noneOf. intros H. rewrite forallb_forall in H.
  split; apply Forall_forall; intros c Hc; specialize (H c Hc); simpl in H.
  - destruct (Ascii.eqb c "-"); [discriminate|reflexivity].
  - destruct (Ascii.eqb c "T"); [|reflexivity].
    destruct (Ascii.eqb c "-"); discriminate.
Qed.

(** X16 — the log file is named after the day on which the script was
    loaded: when the ISO text of that date reads year, month and day,
    separated by dashes and followed by [T] and the time, the log file is
    [process_<year>_<month>_<day>.log] in the directory of the script,
    whatever the time of the day and however long the session lasts. *)
Theorem log_file_is_named_after_the_day E year month day time :
  noneOf ["-"%char; "T"%char] year = true ->
  noneOf ["-"%char; "T"%char] month = true ->
  noneOf ["-"%char; "T"%char] day = true ->
  toISOString (loadDate E) = year ++ "-" ++ month ++ "-" ++ day ++ "T" ++ time ->
  logFileName E
  = Path.join (dirname E) ("process_" ++ year ++ "_" ++ month ++ "_" ++ day ++ ".log").
Proof.
  intros Hy Hm Hd Hiso.
  apply noneOf_dash_T in Hy, Hm, Hd.
  destruct Hy as [Hy1 Hy2], Hm as [Hm1 Hm2], Hd as [Hd1 Hd2].
  unfold logFileName, dateStr. rewrite Hiso.
  replace (year ++ "-" ++ month ++ "-" ++ day ++ "T" ++ time)
    with ((year ++ "-" ++ month ++ "-" ++ day) ++ String "T" time).
  2:{ rewrite !string_append_assoc. reflexivity. }
  rewrite splitOn_first.
  2:{ rewrite !chars_app, !Forall_app. repeat split; try assumption.
      all: repeat constructor. }
  rewrite !replaceAll_app.
  rewrite (replaceAll_none _ _ year Hy1), (replaceAll_none _ _ month Hm1),
    (replaceAll_none _ _ day Hd1).
  change (replaceAll "-" "_" "-") with "_".
  f_equal. rewrite !string_append_assoc. reflexivity.
Qed.

Lemma log_file_is_named_after_the_day_witness :
  logFileName Reference.idle = "/app/process_2026_01_01.log".
Proof.
  rewrite (log_file_is_named_after_the_day Reference.idle "2026" "01" "01" "00:00:00.000Z");
    vm_compute; reflexivity.
Defined.

(** ** The entry point *)

Lemma convertVideos_appends E v presetName h :
  appendEvents (trace (convertVideos E v presetName) h) <> [].
Proof.
  unfold convertVideos. rewrite trace_bind.
  destruct (logInfo_trace E (Msg.sessionStart v presetName) h) as [r ->].
  discriminate.
Qed.

(** X17 — the script opens its log exactly when it is given a preset name:
    started without an argument, or with an empty one, it prints the usage
    and the names of the presets on the console and does nothing else, no
    file is written, no directory created and the engine is not called;
    started with a name, whatever the name, it runs a session, whose first
    line goes to the log file. *)
Theorem log_is_opened_iff_preset_named E v argv2 h :
  let run := trace (main E v argv2) h in
  (appendEvents run <> [] <-> exists name, argv2 = Some name /\ name <> "")
  /\ (appendEvents run = [] ->
      run = map ConsoleLog (Msg.usage v ++ [Msg.usagePresets v (Object_keys (PRESETS v))])).
Proof.
  cbv zeta. destruct argv2 as [[|c s]|]; cbn [main].
  - split; [split|].
    + intros H. contradiction H. reflexivity.
    + intros (name & Hname & Hne). injection Hname as <-. contradiction Hne. reflexivity.
    + intros _. destruct v; reflexivity.
  - split; [split|].
    + intros _. exists (String c s). split; [reflexivity|discriminate].
    + intros _. apply convertVideos_appends.
    + intros H. destruct (convertVideos_appends E v (String c s) h H).
  - split; [split|].
    + intros H. contradiction H. reflexivity.
    + intros (name & Hname & _). discriminate.
    + intros _. destruct v; reflexivity.
Qed.

Lemma log_is_opened_iff_preset_named_witness :
  appendEvents (trace (main Reference.idle English (Some "web_h264")) []) <> []
  /\ trace (main Reference.idle English None) []
     = map ConsoleLog
         ["Please provide a preset name."; "Usage: node convert.js web_h264";
          "Available presets: conv0_5, conv0_25s, conv256s, web_h264, extract_audio"].
Proof.
  split.
  - apply (proj1 (log_is_opened_iff_preset_named Reference.idle English
                    (Some "web_h264") [])).
    exists "web_h264". split; [reflexivity|discriminate].
  - apply (proj2 (log_is_opened_iff_preset_named Reference.idle English None [])).
    reflexivity.
Defined.

(** ** The streams of a file *)

Lemma find_first {A} (f : A -> bool) before x after :
  Forall (fun y => f y = false) before -> f x = true ->
  find f (before ++ x :: after) = Some x.
Proof.
  induction 1 as [|y before Hy Hrest IH]; intros Hx; simpl.
  - rewrite Hx. reflexivity.
  - rewrite Hy. exact (IH Hx).
Qed.

(** X18 — the statistics of a file are those of its first video stream and
    of its first audio stream: streams of other kinds before them and all
    the streams after them are ignored, and a bit rate that the probe does
    not report, or reports as zero or empty, is recorded as ['N/A'], so the
    bit rate recorded is never a falsy value. *)
Theorem first_stream_of_each_kind_counts metadata :
  let stats := statsOf metadata in
  (forall before s after,
      streams metadata = (before ++ s :: after)%list ->
      Forall (fun s' => strictEqString (codec_type s') "video" = false) before ->
      codec_type s = JsString "video" ->
      videoCodec stats = codec_name s
      /\ videoBitrate stats
         = (if ToBoolean (bit_rate s) then bit_rate s else JsString "N/A"))
  /\ (forall before s after,
         streams metadata = (before ++ s :: after)%list ->
         Forall (fun s' => strictEqString (codec_type s') "audio" = false) before ->
         codec_type s = JsString "audio" ->
         audioCodec stats = codec_name s
         /\ audioBitrate stats
            = (if ToBoolean (bit_rate s) then bit_rate s else JsString "N/A"))
  /\ ToBoolean (videoBitrate stats) = true
  /\ ToBoolean (audioBitrate stats) = true.
Proof.
  cbv zeta. unfold statsOf. cbn [videoCodec videoBitrate audioCodec audioBitrate].
  split; [|split; [|split]].
  - intros before s after Hstreams Hbefore Hs.
    rewrite Hstreams, (find_first _ before s after Hbefore).
    + split; reflexivity.
    + rewrite Hs. reflexivity.
  - intros before s after Hstreams Hbefore Hs.
    rewrite Hstreams, (find_first _ before s after Hbefore).
    + split; reflexivity.
    + rewrite Hs. reflexivity.
  - destruct (find _ (streams metadata)) as [s|]; [|reflexivity].
    unfold orElse. destruct (ToBoolean (bit_rate s)) eqn:Hb; [exact Hb|reflexivity].
  - destruct (find (fun s => strictEqString (codec_type s) "audio") (streams metadata))
      as [s|]; [|reflexivity].
    unfold orElse. destruct (ToBoolean (bit_rate s)) eqn:Hb; [exact Hb|reflexivity].
Qed.

Lemma first_stream_of_each_kind_counts_witness :
  let data := {| codec_type := JsString "data"; codec_name := JsString "bin_data";
                 bit_rate := JsUndefined |} in
  let movie := {| codec_type := JsString "video"; codec_name := JsString "hevc";
                  bit_rate := JsNumber 0 |} in
  let cover := {| codec_type := JsString "video"; codec_name := JsString "mjpeg";
                  bit_rate := JsNumber 90000 |} in
  let stats := statsOf {| format := format (Reference.media 1536);
                          streams := [data; movie; cover] |} in
  videoCodec stats = JsString "hevc"
  /\ videoBitrate stats = JsString "N/A"
  /\ audioCodec stats = JsString "N/A"
  /\ ToBoolean (audioBitrate stats) = true.
Proof.
  intros data movie cover stats.
  destruct (first_stream_of_each_kind_counts
              {| format := format (Reference.media 1536);
                 streams := [data; movie; cover] |}) as (Hvideo & _ & _ & Haudio).
  destruct (Hvideo [data] movie [cover] eq_refl ltac:(repeat constructor) eq_refl)
    as (Hcodec & Hrate).
  split; [exact Hcodec|]. split; [exact Hrate|]. split; [reflexivity|exact Haudio].
Defined.

(** ** The unit of a size *)

Lemma unit_of_index (i : float) :
  ToString (arrayGet ["Bytes"; "KB"; "MB"; "GB"; "TB"] i)
  = let key := NumberToString i in
    if String.eqb "0" key then "Bytes"
    else if String.eqb "1" key then "KB"
    else if String.eqb "2" key then "MB"
    else if String.eqb "3" key then "GB"
    else if String.eqb "4" key then "TB"
    else "undefined".
Proof.
  unfold arrayGet. cbv zeta. generalize (NumberToString i) as key. intros key.
  cbn [List.length seq combine find fst].
  change (decimal (Z.of_nat 0)) with "0".
  change (decimal (Z.of_nat 1)) with "1".
  change (decimal (Z.of_nat 2)) with "2".
  change (decimal (Z.of_nat 3)) with "3".
  change (decimal (Z.of_nat 4)) with "4".
  repeat match goal with |- context [String.eqb ?a key] => destruct (String.eqb a key) end;
    reflexivity.
Qed.

(** X19 — the unit that [formatBytes] prints is one of the five of its
    table or the text [undefined]: the text is a number, a space and
    [Bytes], [KB], [MB], [GB], [TB] or [undefined]; and it is [undefined]
    whenever the size is not caught by the guard for zero and the index
    computed from the logarithms is not one of 0, 1, 2, 3, 4, as for a size
    of 1024 TB or more, for a size below one byte and for a size that is not
    a number: there is no unit beyond the terabyte and no check of the
    index. *)
Theorem size_unit_is_listed_or_undefined E bytes :
  let i := Math_floor (Math_log E (ToNumber bytes) / Math_log E 1024)%float in
  (exists number unit,
      formatBytes E bytes = number ++ " " ++ unit
      /\ In unit ["Bytes"; "KB"; "MB"; "GB"; "TB"; "undefined"])
  /\ (strictEqNumber bytes 0 || negb (ToBoolean bytes) = false ->
      ~ In (NumberToString i) ["0"; "1"; "2"; "3"; "4"] ->
      formatBytes E bytes
      = NumberToString (parseFloat (toFixed (ToNumber bytes / Math_pow E 1024 i)%float 2))
        ++ " undefined").
Proof.
  cbv zeta. unfold formatBytes.
  destruct (strictEqNumber bytes 0 || negb (ToBoolean bytes)).
  - split; [|discriminate]. exists "0", "Bytes". split; [reflexivity|in_list].
  - rewrite unit_of_index. cbv zeta.
    set (number := NumberToString (parseFloat _)).
    set (key := NumberToString (Math_floor _)).
    split.
    + exists number. eexists. split; [reflexivity|].
      repeat match goal with |- context [String.eqb ?a key] => destruct (String.eqb a key) end;
        in_list.
    + intros _ Hout.
      repeat match goal with
             | |- context [String.eqb ?a key] =>
                 let H := fresh in
                 destruct (String.eqb a key) eqn:H;
                 [ apply String.eqb_eq in H; contradiction Hout; rewrite <- H; in_list | ]
             end.
      reflexivity.
Qed.

Lemma size_unit_is_listed_or_undefined_witness :
  formatBytes Reference.idle (JsNumber 0x1p50) = "1" ++ " undefined"
  /\ formatBytes Reference.idle (JsNumber 0.5) = "512" ++ " undefined".
Proof.
  split.
  - rewrite (proj2 (size_unit_is_listed_or_undefined Reference.idle (JsNumber 0x1p50)));
      [ vm_compute; reflexivity | reflexivity
      | vm_compute; intros H; repeat (destruct H as [H|H]; try discriminate); exact H ].
  - rewrite (proj2 (size_unit_is_listed_or_undefined Reference.idle (JsNumber 0.5)));
      [ vm_compute; reflexivity | reflexivity
      | vm_compute; intros H; repeat (destruct H as [H|H]; try discriminate); exact H ].
Defined.

(** * The earlier edition: every conversion at once *)

Section ConcurrentEdition.

Import Concurrent.

(** ** The order of arrival *)

Lemma nth_setNth_same {A} (l : list A) : forall k x y d,
  nth_error l k = Some x -> nth k (setNth k y l) d = y.
Proof.
  induction l as [|z l IH]; intros k x y d Hk; destruct k; try discriminate.
  - reflexivity.
  - simpl in Hk |- *. exact (IH k x y d Hk).
Qed.

Lemma nth_setNth_other {A} (l : list A) : forall k i y d,
  k <> i -> nth i (setNth k y l) d = nth i l d.
Proof.
  induction l as [|z l IH]; intros k i y d Hne; [destruct k; reflexivity|].
  destruct k, i; simpl; try reflexivity.
  - contradiction Hne; reflexivity.
  - apply IH. intros ->. contradiction Hne; reflexivity.
Qed.

Lemma nth_of_nth_error {A} (l : list A) : forall k x d,
  nth_error l k = Some x -> nth k l d = x.
Proof.
  induction l as [|z l IH]; intros [|k] x d H; try discriminate; simpl in *.
  - congruence.
  - exact (IH k x d H).
Qed.

Lemma arrivedFrom_app i a b :
  arrivedFrom i (a ++ b) = (arrivedFrom i a ++ arrivedFrom i b)%list.
Proof. unfold arrivedFrom. rewrite filter_app, map_app. reflexivity. Qed.

Lemma arrivedFrom_queue i j q :
  arrivedFrom i (map (pair j) q) = if Nat.eqb j i then q else [].
Proof.
  unfold arrivedFrom. induction q as [|n q IH]; simpl.
  - destruct (Nat.eqb j i); reflexivity.
  - destruct (Nat.eqb j i) eqn:Hj; simpl; rewrite IH; reflexivity.
Qed.

Lemma arrivedFrom_drain queues : forall s i,
  arrivedFrom i
    (List.concat (map (fun iq => map (pair (fst iq)) (snd iq))
                      (combine (seq s (List.length queues)) queues)))
  = if (s <=? i)%nat then nth (i - s) queues [] else [].
Proof.
  induction queues as [|q queues IH]; intros s i.
  - simpl. destruct (s <=? i)%nat; [destruct (i - s)%nat|]; reflexivity.
  - cbn [List.length seq combine map List.concat fst snd].
    rewrite arrivedFrom_app, arrivedFrom_queue, IH.
    destruct (Nat.eqb s i) eqn:Hs.
    + apply Nat.eqb_eq in Hs. subst i.
      replace (S s <=? s)%nat with false by (symmetry; apply Nat.leb_gt; lia).
      rewrite Nat.leb_refl, Nat.sub_diag, app_nil_r. reflexivity.
    + apply Nat.eqb_neq in Hs. cbn [app].
      destruct (s <=? i)%nat eqn:Hle.
      * apply Nat.leb_le in Hle.
        replace (S s <=? i)%nat with true by (symmetry; apply Nat.leb_le; lia).
        replace (i - s)%nat with (S (i - S s)) by lia. reflexivity.
      * apply Nat.leb_gt in Hle.
        replace (S s <=? i)%nat with false by (symmetry; apply Nat.leb_gt; lia).
        reflexivity.
Qed.

(** Whatever the order of arrival, every process is heard from its first
    notification to its last, in its own order. *)
Lemma deliver_complete order : forall queues i,
  arrivedFrom i (deliver order queues) = nth i queues [].
Proof.
  induction order as [|k order IH]; intros queues i.
  - cbn [deliver]. unfold drain. rewrite arrivedFrom_drain.
    simpl. rewrite Nat.sub_0_r. reflexivity.
  - cbn [deliver].
    destruct (nth_error queues k) as [[|n q]|] eqn:Hk; try apply IH.
    unfold arrivedFrom. cbn [filter fst].
    destruct (Nat.eqb k i) eqn:Hki.
    + apply Nat.eqb_eq in Hki. subst i. cbn [map snd].
      fold (arrivedFrom k (deliver order (setNth k q queues))).
      rewrite IH, (nth_setNth_same _ _ _ _ _ Hk), (nth_of_nth_error _ _ _ _ Hk).
      reflexivity.
    + apply Nat.eqb_neq in Hki.
      fold (arrivedFrom i (deliver order (setNth k q queues))).
      rewrite IH. apply nth_setNth_other. exact Hki.
Qed.

Lemma count_setNth (P : Notification -> bool) (queues : list (list Notification)) :
  forall k n q,
    nth_error queues k = Some (n :: q) ->
    List.length (filter P (List.concat queues))
    = ((if P n then 1 else 0)
       + List.length (filter P (List.concat (setNth k q queues))))%nat.
Proof.
  induction queues as [|q0 queues IH]; intros k n q Hk; destruct k; try discriminate.
  - simpl in Hk. injection Hk as ->. cbn [setNth List.concat].
    rewrite !filter_app, !length_app. cbn [filter].
    destruct (P n); simpl; lia.
  - simpl in Hk. cbn [setNth List.concat].
    rewrite !filter_app, !length_app, (IH k n q Hk). lia.
Qed.

Lemma count_drain (P : Notification -> bool) (queues : list (list Notification)) :
  forall s,
    List.length
      (filter (fun a => P (snd a))
         (List.concat (map (fun iq => map (pair (fst iq)) (snd iq))
                           (combine (seq s (List.length queues)) queues))))
    = List.length (filter P (List.concat queues)).
Proof.
  induction queues as [|q queues IH]; intros s; [reflexivity|].
  cbn [List.length seq combine map List.concat fst snd].
  rewrite !filter_app, !length_app, IH. f_equal.
  induction q as [|n q IHq]; [reflexivity|].
  simpl. destruct (P n); simpl; rewrite IHq; reflexivity.
Qed.

(** Nothing is heard twice and nothing is lost. *)
Lemma deliver_count (P : Notification -> bool) order : forall queues,
  List.length (filter (fun a => P (snd a)) (deliver order queues))
  = List.length (filter P (List.concat queues)).
Proof.
  induction order as [|k order IH]; intros queues.
  - apply count_drain.
  - cbn [deliver].
    destruct (nth_error queues k) as [[|n q]|] eqn:Hk; try apply IH.
    cbn [filter snd]. rewrite (count_setNth P queues k n q Hk).
    destruct (P n); simpl; rewrite IH; reflexivity.
Qed.

(** ** The promises *)

Lemma settled_arrivedFrom heard i :
  settled heard i
  = hd_error (flat_map (fun n => match statusOf n with Some s => [s] | None => [] end)
                (arrivedFrom i heard)).
Proof.
  unfold settled, arrivedFrom. f_equal.
  induction heard as [|a heard IH]; [reflexivity|].
  simpl. destruct (Nat.eqb (fst a) i); simpl; rewrite IH; reflexivity.
Qed.

Lemma statuses_queueOf run :
  flat_map (fun n => match statusOf n with Some s => [s] | None => [] end) (queueOf run)
  = [if succeeds run then fulfilled else rejected].
Proof.
  unfold queueOf, succeeds. rewrite flat_map_app.
  replace (flat_map _ (map _ (events run))) with (@nil Status).
  - destruct (failure run); reflexivity.
  - induction (events run) as [|e es IH]; [reflexivity|].
    destruct e; simpl; exact IH.
Qed.

Lemma count_ended_queueOf run :
  List.length (filter isEnd (queueOf run)) = if succeeds run then 1%nat else 0%nat.
Proof.
  unfold queueOf, succeeds. rewrite filter_app, length_app.
  replace (filter isEnd (map _ (events run))) with (@nil Notification).
  - destruct (failure run); reflexivity.
  - induction (events run) as [|e es IH]; [reflexivity|].
    destruct e; simpl; exact IH.
Qed.

Lemma count_errored_queueOf run :
  List.length (filter isError (queueOf run))
  = if negb (succeeds run) then 1%nat else 0%nat.
Proof.
  unfold queueOf, succeeds. rewrite filter_app, length_app.
  replace (filter isError (map _ (events run))) with (@nil Notification).
  - destruct (failure run); reflexivity.
  - induction (events run) as [|e es IH]; [reflexivity|].
    destruct e; simpl; exact IH.
Qed.

Lemma count_queues (P : Notification -> bool) (f : nat -> EngineRun) (Q : EngineRun -> bool) :
  (forall run, List.length (filter P (queueOf run)) = if Q run then 1%nat else 0%nat) ->
  forall l,
    List.length (filter P (List.concat (map (fun i => queueOf (f i)) l)))
    = List.length (filter (fun i => Q (f i)) l).
Proof.
  intros H. induction l as [|i l IH]; [reflexivity|].
  cbn [map List.concat filter]. rewrite filter_app, length_app, H, IH.
  destruct (Q (f i)); reflexivity.
Qed.

Lemma nth_map_seq {A} (f : nat -> A) n i d :
  (i < n)%nat -> nth i (map f (seq 0 n)) d = f i.
Proof.
  intros Hi. rewrite (nth_indep _ d (f 0%nat)) by (rewrite length_map, length_seq; exact Hi).
  rewrite (map_nth f (seq 0 n) 0%nat i), seq_nth by exact Hi. reflexivity.
Qed.


Lemma settled_deliver (f : nat -> EngineRun) order n i :
  (i < n)%nat ->
  settled (deliver order (map (fun i => queueOf (f i)) (seq 0 n))) i
  = Some (if succeeds (f i) then fulfilled else rejected).
Proof.
  intros Hi. rewrite settled_arrivedFrom, deliver_complete.
  rewrite (nth_map_seq (fun i => queueOf (f i)) n i [] Hi), statuses_queueOf.
  reflexivity.
Qed.

Lemma results_deliver (f : nat -> EngineRun) order n :
  map (settled (deliver order (map (fun i => queueOf (f i)) (seq 0 n)))) (seq 0 n)
  = map (fun i => Some (if succeeds (f i) then fulfilled else rejected)) (seq 0 n).
Proof.
  apply map_ext_in. intros i Hi. apply in_seq in Hi.
  apply settled_deliver. lia.
Qed.

Lemma results_settled (f : nat -> EngineRun) l :
  forallb isSettled
    (map (fun i => Some (if succeeds (f i) then fulfilled else rejected)) l) = true.
Proof. induction l as [|i l IH]; [reflexivity|exact IH]. Qed.

Lemma results_fulfilled (f : nat -> EngineRun) l :
  List.length (filter isFulfilled
    (map (fun i => Some (if succeeds (f i) then fulfilled else rejected)) l))
  = List.length (filter (fun i => succeeds (f i)) l).
Proof.
  induction l as [|i l IH]; [reflexivity|].
  cbn [map filter]. destruct (succeeds (f i)); simpl; rewrite IH; reflexivity.
Qed.

Lemma filter_split {A} (P : A -> bool) l :
  (List.length (filter P l) + List.length (filter (fun x => negb (P x)) l)
   = List.length l)%nat.
Proof.
  induction l as [|x l IH]; [reflexivity|].
  simpl. destruct (P x); simpl; lia.
Qed.

(** ** What a session leaves behind *)

Lemma ended_app a b : ended (a ++ b) = (ended a + ended b)%nat.
Proof. unfold ended. rewrite filter_app, length_app. reflexivity. Qed.

Lemma errored_app a b : errored (a ++ b) = (errored a + errored b)%nat.
Proof. unfold errored. rewrite filter_app, length_app. reflexivity. Qed.


Lemma onNotification_heard file outputName n :
  Forall (fun e => isHeard e = false /\ isRun e = false /\ isCall e = false)
    (onNotification file outputName n).
Proof. destruct n; repeat constructor. Qed.

Lemma hear_shape preset videoFiles a :
  exists out,
    hear preset videoFiles a = Heard (fst a) (snd a) :: out
    /\ Forall (fun e => isHeard e = false /\ isRun e = false /\ isCall e = false) out.
Proof.
  unfold hear. eexists. split; [reflexivity|].
  destruct (nth_error videoFiles (fst a)); [apply onNotification_heard|constructor].
Qed.

Lemma quiet_filter (P : Event -> bool) out :
  Forall (fun e => P e = false) out -> filter P out = [].
Proof.
  induction 1 as [|e out He Hout IH]; [reflexivity|].
  simpl. rewrite He. exact IH.
Qed.


Lemma quiet_ended out :
  Forall (fun e => isHeard e = false /\ isRun e = false /\ isCall e = false) out ->
  ended out = 0%nat /\ errored out = 0%nat.
Proof.
  induction 1 as [|e out (He & _) Hout [IH1 IH2]]; [split; reflexivity|].
  destruct e; try discriminate; split; assumption.
Qed.


Lemma heard_ended preset videoFiles heard :
  ended (flat_map (hear preset videoFiles) heard)
  = List.length (filter (fun a => isEnd (snd a)) heard)
  /\ errored (flat_map (hear preset videoFiles) heard)
     = List.length (filter (fun a => isError (snd a)) heard).
Proof.
  induction heard as [|a heard [IH1 IH2]]; [split; reflexivity|].
  cbn [flat_map]. rewrite ended_app, errored_app, IH1, IH2.
  destruct (hear_shape preset videoFiles a) as (out & -> & Hout).
  destruct (quiet_ended out Hout) as [Q1 Q2].
  unfold ended, errored in *. cbn [filter].
  destruct a as [j n]. cbn [fst snd].
  destruct n; cbn [isEnd isError List.length]; rewrite ?Q1, ?Q2; split; reflexivity.
Qed.

Lemma heard_quiet preset videoFiles heard :
  filter isRun (flat_map (hear preset videoFiles) heard) = []
  /\ filter isCall (flat_map (hear preset videoFiles) heard) = [].
Proof.
  induction heard as [|a heard [IH1 IH2]]; [split; reflexivity|].
  cbn [flat_map]. rewrite !filter_app, IH1, IH2, !app_nil_r.
  destruct (hear_shape preset videoFiles a) as (out & -> & Hout).
  cbn [filter isRun isCall]. split; apply quiet_filter;
    (eapply Forall_impl; [|exact Hout]); intros e (H1 & H2 & H3); assumption.
Qed.

Lemma launches_quiet W preset l :
  filter isCall (map (launch W preset) l) = []
  /\ filter isHeard (map (launch W preset) l) = []
  /\ ended (map (launch W preset) l) = 0%nat
  /\ errored (map (launch W preset) l) = 0%nat.
Proof. induction l as [|x l (A & B & C & D)]; repeat split; assumption. Qed.

(** The events of a session that listed the input directory. *)
Lemma convertVideos_listed_at_once W presetName p files :
  let run := convertVideos W presetName in
  In (Readdir p (inr files)) run ->
  exists preset,
    getProperty PRESETS presetName = Some preset
    /\ let videoFiles := filter isVideoFile files in
       let n := List.length videoFiles in
       let h3 := [ConsoleLog [Msg.sessionStart presetName];
                  Mkdir (inputDir W) None; Mkdir (outputDir W) None;
                  Readdir (inputDir W) (inr files)] in
       let h5 := (h3 ++ [ConsoleLog [Msg.foundFiles n]]
                  ++ map (launch W preset) videoFiles)%list in
       let f := engine W h5 in
       let heard := deliver (arrival W h5) (map (fun i => queueOf (f i)) (seq 0 n)) in
       let successCount := List.length (filter (fun i => succeeds (f i)) (seq 0 n)) in
       (videoFiles = [] -> run = (h3 ++ [ConsoleWarn [Msg.noVideoFiles]])%list)
       /\ (videoFiles <> [] ->
           run = (h5 ++ flat_map (hear preset videoFiles) heard
                  ++ [ConsoleLog [Msg.sessionFinished];
                      ConsoleLog [Msg.successful successCount];
                      ConsoleLog [Msg.withErrors (n - successCount)]])%list).
Proof.
  cbv zeta. unfold convertVideos.
  destruct (getProperty PRESETS presetName) as [preset|].
  2:{ intros Hin. simpl in Hin.
      repeat (destruct Hin as [Hin|Hin]; try discriminate). destruct Hin. }
  destruct (fs_mkdir W _ (inputDir W)) as [m|].
  { intros Hin. simpl in Hin.
    repeat (destruct Hin as [Hin|Hin]; try discriminate). destruct Hin. }
  destruct (fs_mkdir W _ (outputDir W)) as [m|].
  { intros Hin. simpl in Hin.
    repeat (destruct Hin as [Hin|Hin]; try discriminate). destruct Hin. }
  destruct (fs_readdir W _ (inputDir W)) as [m|files0].
  { intros Hin. simpl in Hin.
    repeat (destruct Hin as [Hin|Hin]; try discriminate). destruct Hin. }
  cbn [app].
  intros Hin. exists preset. split; [reflexivity|].
  assert (Hfiles : files0 = files).
  { pose proof (proj2 (filter_In isCall _ _) (conj Hin eq_refl)) as Hc.
    clear Hin.
    destruct (Nat.eqb (List.length (filter isVideoFile files0)) 0).
    - simpl in Hc. repeat (destruct Hc as [Hc|Hc]; try discriminate);
        [injection Hc as _ <-; reflexivity|destruct Hc].
    - cbn [filter isCall] in Hc. rewrite !filter_app in Hc.
      rewrite (proj1 (launches_quiet W preset _)) in Hc.
      rewrite (proj2 (heard_quiet preset _ _)) in Hc.
      cbn [app] in Hc.
      destruct (forallb isSettled _) in Hc; cbn [filter isCall] in Hc;
        simpl in Hc; repeat (destruct Hc as [Hc|Hc]; try discriminate);
        try (injection Hc as _ <-; reflexivity); destruct Hc. }
  subst files0.
  destruct (filter isVideoFile files) as [|file0 rest] eqn:Hvideo.
  - split; [reflexivity|]. intros H; contradiction H; reflexivity.
  - rewrite <- Hvideo. split; [intros H; rewrite Hvideo in H; discriminate|]. intros _.
    replace (Nat.eqb (List.length (filter isVideoFile files)) 0) with false
      by (rewrite Hvideo; reflexivity).
    rewrite results_deliver, results_settled, results_fulfilled.
    rewrite length_map, length_seq. reflexivity.
Qed.


Lemma convertVideos_calls W presetName :
  let run := convertVideos W presetName in
  let start := ConsoleLog [Msg.sessionStart presetName] in
  (getProperty PRESETS presetName = None /\ filter isCall run = [])
  \/ (exists m, run = [start; Mkdir (inputDir W) (Some m); critical m])
  \/ (exists m, run = [start; Mkdir (inputDir W) None; Mkdir (outputDir W) (Some m);
                       critical m])
  \/ (exists m, run = [start; Mkdir (inputDir W) None; Mkdir (outputDir W) None;
                       Readdir (inputDir W) (inl m); critical m])
  \/ (exists files, In (Readdir (inputDir W) (inr files)) run).
Proof.
  cbv zeta. unfold convertVideos.
  destruct (getProperty PRESETS presetName) as [preset|]; [|left; split; reflexivity].
  right.
  destruct (fs_mkdir W _ (inputDir W)) as [m|]; [left; exists m; reflexivity|].
  right.
  destruct (fs_mkdir W _ (outputDir W)) as [m|]; [left; exists m; reflexivity|].
  right.
  destruct (fs_readdir W _ (inputDir W)) as [m|files]; [left; exists m; reflexivity|].
  right. exists files.
  destruct (Nat.eqb (List.length (filter isVideoFile files)) 0); cbn [app]; in_list.
Qed.



(** X21 — in the earlier edition the summary does not depend on the order
    in which the processes are heard: a session that found videos always
    gets to its summary, which is the last thing it prints; the number of
    successes is the number of conversions that were heard to end, the
    number of failures the number of those that were heard to fail, and the
    two add up to the number of videos. *)
Theorem summary_whatever_the_arrival W presetName p files :
  let run := convertVideos W presetName in
  In (Readdir p (inr files)) run ->
  filter isVideoFile files <> [] ->
  (ended run + errored run = List.length (filter isVideoFile files))%nat
  /\ exists before,
       run = (before ++ [ConsoleLog [Msg.sessionFinished];
                         ConsoleLog [Msg.successful (ended run)];
                         ConsoleLog [Msg.withErrors (errored run)]])%list.
Proof.
  intros run Hin Hsome.
  destruct (convertVideos_listed_at_once W presetName p files Hin)
    as (preset & Hp & _ & Hrun).
  fold run in Hrun. cbv zeta in Hrun. specialize (Hrun Hsome).
  set (n := List.length (filter isVideoFile files)) in *.
  set (h5 := (_ ++ _ ++ map (launch W preset) _)%list) in Hrun.
  set (f := engine W h5) in *.
  set (k := List.length (filter (fun i => succeeds (f i)) (seq 0 n))) in *.
  assert (Hended : ended run = k /\ errored run = (n - k)%nat).
  { rewrite Hrun. rewrite !ended_app, !errored_app.
    destruct (heard_ended preset (filter isVideoFile files)
                (deliver (arrival W h5) (map (fun i => queueOf (f i)) (seq 0 n))))
      as [-> ->].
    rewrite !deliver_count.
    rewrite (count_queues isEnd f succeeds count_ended_queueOf).
    rewrite (count_queues isError f (fun r => negb (succeeds r)) count_errored_queueOf).
    unfold h5. rewrite !ended_app, !errored_app.
    destruct (launches_quiet W preset (filter isVideoFile files)) as (_ & _ & -> & ->).
    pose proof (filter_split (fun i => succeeds (f i)) (seq 0 n)) as Hsplit.
    rewrite length_seq in Hsplit. fold k in Hsplit.
    change (ended [ConsoleLog [Msg.sessionStart presetName]; Mkdir (inputDir W) None;
                   Mkdir (outputDir W) None; Readdir (inputDir W) (inr files)])
      with 0%nat.
    change (errored [ConsoleLog [Msg.sessionStart presetName]; Mkdir (inputDir W) None;
                     Mkdir (outputDir W) None; Readdir (inputDir W) (inr files)])
      with 0%nat.
    change (ended [ConsoleLog [Msg.foundFiles n]]) with 0%nat.
    change (errored [ConsoleLog [Msg.foundFiles n]]) with 0%nat.
    change (ended [ConsoleLog [Msg.sessionFinished]; ConsoleLog [Msg.successful k];
                   ConsoleLog [Msg.withErrors (n - k)]]) with 0%nat.
    change (errored [ConsoleLog [Msg.sessionFinished]; ConsoleLog [Msg.successful k];
                     ConsoleLog [Msg.withErrors (n - k)]]) with 0%nat.
    fold k. split; lia. }
  destruct Hended as [He Hr]. rewrite He, Hr.
  split.
  - pose proof (filter_split (fun i => succeeds (f i)) (seq 0 n)) as Hsplit.
    rewrite length_seq in Hsplit. fold k in Hsplit. lia.
  - eexists. rewrite Hrun. rewrite app_assoc. reflexivity.
Qed.

Lemma summary_whatever_the_arrival_witness :
  let run := convertVideos threeAtOnce "extract_audio" in
  let files := ["a.mp4"; "notes.txt"; "b.mkv"; "c.avi"] in
  (In (Readdir "/app/input" (inr files)) run /\ filter isVideoFile files <> [])
  /\ (ended run = 2 /\ errored run = 1)%nat
  /\ exists before,
       run = (before ++ [ConsoleLog [Msg.sessionFinished];
                         ConsoleLog [Msg.successful (ended run)];
                         ConsoleLog [Msg.withErrors (errored run)]])%list.
Proof.
  intros run files.
  assert (Hin : In (Readdir "/app/input" (inr files)) run) by (vm_compute; in_list).
  assert (Hsome : filter isVideoFile files <> []) by (vm_compute; discriminate).
  split; [split; assumption|].
  split; [split; vm_compute; reflexivity|].
  exact (proj2 (summary_whatever_the_arrival threeAtOnce "extract_audio" "/app/input"
                  files Hin Hsome)).
Defined.

(** X22 — in the earlier edition a failure of [mkdir] or of [readdir] ends
    the session: the failing call is followed by the critical error, printed
    on the error channel with the message of the failure, and by nothing
    else; every call before it succeeded and the engine is not called. *)
Theorem critical_error_ends_the_session W presetName e message :
  let run := convertVideos W presetName in
  In e run -> failureOf e = Some message ->
  exists before,
    run = (before ++ [e; ConsoleError [Msg.criticalError; message]])%list
    /\ Forall (fun e' => failureOf e' = None) before
    /\ filter isRun run = [].
Proof.
  intros run Hin Hfail.
  assert (Hcall : isCall e = true) by (destruct e; try discriminate; reflexivity).
  destruct (convertVideos_calls W presetName)
    as [(_ & Hnone)|[(m & Hrun)|[(m & Hrun)|[(m & Hrun)|(files & Hlist)]]]];
    fold run in Hnone || fold run in Hrun || fold run in Hlist.
  - pose proof (proj2 (filter_In isCall _ _) (conj Hin Hcall)) as Hc.
    rewrite Hnone in Hc. destruct Hc.
  - rewrite Hrun in Hin |- *. simpl in Hin.
    destruct Hin as [<-|[<-|[<-|[]]]]; try discriminate.
    injection Hfail as ->.
    exists [ConsoleLog [Msg.sessionStart presetName]].
    split; [reflexivity|]. split; [repeat constructor|reflexivity].
  - rewrite Hrun in Hin |- *. simpl in Hin.
    destruct Hin as [<-|[<-|[<-|[<-|[]]]]]; try discriminate.
    injection Hfail as ->.
    exists [ConsoleLog [Msg.sessionStart presetName]; Mkdir (inputDir W) None].
    split; [reflexivity|]. split; [repeat constructor|reflexivity].
  - rewrite Hrun in Hin |- *. simpl in Hin.
    destruct Hin as [<-|[<-|[<-|[<-|[<-|[]]]]]]; try discriminate.
    injection Hfail as ->.
    exists [ConsoleLog [Msg.sessionStart presetName]; Mkdir (inputDir W) None;
            Mkdir (outputDir W) None].
    split; [reflexivity|]. split; [repeat constructor|reflexivity].
  - destruct (convertVideos_listed_at_once W presetName _ files Hlist)
      as (preset & Hp & Hnone & Hsome).
    fold run in Hnone, Hsome. cbv zeta in Hnone, Hsome.
    pose proof (proj2 (filter_In isCall _ _) (conj Hin Hcall)) as Hc.
    destruct (filter isVideoFile files) as [|file0 rest] eqn:Hvideo.
    + rewrite (Hnone eq_refl) in Hc. simpl in Hc.
      destruct Hc as [<-|[<-|[<-|[]]]]; discriminate.
    + rewrite (Hsome ltac:(discriminate)) in Hc.
      rewrite !filter_app in Hc.
      rewrite (proj1 (launches_quiet W preset _)) in Hc.
      rewrite (proj2 (heard_quiet preset _ _)) in Hc.
      simpl in Hc. destruct Hc as [<-|[<-|[<-|[]]]]; discriminate.
Qed.

Lemma critical_error_ends_the_session_witness :
  let run := convertVideos unreadable "web_h264" in
  let message := "EACCES: permission denied, scandir '/app/input'" in
  let e := Readdir "/app/input" (inl message) in
  (In e run /\ failureOf e = Some message)
  /\ exists before,
       run = (before ++ [e; ConsoleError [Msg.criticalError; message]])%list
       /\ Forall (fun e' => failureOf e' = None) before
       /\ filter isRun run = [].
Proof.
  intros run message e.
  assert (Hin : In e run) by (vm_compute; in_list).
  split; [split; [exact Hin|reflexivity]|].
  exact (critical_error_ends_the_session unreadable "web_h264" e message Hin eq_refl).
Defined.

(** X23 — in the earlier edition a listing without a video is a warning
    and nothing more: after the listing the session prints the warning with
    [console.warn], starts no conversion and prints no summary. *)
Theorem no_video_is_a_warning W presetName p files :
  let run := convertVideos W presetName in
  In (Readdir p (inr files)) run ->
  filter isVideoFile files = [] ->
  run = [ConsoleLog [Msg.sessionStart presetName];
         Mkdir (inputDir W) None; Mkdir (outputDir W) None;
         Readdir (inputDir W) (inr files);
         ConsoleWarn [Msg.noVideoFiles]].
Proof.
  intros run Hin Hnone.
  destruct (convertVideos_listed_at_once W presetName p files Hin)
    as (preset & _ & Hrun & _).
  exact (Hrun Hnone).
Qed.

Lemma no_video_is_a_warning_witness :
  let run := convertVideos nothingToDo "conv0_5" in
  (In (Readdir "/app/input" (inr ["notes.txt"; ".mp4"])) run
   /\ filter isVideoFile ["notes.txt"; ".mp4"] = [])
  /\ run = [ConsoleLog [Msg.sessionStart "conv0_5"];
            Mkdir "/app/input" None; Mkdir "/app/output" None;
            Readdir "/app/input" (inr ["notes.txt"; ".mp4"]);
            ConsoleWarn [Msg.noVideoFiles]].
Proof.
  intros run.
  assert (Hin : In (Readdir "/app/input" (inr ["notes.txt"; ".mp4"])) run)
    by (vm_compute; in_list).
  split; [split; [exact Hin|reflexivity]|].
  exact (no_video_is_a_warning nothingToDo "conv0_5" "/app/input"
           ["notes.txt"; ".mp4"] Hin eq_refl).
Defined.

End ConcurrentEdition.
